(** * Pairing service: session registry, validator and identifier issuer

    A shallow embedding of [gen-id.js] and [pair.js].  JavaScript strings
    are [string], numbers that the code only uses as integers are [Z] or
    [nat], [undefined]/[false] results are [option], the [Map] of live
    sessions is an insertion-ordered association list, and every
    run-to-completion segment of an [async] function is one step of an
    event loop over an explicit world state. *)

From Stdlib Require Import List String Ascii ZArith Lia Bool Arith.
From Stdlib Require Import Numbers.DecimalString.
Import ListNotations.
Open Scope string_scope.

(* ================================================================== *)
(** ** gen-id.js *)
(* ================================================================== *)

Module GenId.

(** [\d] without the unicode flag: the ten ASCII digits. *)
Definition is_digit (c : ascii) : bool :=
  let n := nat_of_ascii c in (48 <=? n)%nat && (n <=? 57)%nat.

(** [phone.replace(/\D/g, '')] *)
Fixpoint strip_non_digits (s : string) : string :=
  match s with
  | EmptyString => EmptyString
  | String c r =>
      if is_digit c then String c (strip_non_digits r) else strip_non_digits r
  end.

(** [s.startsWith(p)] *)
Definition startsWith (s p : string) : bool := String.prefix p s.

(** [validatePhoneNumber(phone)]; the JavaScript result [false] is [None]. *)
Definition validatePhoneNumber (phone : string) : option string :=
  let cleaned := strip_non_digits phone in
  if String.eqb cleaned EmptyString then None
  else if (String.length cleaned <? 10)%nat || (15 <? String.length cleaned)%nat then None
  else if startsWith cleaned "1" || startsWith cleaned "2" ||
          startsWith cleaned "3" || startsWith cleaned "4" ||
          startsWith cleaned "5" || startsWith cleaned "6" ||
          startsWith cleaned "7" || startsWith cleaned "8" ||
          startsWith cleaned "9"
       then Some cleaned else None.

(** The alphabet of [generateSessionId]. *)
Definition chars : string :=
  "ABCDEFGHIJKLMNOPQRSTUVWXYZabcdefghijklmnopqrstuvwxyz0123456789".

(** [chars[b % chars.length]] as a one-character string; indexing a string
    out of range gives [undefined], which [+=] appends as text. *)
Definition pick (b : nat) : string :=
  match String.get (b mod String.length chars) chars with
  | Some c => String c EmptyString
  | None => "undefined"
  end.

(** One iteration of the loop body, [result += chars[bytes[i] % chars.length]].
    [bytes[i]] past the end of the buffer is [undefined], the remainder is
    [NaN] and the string index is [undefined] again. *)
Definition loop_body (bytes : list nat) (result : string) (i : nat) : string :=
  match nth_error bytes i with
  | Some b => result ++ pick b
  | None => result ++ "undefined"
  end.

(** [generateSessionId(length)], with [bytes] the buffer that
    [randomBytes(length)] returned: [length] values in 0..255. *)
Definition generateSessionId (length : nat) (bytes : list nat) : string :=
  fold_left (loop_body bytes) (seq 0 length) EmptyString.

(** The function from byte values to alphabet characters that the loop
    applies, and the number of byte values sent to a given character. *)
Definition byte_values : list nat := seq 0 256.

Definition preimages (c : string) : nat :=
  List.length (filter (fun b => String.eqb (pick b) c) byte_values).

Definition alphabet : list string :=
  map (fun c => String c EmptyString) (list_ascii_of_string chars).

Section Hash.
(** [createHash('sha256').update(phone).digest('hex')] of the platform's
    crypto module. *)
Variable sha256_hex : string -> string.

(** [hashPhoneNumber(phone)]: the first 16 characters of the digest. *)
Definition hashPhoneNumber (phone : string) : string :=
  String.substring 0 16 (sha256_hex phone).
End Hash.

End GenId.

(* ================================================================== *)
(** ** pair.js: data *)
(* ================================================================== *)

Module Pair.
Import GenId.

(** The string literals that the code ever stores in [session.status]
    ([connecting] only in the simplified router). *)
Inductive Status :=
| initializing | connecting | paired | connected
| logged_out | disconnected | failed.

Definition status_name (s : Status) : string :=
  match s with
  | initializing => "initializing"
  | connecting => "connecting"
  | paired => "paired"
  | connected => "connected"
  | logged_out => "logged_out"
  | disconnected => "disconnected"
  | failed => "failed"
  end.

Definition Status_eqb (a b : Status) : bool :=
  String.eqb (status_name a) (status_name b).

(** The socket of the protocol client, as far as the registry looks into
    it: [sock.ws] and its [close()]. *)
Definition WebSocket := nat.
Record Socket := mkSocket { ws : option WebSocket }.

Record Session := mkSession {
  id : string;
  ip : string;
  phone : string;
  startedAt : Z;
  status : Status;
  socket : option Socket;
  pairingCode : option string;
  error : option string
}.

(** The object literal passed to [updateSession]: the keys it has. *)
Record Updates := mkUpdates {
  u_status : option Status;
  u_pairingCode : option string;
  u_error : option string;
  u_socket : option Socket
}.

Definition pick_field {A} (new : option A) (old : A) : A :=
  match new with Some v => v | None => old end.

Definition keep_field {A} (new old : option A) : option A :=
  match new with Some v => Some v | None => old end.

(** [Object.assign(session, updates)] *)
Definition assign (session : Session) (updates : Updates) : Session :=
  {| id := id session;
     ip := ip session;
     phone := phone session;
     startedAt := startedAt session;
     status := pick_field (u_status updates) (status session);
     socket := keep_field (u_socket updates) (socket session);
     pairingCode := keep_field (u_pairingCode updates) (pairingCode session);
     error := keep_field (u_error updates) (error session) |}.

(** *** The [Map] of live sessions, in insertion order *)

Definition Map := list (string * Session).

Fixpoint map_get (k : string) (m : Map) : option Session :=
  match m with
  | [] => None
  | (k', v) :: r => if String.eqb k k' then Some v else map_get k r
  end.

(** [Map.prototype.set]: an existing key keeps its place. *)
Fixpoint map_set (k : string) (v : Session) (m : Map) : Map :=
  match m with
  | [] => [(k, v)]
  | (k', v') :: r =>
      if String.eqb k k' then (k, v) :: r else (k', v') :: map_set k v r
  end.

Definition map_delete (k : string) (m : Map) : Map :=
  filter (fun kv => negb (String.eqb k (fst kv))) m.

(** [Array.from(map.values())] *)
Definition map_values (m : Map) : list Session := map snd m.

Record SessionManager := mkSessionManager {
  activeSessions : Map;
  sessionTimeout : Z;
  maxSessionsPerIP : Z
}.

(** [parseInt(env) || d]: [None] is [NaN]; [NaN] and 0 are falsy. *)
Definition or_default (v : option Z) (d : Z) : Z :=
  match v with
  | Some n => if (n =? 0)%Z then d else n
  | None => d
  end.

(** The constructor, from the parsed [SESSION_TIMEOUT] and
    [MAX_SESSIONS_PER_IP]. *)
Definition new_SessionManager (env_timeout env_max : option Z) : SessionManager :=
  {| activeSessions := [];
     sessionTimeout := or_default env_timeout 300000;
     maxSessionsPerIP := or_default env_max 3 |}.

(** The sessions of one address, as [canCreateSession] filters them. *)
Definition userSessions (clientIP : string) (m : Map) : list Session :=
  filter (fun session => String.eqb (ip session) clientIP) (map_values m).

Definition canCreateSession (clientIP : string) (sm : SessionManager) : bool :=
  (Z.of_nat (List.length (userSessions clientIP (activeSessions sm)))
   <? maxSessionsPerIP sm)%Z.

(** The record written to [sessions/expired/<id>.json]:
    [{...session, endedAt, duration}], taken to be serialisable whatever
    the socket stored in the session. *)
Record Archived := mkArchived {
  a_session : Session;
  endedAt : Z;
  duration : Z
}.

(** *** HTTP responses *)

Inductive Body :=
| PairIssued (requestId code message sessionId expiresIn : string)
             (instructions : list string)
| PairError (requestId error message : string)
| AdminReply (success : bool) (message : string)
| Unauthorized.

Record Response := mkResponse { http_status : Z; body : Body }.

(** What [initiateWhatsAppPairing] returns; falling off the end of the
    function gives [undefined], which is [None] at its callers. *)
Inductive PairingResult :=
| Success (code message : string)
| Failure (error : string).

(** An awaited call of a collaborator either resolves or rejects with an
    error whose [message] may be empty. *)
Inductive Outcome (A : Type) :=
| Resolved (a : A)
| Rejected (message : string).
Arguments Resolved {A} a.
Arguments Rejected {A} message.

(** [m || d] on strings *)
Definition or_text (m d : string) : string :=
  if String.eqb m EmptyString then d else m.

(** [useMultiFileAuthState] resolved: [state.creds.registered], and what
    [makeWASocket] then does. *)
Record AuthState := mkAuthState {
  registered : bool;
  makeWASocket : Outcome Socket
}.

(** [lastDisconnect.error]: whether its [output.statusCode] is
    [DisconnectReason.loggedOut], and its [message]. *)
Record DisconnectError := mkDisconnectError {
  isLoggedOut : bool;
  dmessage : string
}.

(** The [connection] field of a [connection.update] event. *)
Inductive ConnUpdate :=
| ConnOpen
| ConnClose (lastDisconnect : option DisconnectError)
| ConnOther.

(** Where a suspended [GET /] handler waits inside
    [initiateWhatsAppPairing]. *)
Inductive Stage := AwaitEnsureDir | AwaitAuthState | AwaitPairingCode.

Record Task := mkTask {
  t_requestId : string;
  t_sessionId : string;
  t_phone : string;
  t_stage : Stage
}.

(** The world the module runs in.  The calls of [fs] are taken to succeed,
    and a directory or file is identified by the session id in its name. *)
Record World := mkWorld {
  sessionManager : SessionManager;
  env_CLEANUP_KEY : option string;
  tempDirs : list string;                (* the directories temp/<id> that exist *)
  expiredFiles : list (string * Archived); (* writes to sessions/expired, oldest first *)
  closed : list WebSocket;               (* calls of ws.close(), oldest first *)
  timers : list (Z * string);            (* pending setTimeout(cleanupSession(id)): due time *)
  tasks : list Task;                     (* suspended GET / handlers *)
  handlers : list (string * Socket);     (* registered connection.update handlers *)
  tails : list (string * Socket);        (* open handlers suspended in their delays *)
  responses : list Response;             (* responses sent, oldest first *)
  now : Z                                (* Date.now() *)
}.

(* ================================================================== *)
(** ** pair.js: the session manager *)
(* ================================================================== *)

Definition sessions (w : World) : Map := activeSessions (sessionManager w).

Definition set_sessions (m : Map) (w : World) : World :=
  {| sessionManager :=
       {| activeSessions := m;
          sessionTimeout := sessionTimeout (sessionManager w);
          maxSessionsPerIP := maxSessionsPerIP (sessionManager w) |};
     env_CLEANUP_KEY := env_CLEANUP_KEY w;
     tempDirs := tempDirs w;
     expiredFiles := expiredFiles w;
     closed := closed w;
     timers := timers w;
     tasks := tasks w;
     handlers := handlers w;
     tails := tails w;
     responses := responses w;
     now := now w |}.

Definition set_tempDirs (d : list string) (w : World) : World :=
  {| sessionManager := sessionManager w;
     env_CLEANUP_KEY := env_CLEANUP_KEY w;
     tempDirs := d;
     expiredFiles := expiredFiles w;
     closed := closed w;
     timers := timers w;
     tasks := tasks w;
     handlers := handlers w;
     tails := tails w;
     responses := responses w;
     now := now w |}.

Definition set_expiredFiles (f : list (string * Archived)) (w : World) : World :=
  {| sessionManager := sessionManager w;
     env_CLEANUP_KEY := env_CLEANUP_KEY w;
     tempDirs := tempDirs w;
     expiredFiles := f;
     closed := closed w;
     timers := timers w;
     tasks := tasks w;
     handlers := handlers w;
     tails := tails w;
     responses := responses w;
     now := now w |}.

Definition set_closed (c : list WebSocket) (w : World) : World :=
  {| sessionManager := sessionManager w;
     env_CLEANUP_KEY := env_CLEANUP_KEY w;
     tempDirs := tempDirs w;
     expiredFiles := expiredFiles w;
     closed := c;
     timers := timers w;
     tasks := tasks w;
     handlers := handlers w;
     tails := tails w;
     responses := responses w;
     now := now w |}.

Definition set_timers (t : list (Z * string)) (w : World) : World :=
  {| sessionManager := sessionManager w;
     env_CLEANUP_KEY := env_CLEANUP_KEY w;
     tempDirs := tempDirs w;
     expiredFiles := expiredFiles w;
     closed := closed w;
     timers := t;
     tasks := tasks w;
     handlers := handlers w;
     tails := tails w;
     responses := responses w;
     now := now w |}.

Definition set_tasks (t : list Task) (w : World) : World :=
  {| sessionManager := sessionManager w;
     env_CLEANUP_KEY := env_CLEANUP_KEY w;
     tempDirs := tempDirs w;
     expiredFiles := expiredFiles w;
     closed := closed w;
     timers := timers w;
     tasks := t;
     handlers := handlers w;
     tails := tails w;
     responses := responses w;
     now := now w |}.

Definition set_handlers (h : list (string * Socket)) (w : World) : World :=
  {| sessionManager := sessionManager w;
     env_CLEANUP_KEY := env_CLEANUP_KEY w;
     tempDirs := tempDirs w;
     expiredFiles := expiredFiles w;
     closed := closed w;
     timers := timers w;
     tasks := tasks w;
     handlers := h;
     tails := tails w;
     responses := responses w;
     now := now w |}.

Definition set_tails (t : list (string * Socket)) (w : World) : World :=
  {| sessionManager := sessionManager w;
     env_CLEANUP_KEY := env_CLEANUP_KEY w;
     tempDirs := tempDirs w;
     expiredFiles := expiredFiles w;
     closed := closed w;
     timers := timers w;
     tasks := tasks w;
     handlers := handlers w;
     tails := t;
     responses := responses w;
     now := now w |}.

Definition set_now (t : Z) (w : World) : World :=
  {| sessionManager := sessionManager w;
     env_CLEANUP_KEY := env_CLEANUP_KEY w;
     tempDirs := tempDirs w;
     expiredFiles := expiredFiles w;
     closed := closed w;
     timers := timers w;
     tasks := tasks w;
     handlers := handlers w;
     tails := tails w;
     responses := responses w;
     now := t |}.

(** [res.status(n).json(b)] *)
Definition respond (n : Z) (b : Body) (w : World) : World :=
  {| sessionManager := sessionManager w;
     env_CLEANUP_KEY := env_CLEANUP_KEY w;
     tempDirs := tempDirs w;
     expiredFiles := expiredFiles w;
     closed := closed w;
     timers := timers w;
     tasks := tasks w;
     handlers := handlers w;
     tails := tails w;
     responses := responses w ++ [mkResponse n b];
     now := now w |}.

(** Node's [setTimeout(callback, ms)]: a delay below 1 or above
    2147483647 is replaced by 1. *)
Definition setTimeout_delay (ms : Z) : Z :=
  if ((ms <? 1) || (2147483647 <? ms))%Z then 1%Z else ms.

(** The session object that [createSession] builds. *)
Definition new_session (sessionId clientIP validatedPhone : string) (t : Z) : Session :=
  {| id := sessionId;
     ip := clientIP;
     phone := validatedPhone;
     startedAt := t;
     status := initializing;
     socket := None;
     pairingCode := None;
     error := None |}.

(** [createSession(sessionId, {ip, phone})]: the map entry and the
    auto-cleanup timer. *)
Definition createSession (sessionId clientIP validatedPhone : string) (w : World) : World :=
  let session := new_session sessionId clientIP validatedPhone (now w) in
  let w1 := set_sessions (map_set sessionId session (sessions w)) w in
  set_timers
    (timers w1 ++
       [(now w1 + setTimeout_delay (sessionTimeout (sessionManager w1)), sessionId)]%Z)
    w1.

(** [updateSession(sessionId, updates)] *)
Definition updateSession (sessionId : string) (updates : Updates) (w : World) : World :=
  match map_get sessionId (sessions w) with
  | Some session =>
      set_sessions (map_set sessionId (assign session updates) (sessions w)) w
  | None => w
  end.

(** [session.socket && session.socket.ws], then [ws.close()] inside
    [try]: the handles on which close is called. *)
Definition socket_to_close (session : Session) : list WebSocket :=
  match socket session with
  | Some sock =>
      match ws sock with
      | Some h => [h]
      | None => []
      end
  | None => []
  end.

(** [fs.existsSync(tempDir)] and [fs.removeSync(tempDir)] *)
Definition existsSync (sessionId : string) (dirs : list string) : bool :=
  existsb (String.eqb sessionId) dirs.

Definition removeSync (sessionId : string) (dirs : list string) : list string :=
  filter (fun d => negb (String.eqb sessionId d)) dirs.

(** [cleanupSession(sessionId)].  Both readings of [Date.now()] are the
    clock of the segment. *)
Definition cleanupSession (sessionId : string) (w : World) : World :=
  match map_get sessionId (sessions w) with
  | Some session =>
      let w1 := set_closed (closed w ++ socket_to_close session) w in
      let w2 :=
        if existsSync sessionId (tempDirs w1)
        then set_tempDirs (removeSync sessionId (tempDirs w1)) w1
        else w1 in
      let w3 := set_sessions (map_delete sessionId (sessions w2)) w2 in
      set_expiredFiles
        (expiredFiles w3 ++
           [(sessionId,
             {| a_session := session;
                endedAt := now w3;
                duration := (now w3 - startedAt session)%Z |})])
        w3
  | None => w
  end.

(** *** [getStats()] *)

Record RecentEntry := mkRecentEntry {
  r_id : string;
  r_phone : string;
  r_status : Status;
  r_age : Z
}.

Record Stats := mkStats {
  total : nat;
  byStatus : list (Status * nat);   (* the keys of the object, in insertion order *)
  recent : list RecentEntry
}.

Fixpoint acc_get (k : Status) (acc : list (Status * nat)) : option nat :=
  match acc with
  | [] => None
  | (k', n) :: r => if Status_eqb k k' then Some n else acc_get k r
  end.

Fixpoint acc_set (k : Status) (n : nat) (acc : list (Status * nat)) : list (Status * nat) :=
  match acc with
  | [] => [(k, n)]
  | (k', n') :: r =>
      if Status_eqb k k' then (k, n) :: r else (k', n') :: acc_set k n r
  end.

(** [acc[session.status] = (acc[session.status] || 0) + 1] *)
Definition tally (acc : list (Status * nat)) (session : Session) : list (Status * nat) :=
  acc_set (status session)
          (match acc_get (status session) acc with Some n => n | None => 0 end + 1)
          acc.

(** [array.slice(-n)] *)
Definition slice_last {A} (n : nat) (l : list A) : list A :=
  skipn (List.length l - n) l.

Section Stats.
Variable sha256_hex : string -> string.

Definition recent_entry (t : Z) (s : Session) : RecentEntry :=
  {| r_id := id s;
     r_phone := hashPhoneNumber sha256_hex (phone s);
     r_status := status s;
     r_age := ((t - startedAt s) / 1000)%Z |}.

Definition getStats (w : World) : Stats :=
  {| total := List.length (sessions w);
     byStatus := fold_left tally (map_values (sessions w)) [];
     recent := map (recent_entry (now w)) (slice_last 5 (map_values (sessions w))) |}.
End Stats.

(* ================================================================== *)
(** ** pair.js: the routes and the pairing function *)
(* ================================================================== *)

Definition Z_to_string (z : Z) : string := NilZero.string_of_int (Z.to_int z).

(** The value of [req.query.number]: absent, a string, or, for a repeated
    or bracketed parameter, an array or an object. *)
Inductive QueryValue :=
| QAbsent
| QString (s : string)
| QOther.

(** [(req.query.number || '')] as the receiver of [.replace(...)]: an
    array or an object is truthy and has no such method, so the call
    throws. *)
Definition query_text (number : QueryValue) : option string :=
  match number with
  | QAbsent => Some EmptyString
  | QString n => Some n
  | QOther => None
  end.

Definition instructions_text : list string :=
  [ "1. Open WhatsApp on your phone";
    "2. Go to Settings > Linked Devices > Link a Device";
    "3. Enter the code above";
    "4. Your session will be created automatically" ].

(** How a segment of [initiateWhatsAppPairing] ends: at the next [await],
    or with the function's result ([None] when it falls off its end). *)
Inductive Resume :=
| Suspended (st : Stage)
| Returned (r : option PairingResult).

(** The outer [catch] of [initiateWhatsAppPairing]. *)
Definition pairing_catch (sessionId message : string) (w : World) : World * Resume :=
  let w1 :=
    if existsSync sessionId (tempDirs w)
    then set_tempDirs (removeSync sessionId (tempDirs w)) w
    else w in
  (w1, Returned (Some (Failure (or_text message "WhatsApp connection failed")))).

(** After [await fs.ensureDir(tempDir)]. *)
Definition pairing_after_ensureDir (sessionId : string) (r : Outcome unit) (w : World)
  : World * Resume :=
  match r with
  | Resolved _ =>
      let w1 :=
        if existsSync sessionId (tempDirs w) then w
        else set_tempDirs (tempDirs w ++ [sessionId]) w in
      (w1, Suspended AwaitAuthState)
  | Rejected message => pairing_catch sessionId message w
  end.

(** After [await useMultiFileAuthState(tempDir)]: the socket is made and
    stored, the two handlers are registered, and the code is requested
    only for an unregistered identity. *)
Definition pairing_after_authState (sessionId : string) (r : Outcome AuthState) (w : World)
  : World * Resume :=
  match r with
  | Resolved state =>
      match makeWASocket state with
      | Resolved sock =>
          let w1 := updateSession sessionId (mkUpdates None None None (Some sock)) w in
          let w2 := set_handlers (handlers w1 ++ [(sessionId, sock)]) w1 in
          if negb (registered state)
          then (w2, Suspended AwaitPairingCode)
          else (w2, Returned None)
      | Rejected message => pairing_catch sessionId message w
      end
  | Rejected message => pairing_catch sessionId message w
  end.

(** After [await delay(2000)] and [await sock.requestPairingCode(phoneNumber)],
    with the inner [catch]. *)
Definition pairing_after_code (r : Outcome string) (w : World) : World * Resume :=
  match r with
  | Resolved pairingCode =>
      (w, Returned (Some (Success pairingCode "Pairing code generated successfully")))
  | Rejected message =>
      (w, Returned (Some (Failure (or_text message "Failed to generate pairing code"))))
  end.

(** [GET /] after [await initiateWhatsAppPairing(...)].  Reading [.success]
    of [undefined] throws, which the handler's [catch] answers. *)
Definition route_pair_resume (t : Task) (pairingResult : option PairingResult) (w : World)
  : World :=
  match pairingResult with
  | Some (Success code message) =>
      let w1 :=
        updateSession (t_sessionId t) (mkUpdates (Some paired) (Some code) None None) w in
      respond 200
        (PairIssued (t_requestId t) code message (t_sessionId t)
           (Z_to_string (sessionTimeout (sessionManager w1) / 60000) ++ " minutes")
           instructions_text)
        w1
  | Some (Failure err) =>
      let w1 :=
        updateSession (t_sessionId t) (mkUpdates (Some failed) None (Some err) None) w in
      respond 500 (PairError (t_requestId t) "PAIRING_FAILED" err) w1
  | None =>
      respond 500
        (PairError (t_requestId t) "INTERNAL_ERROR"
           "An unexpected error occurred. Please try again.")
        w
  end.

(** A segment of the pairing function ended: park the handler again, or
    run the rest of the route. *)
Definition continue_pair (t : Task) (wr : World * Resume) : World :=
  match snd wr with
  | Suspended st =>
      set_tasks
        (tasks (fst wr) ++ [mkTask (t_requestId t) (t_sessionId t) (t_phone t) st])
        (fst wr)
  | Returned r => route_pair_resume t r (fst wr)
  end.

(** [GET /?number=...] after its first statement, which has made
    [phoneNumber] from the text of the parameter: validation, the
    capacity check, [createSession], and the call of the pairing function,
    which suspends at [fs.ensureDir]. *)
Definition route_pair_text (raw clientIP requestId : string)
           (bytes : list nat) (w : World) : World :=
  let phoneNumber := strip_non_digits raw in
  if String.eqb phoneNumber EmptyString then
    respond 400 (PairError requestId "VALIDATION_ERROR" "Phone number is required") w
  else
    match validatePhoneNumber phoneNumber with
    | None =>
        respond 400
          (PairError requestId "VALIDATION_ERROR"
             "Invalid phone number format. Use format: 923123456789")
          w
    | Some validatedPhone =>
        if negb (canCreateSession clientIP (sessionManager w)) then
          respond 429
            (PairError requestId "RATE_LIMIT_EXCEEDED"
               ("Maximum " ++ Z_to_string (maxSessionsPerIP (sessionManager w))
                  ++ " sessions per IP allowed"))
            w
        else
          let sessionId := generateSessionId 12 bytes in
          let w1 := createSession sessionId clientIP validatedPhone w in
          set_tasks
            (tasks w1 ++ [mkTask requestId sessionId validatedPhone AwaitEnsureDir])
            w1
    end.

(** [GET /?number=...] up to the first [await].  The first statement is
    outside the [try]: when the parameter is an array or an object it
    throws, and the handler ends there, having sent nothing and changed
    nothing. *)
Definition route_pair (number : QueryValue) (clientIP requestId : string)
           (bytes : list nat) (w : World) : World :=
  match query_text number with
  | Some raw => route_pair_text raw clientIP requestId bytes w
  | None => w
  end.

(** The [connection.update] handler up to its first [await]. *)
Definition on_connection_update (sessionId : string) (sock : Socket) (u : ConnUpdate)
           (w : World) : World :=
  match u with
  | ConnOpen =>
      let w1 := updateSession sessionId (mkUpdates (Some connected) None None None) w in
      set_tails (tails w1 ++ [(sessionId, sock)]) w1
  | ConnClose lastDisconnect =>
      match lastDisconnect with
      | Some e =>
          if isLoggedOut e then
            updateSession sessionId
              (mkUpdates (Some logged_out) None (Some "Logged out from WhatsApp") None) w
          else
            updateSession sessionId
              (mkUpdates (Some disconnected) None (Some (dmessage e)) None) w
      | None => w
      end
  | ConnOther => w
  end.

(** The rest of the open branch, after the welcome message and the two
    delays: close the transport unless its [readyState] is CLOSED, and
    schedule the cleanup; the delay of 10000 is one that [setTimeout]
    keeps. *)
Definition on_open_tail (sessionId : string) (sock : Socket) (readyState_closed : bool)
           (w : World) : World :=
  let w1 :=
    match ws sock with
    | Some h => if readyState_closed then w else set_closed (closed w ++ [h]) w
    | None => w
    end in
  set_timers (timers w1 ++ [(now w1 + 10000, sessionId)]%Z) w1.

Definition option_string_eqb (a b : option string) : bool :=
  match a, b with
  | Some x, Some y => String.eqb x y
  | None, None => true
  | _, _ => false
  end.

(** [POST /cleanup]; an absent or empty [sessionId] is falsy. *)
Definition route_cleanup (key sessionId : option string) (w : World) : World :=
  if negb (option_string_eqb key (env_CLEANUP_KEY w)) then
    respond 403 Unauthorized w
  else
    match sessionId with
    | Some sid =>
        if String.eqb sid EmptyString then
          respond 200 (AdminReply true "Use ?sessionId=ID to clean specific session") w
        else
          respond 200 (AdminReply true ("Session " ++ sid ++ " cleaned up"))
            (cleanupSession sid w)
    | None =>
        respond 200 (AdminReply true "Use ?sessionId=ID to clean specific session") w
    end.

(* ================================================================== *)
(** ** The event loop *)
(* ================================================================== *)

(** What the event loop can run next.  Each event is one segment of the
    code that runs to completion, with the answers of the collaborators
    it resumes with. *)
Inductive Event :=
| Request (number : QueryValue) (clientIP requestId : string) (bytes : list nat)
| EnsureDirDone (requestId : string) (r : Outcome unit)
| AuthStateDone (requestId : string) (r : Outcome AuthState)
| PairingCodeDone (requestId : string) (r : Outcome string)
| ConnectionUpdate (sessionId : string) (u : ConnUpdate)
| OpenTailDone (sessionId : string) (readyState_closed : bool)
| TimerFired (k : nat)
| Tick (dt : Z)
| AdminCleanup (key sessionId : option string).

Fixpoint take_task (requestId : string) (ts : list Task) : option (Task * list Task) :=
  match ts with
  | [] => None
  | t :: r =>
      if String.eqb (t_requestId t) requestId then Some (t, r)
      else match take_task requestId r with
           | Some (t', r') => Some (t', t :: r')
           | None => None
           end
  end.

Fixpoint find_sock (sessionId : string) (l : list (string * Socket)) : option Socket :=
  match l with
  | [] => None
  | (k, sock) :: r => if String.eqb sessionId k then Some sock else find_sock sessionId r
  end.

Fixpoint drop_sock (sessionId : string) (l : list (string * Socket)) : list (string * Socket) :=
  match l with
  | [] => []
  | (k, sock) :: r =>
      if String.eqb sessionId k then r else (k, sock) :: drop_sock sessionId r
  end.

Fixpoint drop_nth {A} (k : nat) (l : list A) : list A :=
  match k, l with
  | _, [] => []
  | O, _ :: r => r
  | S k', x :: r => x :: drop_nth k' r
  end.

Definition Stage_eqb (a b : Stage) : bool :=
  match a, b with
  | AwaitEnsureDir, AwaitEnsureDir => true
  | AwaitAuthState, AwaitAuthState => true
  | AwaitPairingCode, AwaitPairingCode => true
  | _, _ => false
  end.

(** Resume the handler of [requestId] if it waits at [st]. *)
Definition resume_task (requestId : string) (st : Stage)
           (k : Task -> World -> World * Resume) (w : World) : option World :=
  match take_task requestId (tasks w) with
  | Some (t, rest) =>
      if Stage_eqb (t_stage t) st
      then Some (continue_pair t (k t (set_tasks rest w)))
      else None
  | None => None
  end.

(** One step of the event loop; [None] when the event cannot occur in
    this world. *)
Definition step (w : World) (e : Event) : option World :=
  match e with
  | Request number clientIP requestId bytes =>
      Some (route_pair number clientIP requestId bytes w)
  | EnsureDirDone requestId r =>
      resume_task requestId AwaitEnsureDir
        (fun t => pairing_after_ensureDir (t_sessionId t) r) w
  | AuthStateDone requestId r =>
      resume_task requestId AwaitAuthState
        (fun t => pairing_after_authState (t_sessionId t) r) w
  | PairingCodeDone requestId r =>
      resume_task requestId AwaitPairingCode
        (fun _ => pairing_after_code r) w
  | ConnectionUpdate sessionId u =>
      match find_sock sessionId (handlers w) with
      | Some sock => Some (on_connection_update sessionId sock u w)
      | None => None
      end
  | OpenTailDone sessionId readyState_closed =>
      match find_sock sessionId (tails w) with
      | Some sock =>
          Some (on_open_tail sessionId sock readyState_closed
                  (set_tails (drop_sock sessionId (tails w)) w))
      | None => None
      end
  | TimerFired k =>
      match nth_error (timers w) k with
      | Some (due, sessionId) =>
          if (due <=? now w)%Z
          then Some (cleanupSession sessionId (set_timers (drop_nth k (timers w)) w))
          else None
      | None => None
      end
  | Tick dt =>
      if (0 <=? dt)%Z then Some (set_now (now w + dt)%Z w) else None
  | AdminCleanup key sessionId =>
      Some (route_cleanup key sessionId w)
  end.

Fixpoint run (w : World) (es : list Event) : option World :=
  match es with
  | [] => Some w
  | e :: r =>
      match step w e with
      | Some w' => run w' r
      | None => None
      end
  end.

(** The world when the module is loaded at time [t0]. *)
Definition init (env_timeout env_max : option Z) (cleanup_key : option string) (t0 : Z)
  : World :=
  {| sessionManager := new_SessionManager env_timeout env_max;
     env_CLEANUP_KEY := cleanup_key;
     tempDirs := [];
     expiredFiles := [];
     closed := [];
     timers := [];
     tasks := [];
     handlers := [];
     tails := [];
     responses := [];
     now := t0 |}.

Definition reachable (env_timeout env_max : option Z) (cleanup_key : option string)
           (t0 : Z) (w : World) : Prop :=
  exists es, run (init env_timeout env_max cleanup_key t0) es = Some w.

(** The last record written for a session id under [sessions/expired]. *)
Fixpoint archived (sessionId : string) (files : list (string * Archived)) : option Archived :=
  match files with
  | [] => None
  | (k, a) :: r =>
      match archived sessionId r with
      | Some a' => Some a'
      | None => if String.eqb sessionId k then Some a else None
      end
  end.

(** How many records were written for a session id. *)
Definition writes_for (sessionId : string) (files : list (string * Archived)) : nat :=
  List.length (filter (fun kv => String.eqb sessionId (fst kv)) files).

Definition live_status (sessionId : string) (w : World) : option string :=
  option_map (fun s => status_name (status s)) (map_get sessionId (sessions w)).

End Pair.

(* ================================================================== *)
(** ** The simplified router *)
(* ================================================================== *)

(** The second router of the repository has its own
    [initiateWhatsAppPairing]; it differs from the one of [pair.js] after
    the socket is made: it marks the session [connecting], and it ends
    with an explicit result for a registered identity. *)
Module PairSimple.
Import Pair.

Definition pairing_after_authState (sessionId : string) (r : Outcome AuthState) (w : World)
  : World * Resume :=
  match r with
  | Resolved state =>
      match makeWASocket state with
      | Resolved sock =>
          let w1 :=
            updateSession sessionId
              (mkUpdates (Some connecting) None None (Some sock)) w in
          let w2 := set_handlers (handlers w1 ++ [(sessionId, sock)]) w1 in
          if negb (registered state)
          then (w2, Suspended AwaitPairingCode)
          else (w2, Returned (Some (Failure "Already registered or unknown error")))
      | Rejected message => pairing_catch sessionId message w
      end
  | Rejected message => pairing_catch sessionId message w
  end.

End PairSimple.

Module Scenarios.
Import Pair.

Definition bytesA : list nat := [0; 1; 2; 3; 4; 5; 6; 7; 8; 9; 10; 11].
Definition sidA : string := "ABCDEFGHIJKL".
Definition sock7 : Socket := mkSocket (Some 7).
Definition w0 : World := init None None (Some "k") 1000.

Definition scenario_A : list Event :=
  [ Request (QString "923123456789") "10.0.0.1" "req-1" bytesA;
    EnsureDirDone "req-1" (Resolved tt);
    AuthStateDone "req-1" (Resolved (mkAuthState false (Resolved sock7)));
    PairingCodeDone "req-1" (Resolved "123-456") ].

(** The world after a sequence of events from [w0]. *)
Definition after (es : list Event) : World :=
  match run w0 es with
  | Some w => w
  | None => w0
  end.

Definition wA : World := after scenario_A.

(** The expiry timer of the session and an administrator's cleanup, both
    after an earlier cleanup. *)
Definition later_cleanups : list Event :=
  [ Tick 300000;
    TimerFired 0;
    Request (QString "923123456780") "10.0.0.2" "req-2" [20; 21; 22; 23; 24; 25; 26; 27; 28; 29; 30; 31];
    AdminCleanup (Some "k") (Some sidA) ].

(** A stand-in for the digest function, of the right output length. *)
Definition digest_stub (_ : string) : string :=
  "0000000000000000000000000000000000000000000000000000000000000000".

(** Four requests of one address with the default maximum of three. *)
Definition four_requests : list Event :=
  [ Request (QString "923123456781") "10.0.0.9" "r1" [1; 1; 1; 1; 1; 1; 1; 1; 1; 1; 1; 1];
    Request (QString "923123456782") "10.0.0.9" "r2" [2; 2; 2; 2; 2; 2; 2; 2; 2; 2; 2; 2];
    Request (QString "923123456783") "10.0.0.9" "r3" [3; 3; 3; 3; 3; 3; 3; 3; 3; 3; 3; 3];
    Request (QString "923123456784") "10.0.0.9" "r4" [4; 4; 4; 4; 4; 4; 4; 4; 4; 4; 4; 4] ].

(** The identity is unregistered, the socket is made, and the transport
    then closes with the logged-out code while the code request is
    pending. *)
Definition until_logged_out : list Event :=
  [ Request (QString "923123456789") "10.0.0.1" "req-1" bytesA;
    EnsureDirDone "req-1" (Resolved tt);
    AuthStateDone "req-1" (Resolved (mkAuthState false (Resolved sock7)));
    ConnectionUpdate sidA (ConnClose (Some (mkDisconnectError true "Connection Failure"))) ].

Definition code_request_fails : Event :=
  PairingCodeDone "req-1" (Rejected "Connection Closed").

(** The socket is made, and then neither a connection event nor an
    answer to the code request arrives before the timer. *)
Definition silent_session (dt : Z) : list Event :=
  [ Request (QString "923123456789") "10.0.0.1" "req-1" bytesA;
    EnsureDirDone "req-1" (Resolved tt);
    AuthStateDone "req-1" (Resolved (mkAuthState false (Resolved sock7)));
    Tick dt;
    TimerFired 0 ].

(** The credentials on disk are those of a registered identity. *)
Definition already_registered : list Event :=
  [ Request (QString "923123456789") "10.0.0.1" "req-1" bytesA;
    EnsureDirDone "req-1" (Resolved tt);
    AuthStateDone "req-1" (Resolved (mkAuthState true (Resolved sock7))) ].

End Scenarios.

(* ================================================================== *)
(** ** Notions used in the statements *)
(* ================================================================== *)

Module Notions.
Import GenId Pair.

(** A digit 1-9. *)
Definition country_code_digit (c : ascii) : bool :=
  let n := nat_of_ascii c in (49 <=? n)%nat && (n <=? 57)%nat.

Definition begins_with_country_code (s : string) : Prop :=
  exists d rest, s = String d rest /\ country_code_digit d = true.

(** The characters chosen for a buffer, one per byte. *)
Fixpoint picks (bytes : list nat) : string :=
  match bytes with
  | [] => EmptyString
  | b :: r => pick b ++ picks r
  end.

(** The identifier is not live and [n] records were written for it. *)
Definition retired (sessionId : string) (n : nat) (w : World) : Prop :=
  map_get sessionId (sessions w) = None /\
  writes_for sessionId (expiredFiles w) = n.

(** What a request must satisfy for an invariant to survive it. *)
Definition issues_only (fresh : string -> Prop) (e : Event) : Prop :=
  match e with
  | Request _ _ _ bytes => fresh (generateSessionId 12 bytes)
  | _ => True
  end.

(** No request of the sequence is issued the identifier again. *)
Definition never_reissued (sessionId : string) (es : list Event) : Prop :=
  Forall (issues_only (fun k => k <> sessionId)) es.

(** The number of entries of the registry whose session has the given
    address, counted entry by entry. *)
Fixpoint count_address (clientIP : string) (m : Map) : nat :=
  match m with
  | [] => 0%nat
  | (_, s) :: r =>
      ((if String.eqb (ip s) clientIP then 1 else 0) + count_address clientIP r)%nat
  end.

(** The number of live sessions of an address. *)
Definition live_count (clientIP : string) (w : World) : Z :=
  Z.of_nat (count_address clientIP (sessions w)).

Definition b2n (b : bool) : nat := if b then 1%nat else 0%nat.

(** Whether the value stored under [k] counts for the address. *)
Definition held_by (k clientIP : string) (m : Map) : nat :=
  match map_get k m with
  | Some s => b2n (String.eqb (ip s) clientIP)
  | None => 0%nat
  end.

(** The status in the record last archived for a session id. *)
Definition archived_status (sessionId : string) (w : World) : option string :=
  option_map (fun a => status_name (status (a_session a)))
             (archived sessionId (expiredFiles w)).

(** The identifier is not live and its archived record is [a]. *)
Definition archived_as (sessionId : string) (a : option Archived) (w : World) : Prop :=
  map_get sessionId (sessions w) = None /\
  archived sessionId (expiredFiles w) = a.

(** The number of live sessions with a given status. *)
Definition count_status (st : Status) (l : list Session) : nat :=
  List.length (filter (fun s => Status_eqb (status s) st) l).

(** [acc[st] || 0] *)
Definition counted (st : Status) (acc : list (Status * nat)) : nat :=
  match acc_get st acc with Some n => n | None => 0%nat end.

(** The first 16 characters of the SHA-256 hex digest of a phone number. *)
Definition digest_prefix (sha256_hex : string -> string) (phone : string) : string :=
  String.substring 0 16 (sha256_hex phone).

(** A session with its phone number replaced by the prefix of its digest. *)
Definition redact (sha256_hex : string -> string) (s : Session) : Session :=
  {| id := id s;
     ip := ip s;
     phone := digest_prefix sha256_hex (phone s);
     startedAt := startedAt s;
     status := status s;
     socket := socket s;
     pairingCode := pairingCode s;
     error := error s |}.

(** The summary computed from redacted sessions alone. *)
Definition entry_of_redacted (t : Z) (s : Session) : RecentEntry :=
  {| r_id := id s;
     r_phone := phone s;
     r_status := status s;
     r_age := ((t - startedAt s) / 1000)%Z |}.

Definition stats_of_redacted (t : Z) (l : list Session) : Stats :=
  {| total := List.length l;
     byStatus := fold_left tally l [];
     recent := map (entry_of_redacted t) (slice_last 5 l) |}.

(** What an entry of the sample shows of its session. *)
Definition shows (sha256_hex : string -> string) (t : Z) (e : RecentEntry) (s : Session)
  : Prop :=
  r_id e = id s /\
  r_phone e = digest_prefix sha256_hex (phone s) /\
  r_status e = status s /\
  r_age e = ((t - startedAt s) / 1000)%Z.


End Notions.

(* ================================================================== *)
(** ** gen-id.js: the pairing code *)
(* ================================================================== *)

Module PairingCode.
Import GenId.

(** The alphabet of [generatePairingCode]. *)
Definition digits : string := "0123456789".

(** [chars[b % chars.length]] over the ten digits. *)
Definition pick_digit (b : nat) : string :=
  match String.get (b mod String.length digits) digits with
  | Some c => String c EmptyString
  | None => "undefined"
  end.

(** [code += chars[bytes[i] % chars.length]] *)
Definition code_body (bytes : list nat) (code : string) (i : nat) : string :=
  match nth_error bytes i with
  | Some b => code ++ pick_digit b
  | None => code ++ "undefined"
  end.

(** [code.match(/.{1,3}/g)] for a string without line terminators: the
    string cut into groups of three, the last one shorter if need be; no
    match at all, the empty list here, is [null]. *)
Fixpoint groups_of_three (s : string) : list string :=
  match s with
  | String a (String b (String c r)) =>
      String a (String b (String c EmptyString)) :: groups_of_three r
  | EmptyString => []
  | short => [short]
  end.

(** [array.join(sep)] *)
Fixpoint join (sep : string) (l : list string) : string :=
  match l with
  | [] => EmptyString
  | [x] => x
  | x :: r => x ++ sep ++ join sep r
  end.

(** [generatePairingCode()], with [bytes] the buffer of [randomBytes(6)];
    [None] is the exception of calling [join] on [null]. *)
Definition generatePairingCode (bytes : list nat) : option string :=
  let code := fold_left (code_body bytes) (seq 0 6) EmptyString in
  match groups_of_three code with
  | [] => None
  | groups => Some (join "-" groups)
  end.

(** The digit character with value [b mod 10]. *)
Definition digit_of (b : nat) : ascii := ascii_of_nat (48 + b mod 10).

(** The number of byte values sent to a given digit. *)
Definition digit_preimages (c : string) : nat :=
  List.length (filter (fun b => String.eqb (pick_digit b) c) byte_values).

Definition digit_alphabet : list string :=
  map (fun c => String c EmptyString) (list_ascii_of_string digits).

End PairingCode.

(* ================================================================== *)
(** ** pair.js: the statistics route *)
(* ================================================================== *)

Module StatsRoute.
Import GenId Pair.

(** The body of [GET /stats], without the fields read from the process
    ([timestamp], [server]). *)
Inductive StatsBody :=
| StatsUnauthorized
| StatsReport (sessions : Stats) (limit_maxSessionsPerIP limit_sessionTimeout : Z).

(** [GET /stats?key=...], with [env_STATS_KEY] the value of
    [process.env.STATS_KEY]: the status and the body; the world is only
    read. *)
Definition route_stats (sha256_hex : string -> string) (env_STATS_KEY key : option string)
           (w : World) : Z * StatsBody :=
  if negb (option_string_eqb key env_STATS_KEY) then
    (403%Z, StatsUnauthorized)
  else
    (200%Z,
     StatsReport (getStats sha256_hex w)
       (maxSessionsPerIP (sessionManager w))
       (sessionTimeout (sessionManager w))).

End StatsRoute.

(* ================================================================== *)
(** ** Notions used in further statements *)
(* ================================================================== *)

Module Invariants.
Import GenId Pair.

(** Every entry of the registry is stored under the id of its session,
    and no id has two entries. *)
Definition keyed_by_id (w : World) : Prop :=
  NoDup (map fst (sessions w)) /\
  forall k s, In (k, s) (sessions w) -> id s = k.

(** A phone number that [validatePhoneNumber] returns unchanged. *)
Definition validated (p : string) : Prop := validatePhoneNumber p = Some p.

(** The phone of every live session and of every archived record is a
    validated number. *)
Definition phones_validated (w : World) : Prop :=
  (forall k s, In (k, s) (sessions w) -> validated (phone s)) /\
  (forall k a, In (k, a) (expiredFiles w) -> validated (phone (a_session a))).

(** Every live session has a pending cleanup timer that is due no later
    than the delay of its timer after the session started. *)
Definition timer_pending (w : World) : Prop :=
  forall sessionId s,
    map_get sessionId (sessions w) = Some s ->
    exists due,
      In (due, sessionId) (timers w) /\
      (due <= startedAt s + setTimeout_delay (sessionTimeout (sessionManager w)))%Z.

(** The request id that the body of a response to [GET /] carries; the
    responses of [POST /cleanup] carry none. *)
Definition body_requestId (b : Body) : option string :=
  match b with
  | PairIssued requestId _ _ _ _ _ => Some requestId
  | PairError requestId _ _ => Some requestId
  | AdminReply _ _ => None
  | Unauthorized => None
  end.

(** The responses sent so far that carry the request id. *)
Definition answers (requestId : string) (w : World) : nat :=
  List.length
    (filter (fun r => match body_requestId (body r) with
                      | Some rid => String.eqb rid requestId
                      | None => false
                      end)
       (responses w)).

(** The [GET /] handlers of the request id that are suspended. *)
Definition waiting (requestId : string) (w : World) : nat :=
  List.length (filter (fun t => String.eqb (t_requestId t) requestId) (tasks w)).

(** The responses of [POST /cleanup] sent so far. *)
Definition admin_answers (w : World) : nat :=
  List.length
    (filter (fun r => match body_requestId (body r) with
                      | Some _ => false
                      | None => true
                      end)
       (responses w)).

(** The two counts that the requests move: the answers and suspended
    handlers of a request id, and the answers of [POST /cleanup]. *)
Definition counts (requestId : string) (w : World) : nat * nat :=
  ((answers requestId w + waiting requestId w)%nat, admin_answers w).

Definition plus2 (c : nat * nat) (a b : nat) : nat * nat :=
  ((fst c + a)%nat, (snd c + b)%nat).

(** Whether the event is a request to [GET /] with the request id whose
    [number] parameter is a string or is absent. *)
Definition pair_request (requestId : string) (e : Event) : nat :=
  match e with
  | Request QOther _ _ _ => 0%nat
  | Request _ _ rid _ => if String.eqb rid requestId then 1%nat else 0%nat
  | _ => 0%nat
  end.

Definition pair_requests (requestId : string) (es : list Event) : nat :=
  list_sum (map (pair_request requestId) es).

(** Whether the event is a request to [GET /] with the request id whose
    [number] parameter is an array or an object. *)
Definition thrown_request (requestId : string) (e : Event) : bool :=
  match e with
  | Request QOther _ rid _ => String.eqb rid requestId
  | _ => false
  end.

(** Whether the event is a request to [POST /cleanup]. *)
Definition admin_request (e : Event) : nat :=
  match e with
  | AdminCleanup _ _ => 1%nat
  | _ => 0%nat
  end.

Definition admin_requests (es : list Event) : nat :=
  list_sum (map admin_request es).

(** The event is a failure of one of the calls that the pairing function
    makes before it requests a code: [fs.ensureDir],
    [useMultiFileAuthState] or [makeWASocket]. *)
Definition setup_failure (st : Stage) (requestId message : string) (e : Event) : Prop :=
  (st = AwaitEnsureDir /\ e = EnsureDirDone requestId (Rejected message)) \/
  (st = AwaitAuthState /\ e = AuthStateDone requestId (Rejected message)) \/
  (st = AwaitAuthState /\
   exists reg, e = AuthStateDone requestId (Resolved (mkAuthState reg (Rejected message)))).

(** The world that [POST /cleanup] cleans: nothing without a session id. *)
Definition cleaned_by_request (sessionId : option string) (w : World) : World :=
  match sessionId with
  | Some sid => if String.eqb sid EmptyString then w else cleanupSession sid w
  | None => w
  end.

(** The two numbers that the constructor reads from the environment. *)
Definition configured (timeout maximum : Z) (w : World) : Prop :=
  sessionTimeout (sessionManager w) = timeout /\
  maxSessionsPerIP (sessionManager w) = maximum.

(** The statuses that [pair.js] stores. *)
Definition pair_status (st : Status) : bool :=
  match st with
  | connecting => false
  | _ => true
  end.

(** The sum of the counts of a tally. *)
Definition tally_total (acc : list (Status * nat)) : nat :=
  list_sum (map snd acc).

(** The bytes of two buffers agree modulo the size of the alphabet. *)
Definition same_choices (b1 b2 : list nat) : Prop :=
  map (fun b => b mod 62) b1 = map (fun b => b mod 62) b2.

End Invariants.

(* ================================================================== *)
(** ** The simplified router: identifiers, registry and route *)
(* ================================================================== *)

Module SimpleRouter.
Import GenId Pair.

(** [s.charAt(k)]: the empty string out of range. *)
Definition charAt (k : nat) (s : string) : string :=
  match String.get k s with
  | Some c => String c EmptyString
  | None => EmptyString
  end.

(** [makeid(length)], with [draw i] the value of
    [Math.floor(Math.random() * chars.length)] in iteration [i]. *)
Definition makeid (length : nat) (draw : nat -> nat) : string :=
  fold_left (fun result i => result ++ charAt (draw i) chars) (seq 0 length) EmptyString.

(** [createSession(sessionId, phone, ip)]: the same session object, map
    entry and timer as in [pair.js], with the arguments in this order. *)
Definition createSession (sessionId phoneNumber clientIP : string) (w : World) : World :=
  Pair.createSession sessionId clientIP phoneNumber w.

(** [cleanupSession(sessionId)] of the simplified router: it closes the
    transport, removes the temporary directory and deletes the entry, and
    writes no record. *)
Definition cleanupSession (sessionId : string) (w : World) : World :=
  match map_get sessionId (sessions w) with
  | Some session =>
      let w1 := set_closed (closed w ++ socket_to_close session) w in
      let w2 :=
        if existsSync sessionId (tempDirs w1)
        then set_tempDirs (removeSync sessionId (tempDirs w1)) w1
        else w1 in
      set_sessions (map_delete sessionId (sessions w2)) w2
  | None => w
  end.

(** [!phoneNumber || phoneNumber.length < 10] *)
Definition rejects (phoneNumber : string) : bool :=
  String.eqb phoneNumber EmptyString || (String.length phoneNumber <? 10)%nat.

(** What its [initiateWhatsAppPairing] returns: [{success: true, code}]
    or [{success: false, error}]. *)
Inductive Result :=
| Issued (code : string)
| Failed (error : string).

(** After [await sock.requestPairingCode(phoneNumber)], with the inner
    [catch]. *)
Definition pairing_after_code (r : Outcome string) : Result :=
  match r with
  | Resolved pairingCode => Issued pairingCode
  | Rejected message => Failed (or_text message "Failed to generate pairing code")
  end.

Definition instructions_text : list string :=
  [ "1. Open WhatsApp on your phone";
    "2. Go to Settings > Linked Devices > Link a Device";
    "3. Enter the 6-digit code shown above";
    "4. Your session will be created automatically" ].

(** [GET /] after its first statement, up to the first [await]. *)
Definition route_pair_text (raw clientIP requestId : string)
           (draw : nat -> nat) (w : World) : World :=
  let phoneNumber := strip_non_digits raw in
  if rejects phoneNumber then
    respond 400
      (PairError requestId "VALIDATION_ERROR"
         "Please provide a valid phone number with country code (e.g., 923123456789)")
      w
  else
    let sessionId := makeid 8 draw in
    let w1 := createSession sessionId phoneNumber clientIP w in
    set_tasks (tasks w1 ++ [mkTask requestId sessionId phoneNumber AwaitEnsureDir]) w1.

(** [GET /] up to the first [await]; as in [pair.js], the first statement
    is outside the [try] and throws on an array or an object. *)
Definition route_pair (number : QueryValue) (clientIP requestId : string)
           (draw : nat -> nat) (w : World) : World :=
  match query_text number with
  | Some raw => route_pair_text raw clientIP requestId draw w
  | None => w
  end.

(** [GET /] after [await initiateWhatsAppPairing(...)]. *)
Definition route_pair_resume (t : Task) (pairingResult : Result) (w : World) : World :=
  match pairingResult with
  | Issued code =>
      respond 200
        (PairIssued (t_requestId t) code "Pairing code generated successfully"
           (t_sessionId t) "5 minutes" instructions_text)
        w
  | Failed err =>
      let w1 := cleanupSession (t_sessionId t) w in
      respond 500
        (PairError (t_requestId t) "PAIRING_FAILED"
           (or_text err "Failed to generate pairing code"))
        w1
  end.

End SimpleRouter.

(* ================================================================== *)
(** ** Sanity checks of the embedding *)
(* ================================================================== *)

Example validate_scenario_A :
  GenId.validatePhoneNumber "923123456789" = Some "923123456789".
Proof. reflexivity. Qed.

Example validate_scenario_B : GenId.validatePhoneNumber "123" = None.
Proof. reflexivity. Qed.

Example validate_strips :
  GenId.validatePhoneNumber "+92 (312) 345-6789" = Some "923123456789".
Proof. reflexivity. Qed.

Example validate_leading_zero : GenId.validatePhoneNumber "0923123456789" = None.
Proof. reflexivity. Qed.

Example sessionId_example :
  GenId.generateSessionId 12 [0; 61; 62; 255; 26; 52; 7; 8; 100; 200; 248; 247]
  = "A9AHa0HImOA9".
Proof. vm_compute. reflexivity. Qed.

Example scenario_B_rejected :
  Pair.step Scenarios.w0 (Pair.Request (Pair.QString "123") "10.0.0.1" "req-1" Scenarios.bytesA)
  = Some (Pair.respond 400
            (Pair.PairError "req-1" "VALIDATION_ERROR"
               "Invalid phone number format. Use format: 923123456789")
            Scenarios.w0).
Proof. vm_compute. reflexivity. Qed.

Example scenario_C_rate_limited :
  Pair.responses (Scenarios.after Scenarios.four_requests)
  = [Pair.mkResponse 429
       (Pair.PairError "r4" "RATE_LIMIT_EXCEEDED" "Maximum 3 sessions per IP allowed")]
  /\ List.length (Pair.sessions (Scenarios.after Scenarios.four_requests)) = 3%nat.
Proof. split; vm_compute; reflexivity. Qed.

Example timer_not_due :
  Pair.run Scenarios.w0 (Scenarios.silent_session 299999) = None.
Proof. vm_compute. reflexivity. Qed.

(* ================================================================== *)
(** ** Validator *)
(* ================================================================== *)

Module ValidatorProofs.
Import GenId Notions.

Lemma strip_is_filter : forall s,
  list_ascii_of_string (strip_non_digits s)
  = filter is_digit (list_ascii_of_string s).
Proof.
  induction s as [|c r IH]; simpl; [reflexivity|].
  destruct (is_digit c); simpl; now rewrite IH.
Qed.

Lemma strip_only_digits : forall s c,
  In c (list_ascii_of_string (strip_non_digits s)) -> is_digit c = true.
Proof.
  intros s c H. rewrite strip_is_filter in H.
  apply filter_In in H. tauto.
Qed.

Lemma startsWith_one_of_nine : forall d rest,
  (startsWith (String d rest) "1" || startsWith (String d rest) "2" ||
   startsWith (String d rest) "3" || startsWith (String d rest) "4" ||
   startsWith (String d rest) "5" || startsWith (String d rest) "6" ||
   startsWith (String d rest) "7" || startsWith (String d rest) "8" ||
   startsWith (String d rest) "9") = country_code_digit d.
Proof.
  intros d rest.
  destruct rest; destruct d as [[] [] [] [] [] [] [] []]; reflexivity.
Qed.

Lemma begins_dec : forall s,
  begins_with_country_code s <->
  match s with
  | EmptyString => False
  | String d _ => country_code_digit d = true
  end.
Proof.
  intros s; split.
  - intros (d & rest & -> & H). exact H.
  - destruct s as [|d rest]; [tauto|]. intros H. now exists d, rest.
Qed.

(** C7. [validatePhoneNumber] keeps exactly the digits of its input, in
    order; it rejects exactly when the digits-only string is empty, has
    fewer than 10 or more than 15 digits, or does not begin with a digit
    1-9; and when it accepts, its value is the digits-only string.  It is
    a function of its argument alone. *)
Theorem validatePhoneNumber_correct : forall phone : string,
  let cleaned := strip_non_digits phone in
  list_ascii_of_string cleaned = filter is_digit (list_ascii_of_string phone) /\
  (validatePhoneNumber phone = None <->
     cleaned = EmptyString \/
     (String.length cleaned < 10)%nat \/
     (15 < String.length cleaned)%nat \/
     ~ begins_with_country_code cleaned) /\
  (validatePhoneNumber phone <> None -> validatePhoneNumber phone = Some cleaned) /\
  (forall other, other = phone -> validatePhoneNumber other = validatePhoneNumber phone).
Proof.
  intros phone cleaned.
  split; [apply strip_is_filter|].
  split; [|split].
  - unfold validatePhoneNumber. fold cleaned.
    rewrite begins_dec.
    destruct cleaned as [|d rest] eqn:E.
    + simpl. split; auto.
    + rewrite startsWith_one_of_nine.
      change (String d rest =? EmptyString) with false. cbv iota.
      destruct (String.length (String d rest) <? 10)%nat eqn:Hlo.
      * apply Nat.ltb_lt in Hlo. simpl orb. cbv iota. split; auto.
      * apply Nat.ltb_ge in Hlo.
        destruct (15 <? String.length (String d rest))%nat eqn:Hhi.
        -- apply Nat.ltb_lt in Hhi. simpl orb. cbv iota. split; auto.
        -- apply Nat.ltb_ge in Hhi. simpl orb. cbv iota.
           destruct (country_code_digit d) eqn:Hd.
           ++ split; [discriminate|].
              intros [H|[H|[H|H]]]; try discriminate; try lia;
                try (exfalso; apply H; reflexivity).
           ++ split; [intros _; right; right; right; discriminate | reflexivity].
  - unfold validatePhoneNumber. fold cleaned.
    destruct (cleaned =? EmptyString); [congruence|].
    destruct ((String.length cleaned <? 10)%nat || (15 <? String.length cleaned)%nat);
      [congruence|].
    match goal with |- context [if ?b then _ else _] => destruct b end; congruence.
  - intros other ->. reflexivity.
Qed.

Lemma validatePhoneNumber_correct_witness :
  validatePhoneNumber "+92 (312) 345-6789" = Some "923123456789".
Proof.
  destruct (validatePhoneNumber_correct "+92 (312) 345-6789") as (_ & _ & H & _).
  apply H. vm_compute. discriminate.
Defined.

End ValidatorProofs.

(* ================================================================== *)
(** ** Identifier issuer *)
(* ================================================================== *)

Module IssuerProofs.
Import GenId Notions.

Lemma get_in_range : forall (s : string) (k : nat),
  (k < String.length s)%nat -> exists c, String.get k s = Some c.
Proof.
  induction s as [|a r IH]; simpl; intros k Hk; [lia|].
  destruct k as [|k]; [now exists a|].
  apply IH. lia.
Qed.

Lemma get_member : forall (s : string) (k : nat) (c : ascii),
  String.get k s = Some c -> In c (list_ascii_of_string s).
Proof.
  induction s as [|a r IH]; simpl; intros k c H; [discriminate|].
  destruct k as [|k].
  - injection H as ->. now left.
  - right. eapply IH; eauto.
Qed.

(** Every byte value is sent to one character of the alphabet. *)
Lemma pick_char : forall b : nat,
  exists c, String.get (b mod 62) chars = Some c /\
            pick b = String c EmptyString /\
            In (String c EmptyString) alphabet.
Proof.
  intros b.
  destruct (get_in_range chars (b mod 62)) as [c Hc].
  { change (String.length chars) with 62%nat. apply Nat.mod_upper_bound. lia. }
  exists c. split; [exact Hc|]. split.
  - unfold pick. change (String.length chars) with 62%nat. now rewrite Hc.
  - unfold alphabet.
    apply (in_map (fun a => String a EmptyString)).
    eapply get_member; eauto.
Qed.

Lemma append_assoc : forall a b c : string, ((a ++ b) ++ c = a ++ (b ++ c))%string.
Proof.
  induction a as [|x a IH]; simpl; intros; [reflexivity|]. now rewrite IH.
Qed.

Lemma append_empty_r : forall a : string, (a ++ EmptyString)%string = a.
Proof.
  induction a as [|x a IH]; simpl; [reflexivity|]. now rewrite IH.
Qed.

(** The loop over [i = 0 .. length-1] reads each byte of the buffer once,
    in order. *)
Lemma loop_reads_buffer : forall (bytes pre : list nat) (acc : string),
  fold_left (loop_body (pre ++ bytes)%list)
            (seq (List.length pre) (List.length bytes)) acc
  = (acc ++ picks bytes)%string.
Proof.
  induction bytes as [|b r IH]; intros pre acc; simpl.
  - now rewrite append_empty_r.
  - unfold loop_body at 2.
    rewrite nth_error_app2 by lia.
    rewrite Nat.sub_diag. simpl nth_error.
    replace (pre ++ b :: r)%list with ((pre ++ [b]) ++ r)%list
      by now rewrite <- app_assoc.
    replace (S (List.length pre)) with (List.length (pre ++ [b])%list)
      by (rewrite length_app; simpl; lia).
    rewrite IH. now rewrite append_assoc.
Qed.

Lemma generateSessionId_picks : forall bytes : list nat,
  generateSessionId (List.length bytes) bytes = picks bytes.
Proof.
  intros bytes. unfold generateSessionId.
  exact (loop_reads_buffer bytes [] EmptyString).
Qed.

Lemma picks_length : forall bytes, String.length (picks bytes) = List.length bytes.
Proof.
  induction bytes as [|b r IH]; simpl; [reflexivity|].
  destruct (pick_char b) as (c & _ & -> & _). simpl. now rewrite IH.
Qed.

Lemma picks_get : forall bytes i b,
  nth_error bytes i = Some b ->
  String.get i (picks bytes) = String.get (b mod 62) chars.
Proof.
  induction bytes as [|b0 r IH]; intros i b H.
  - destruct i; discriminate.
  - simpl. destruct (pick_char b0) as (c & Hc & -> & _).
    destruct i as [|i]; simpl in *.
    + injection H as <-. now rewrite Hc.
    + now apply IH.
Qed.

Lemma picks_alphabet : forall bytes i c,
  String.get i (picks bytes) = Some c -> In (String c EmptyString) alphabet.
Proof.
  induction bytes as [|b0 r IH]; intros i c H.
  - destruct i; discriminate.
  - simpl in H. destruct (pick_char b0) as (c0 & _ & E & Hin). rewrite E in H.
    destruct i as [|i]; simpl in H.
    + injection H as <-. exact Hin.
    + eapply IH; eauto.
Qed.

(** C8, as the code has it. [generateSessionId(length)] returns [length]
    characters, the i-th being [chars[bytes[i] % 62]] of the random buffer,
    all from the 62-character alphabet; of the 256 byte values, five are
    sent to each of the first eight characters (A to H) and four to each
    of the other 54. *)
Theorem generateSessionId_shape : forall (length : nat) (bytes : list nat),
  List.length bytes = length ->
  String.length (generateSessionId length bytes) = length /\
  (forall i b, nth_error bytes i = Some b ->
     String.get i (generateSessionId length bytes) = String.get (b mod 62) chars) /\
  (forall i c, String.get i (generateSessionId length bytes) = Some c ->
     In (String c EmptyString) alphabet) /\
  List.length alphabet = 62%nat /\
  map preimages alphabet = (repeat 5%nat 8 ++ repeat 4%nat 54)%list.
Proof.
  intros length bytes <-.
  rewrite generateSessionId_picks.
  split; [apply picks_length|].
  split; [apply picks_get|].
  split; [apply picks_alphabet|].
  split; vm_compute; reflexivity.
Qed.

Lemma generateSessionId_shape_witness :
  String.length
    (generateSessionId 12 [0; 61; 62; 255; 26; 52; 7; 8; 100; 200; 248; 247]) = 12%nat.
Proof.
  apply (generateSessionId_shape 12 [0; 61; 62; 255; 26; 52; 7; 8; 100; 200; 248; 247]).
  reflexivity.
Defined.

(** C8 as stated fails: the byte values do not spread evenly over the
    alphabet, ["A"] is chosen by five of them and ["I"] by four. *)
Lemma sessionId_characters_not_uniform :
  ~ (forall c1 c2 : string,
       In c1 alphabet -> In c2 alphabet -> preimages c1 = preimages c2).
Proof.
  intros H.
  assert (E : preimages "A" = preimages "I").
  { apply H; unfold alphabet; simpl; auto 20. }
  vm_compute in E. discriminate.
Qed.

End IssuerProofs.

(* ================================================================== *)
(** ** The registry *)
(* ================================================================== *)

Module RegistryProofs.
Import GenId Pair Notions.
#[local] Open Scope list_scope.

Lemma map_get_delete_same : forall k m, map_get k (map_delete k m) = None.
Proof.
  intros k m. induction m as [|[k' v] r IH]; simpl; [reflexivity|].
  destruct (String.eqb k k') eqn:E; simpl; [exact IH|].
  now rewrite E.
Qed.

Lemma map_get_delete_other : forall k k' m,
  k <> k' -> map_get k (map_delete k' m) = map_get k m.
Proof.
  intros k k' m Hne. induction m as [|[k0 v] r IH]; simpl; [reflexivity|].
  destruct (String.eqb k' k0) eqn:E; simpl.
  - apply String.eqb_eq in E. subst k0.
    apply String.eqb_neq in Hne. now rewrite Hne.
  - now rewrite IH.
Qed.

Lemma map_delete_absent : forall k m, map_get k m = None -> map_delete k m = m.
Proof.
  intros k m. induction m as [|[k' v] r IH]; simpl; [reflexivity|].
  destruct (String.eqb k k') eqn:E; simpl; [discriminate|].
  intros H. now rewrite IH.
Qed.

Lemma map_get_set_same : forall k v m, map_get k (map_set k v m) = Some v.
Proof.
  intros k v m. induction m as [|[k' v'] r IH]; simpl.
  - now rewrite String.eqb_refl.
  - destruct (String.eqb k k') eqn:E; simpl.
    + now rewrite String.eqb_refl.
    + now rewrite E.
Qed.

Lemma map_get_set_other : forall k k' v m,
  k <> k' -> map_get k (map_set k' v m) = map_get k m.
Proof.
  intros k k' v m Hne. apply String.eqb_neq in Hne.
  induction m as [|[k0 v0] r IH]; simpl.
  - now rewrite Hne.
  - destruct (String.eqb k' k0) eqn:E; simpl.
    + apply String.eqb_eq in E. subst k0. now rewrite Hne.
    + now rewrite IH.
Qed.

(** *** What [cleanupSession] does to each part of the world *)

Lemma cleanup_absent : forall sessionId w,
  map_get sessionId (sessions w) = None -> cleanupSession sessionId w = w.
Proof.
  intros sessionId w H. unfold cleanupSession. now rewrite H.
Qed.

Lemma cleanup_sessions : forall sessionId w,
  sessions (cleanupSession sessionId w) = map_delete sessionId (sessions w).
Proof.
  intros sessionId w. unfold cleanupSession.
  destruct (map_get sessionId (sessions w)) eqn:E.
  - destruct (existsSync sessionId (tempDirs (set_closed _ w))); reflexivity.
  - now rewrite map_delete_absent.
Qed.

Lemma cleanup_manager_config : forall sessionId w,
  sessionTimeout (sessionManager (cleanupSession sessionId w))
    = sessionTimeout (sessionManager w) /\
  maxSessionsPerIP (sessionManager (cleanupSession sessionId w))
    = maxSessionsPerIP (sessionManager w).
Proof.
  intros sessionId w. unfold cleanupSession.
  destruct (map_get sessionId (sessions w)); [|now split].
  destruct (existsSync sessionId (tempDirs (set_closed _ w))); now split.
Qed.

Lemma removeSync_gone : forall sessionId dirs,
  existsSync sessionId (removeSync sessionId dirs) = false.
Proof.
  intros sessionId dirs. unfold existsSync, removeSync.
  induction dirs as [|d r IH]; simpl; [reflexivity|].
  destruct (String.eqb sessionId d) eqn:E; simpl; [exact IH|].
  now rewrite E.
Qed.

Lemma cleanup_live : forall sessionId w session,
  map_get sessionId (sessions w) = Some session ->
  let w1 := cleanupSession sessionId w in
  closed w1 = closed w ++ socket_to_close session /\
  existsSync sessionId (tempDirs w1) = false /\
  map_get sessionId (sessions w1) = None /\
  expiredFiles w1 =
    expiredFiles w ++
      [(sessionId,
        {| a_session := session;
           endedAt := now w;
           duration := (now w - startedAt session)%Z |})].
Proof.
  intros sessionId w session H w1.
  assert (Hs : map_get sessionId (sessions w1) = None).
  { unfold w1. rewrite cleanup_sessions. apply map_get_delete_same. }
  unfold w1, cleanupSession in *. rewrite H in *.
  destruct (existsSync sessionId (tempDirs (set_closed _ w))) eqn:E; simpl in *.
  - repeat split; auto. apply removeSync_gone.
  - repeat split; auto.
Qed.

Lemma closing_cases : forall session,
  (forall sock h, socket session = Some sock -> ws sock = Some h ->
     socket_to_close session = [h]) /\
  (socket session = None -> socket_to_close session = []) /\
  (forall sock, socket session = Some sock -> ws sock = None ->
     socket_to_close session = []).
Proof.
  intros session. unfold socket_to_close.
  split; [|split].
  - intros sock h -> ->. reflexivity.
  - intros ->. reflexivity.
  - intros sock -> ->. reflexivity.
Qed.

Lemma existsSync_In : forall sessionId dirs,
  existsSync sessionId dirs = false -> ~ In sessionId dirs.
Proof.
  intros sessionId dirs H Hin. unfold existsSync in H.
  assert (T : existsb (String.eqb sessionId) dirs = true).
  { apply existsb_exists. exists sessionId. split; [exact Hin|apply String.eqb_refl]. }
  congruence.
Qed.

Lemma removeSync_In : forall sessionId d dirs,
  d <> sessionId -> (In d (removeSync sessionId dirs) <-> In d dirs).
Proof.
  intros sessionId d dirs Hne. unfold removeSync. rewrite filter_In.
  split; [tauto|]. intros H. split; [exact H|].
  apply Bool.negb_true_iff. apply String.eqb_neq. congruence.
Qed.

(** The closed transports and the temporary directories after a cleanup,
    in terms of the session's fields and of membership. *)
Lemma closing_and_dirs : forall session (sessionId : string) (cl cl' : list WebSocket)
                                (dirs dirs' : list string),
  cl' = cl ++ socket_to_close session ->
  existsSync sessionId dirs' = false ->
  dirs' = dirs \/ dirs' = removeSync sessionId dirs ->
  (forall sock h, socket session = Some sock -> ws sock = Some h -> cl' = cl ++ [h]) /\
  (socket session = None -> cl' = cl) /\
  (forall sock, socket session = Some sock -> ws sock = None -> cl' = cl) /\
  ~ In sessionId dirs' /\
  (forall d, d <> sessionId -> (In d dirs' <-> In d dirs)).
Proof.
  intros session sessionId cl cl' dirs dirs' Hc He Hd.
  destruct (closing_cases session) as (C1 & C2 & C3).
  split; [intros sock h Hs Hw; now rewrite Hc, (C1 sock h Hs Hw)|].
  split; [intros Hs; now rewrite Hc, (C2 Hs), app_nil_r|].
  split; [intros sock Hs Hw; now rewrite Hc, (C3 sock Hs Hw), app_nil_r|].
  split; [now apply existsSync_In|].
  intros d Hne. destruct Hd as [->| ->]; [tauto|now apply removeSync_In].
Qed.

Lemma cleanup_dirs : forall sessionId w,
  tempDirs (cleanupSession sessionId w) = tempDirs w \/
  tempDirs (cleanupSession sessionId w) = removeSync sessionId (tempDirs w).
Proof.
  intros sessionId w. unfold cleanupSession.
  destruct (map_get sessionId (sessions w)); [|now left].
  destruct (existsSync sessionId (tempDirs (set_closed _ w))); [right|left]; reflexivity.
Qed.

Lemma cleanup_twice : forall sessionId w,
  cleanupSession sessionId (cleanupSession sessionId w) = cleanupSession sessionId w.
Proof.
  intros sessionId w. apply cleanup_absent.
  rewrite cleanup_sessions. apply map_get_delete_same.
Qed.

(** *** Invariants of the event loop

    A property of the registry and of the archive that the three
    operations of the session manager preserve is preserved by every
    step: the routes and handlers touch the registry through these
    operations only. *)

Section StepInvariant.

Variable P : World -> Prop.
Variable fresh : string -> Prop.

Hypothesis P_frame : forall w w',
  sessionManager w' = sessionManager w ->
  expiredFiles w' = expiredFiles w ->
  P w -> P w'.

Hypothesis P_update : forall k u w, P w -> P (updateSession k u w).

Hypothesis P_cleanup : forall k w, P w -> P (cleanupSession k w).

Hypothesis P_create : forall k clientIP validatedPhone w,
  fresh k ->
  canCreateSession clientIP (sessionManager w) = true ->
  P w -> P (createSession k clientIP validatedPhone w).

Ltac framed :=
  match goal with
  | |- P (?f _ ?w) => apply (P_frame w); [reflexivity | reflexivity | ]
  | |- P (?f _ _ ?w) => apply (P_frame w); [reflexivity | reflexivity | ]
  end.

Lemma pairing_catch_preserves : forall sessionId message w,
  P w -> P (fst (pairing_catch sessionId message w)).
Proof.
  intros sessionId message w H. unfold pairing_catch; simpl.
  destruct (existsSync sessionId (tempDirs w)); [framed|]; exact H.
Qed.

Lemma route_pair_resume_preserves : forall t r w,
  P w -> P (route_pair_resume t r w).
Proof.
  intros t r w H. unfold route_pair_resume.
  destruct r as [[code message|err]|]; framed; auto.
Qed.

Lemma continue_pair_preserves : forall t wr,
  P (fst wr) -> P (continue_pair t wr).
Proof.
  intros t [w r] H. unfold continue_pair; simpl in *.
  destruct r as [st|r]; [framed; exact H|].
  now apply route_pair_resume_preserves.
Qed.

Lemma pairing_after_ensureDir_preserves : forall sessionId r w,
  P w -> P (fst (pairing_after_ensureDir sessionId r w)).
Proof.
  intros sessionId r w H. unfold pairing_after_ensureDir.
  destruct r as [u|message]; [|now apply pairing_catch_preserves].
  simpl. destruct (existsSync sessionId (tempDirs w)); [|framed]; exact H.
Qed.

Lemma pairing_after_authState_preserves : forall sessionId r w,
  P w -> P (fst (pairing_after_authState sessionId r w)).
Proof.
  intros sessionId r w H. unfold pairing_after_authState.
  destruct r as [state|message]; [|now apply pairing_catch_preserves].
  destruct (makeWASocket state) as [sock|message];
    [|now apply pairing_catch_preserves].
  destruct (negb (registered state)); simpl; framed; auto.
Qed.

Lemma pairing_after_code_preserves : forall r w,
  P w -> P (fst (pairing_after_code r w)).
Proof.
  intros r w H. unfold pairing_after_code. destruct r; exact H.
Qed.

Lemma route_pair_preserves : forall number clientIP requestId bytes w,
  fresh (generateSessionId 12 bytes) ->
  P w -> P (route_pair number clientIP requestId bytes w).
Proof.
  intros number clientIP requestId bytes w Hf H. unfold route_pair.
  destruct (query_text number) as [raw|]; [|exact H].
  unfold route_pair_text.
  destruct (String.eqb _ EmptyString); [framed; exact H|].
  destruct (validatePhoneNumber _) as [validatedPhone|]; [|framed; exact H].
  destruct (canCreateSession clientIP (sessionManager w)) eqn:Hcap; simpl;
    [|framed; exact H].
  framed. now apply P_create.
Qed.

Lemma on_connection_update_preserves : forall sessionId sock u w,
  P w -> P (on_connection_update sessionId sock u w).
Proof.
  intros sessionId sock u w H. unfold on_connection_update.
  destruct u as [|[e|]|]; auto.
  - framed; auto.
  - destruct (isLoggedOut e); auto.
Qed.

Lemma on_open_tail_preserves : forall sessionId sock c w,
  P w -> P (on_open_tail sessionId sock c w).
Proof.
  intros sessionId sock c w H. unfold on_open_tail.
  framed. destruct (ws sock); [destruct c|]; try exact H. framed; exact H.
Qed.

Lemma route_cleanup_preserves : forall key sessionId w,
  P w -> P (route_cleanup key sessionId w).
Proof.
  intros key sessionId w H. unfold route_cleanup.
  destruct (negb _); [framed; exact H|].
  destruct sessionId as [sid|]; [|framed; exact H].
  destruct (String.eqb sid EmptyString); framed; auto.
Qed.

Lemma resume_task_preserves : forall requestId st k w w',
  (forall t w0, P w0 -> P (fst (k t w0))) ->
  resume_task requestId st k w = Some w' ->
  P w -> P w'.
Proof.
  intros requestId st k w w' Hk Hr H. unfold resume_task in Hr.
  destruct (take_task requestId (tasks w)) as [[t rest]|]; [|discriminate].
  destruct (Stage_eqb (t_stage t) st); [|discriminate].
  injection Hr as <-.
  apply continue_pair_preserves, Hk. framed; exact H.
Qed.

Lemma step_preserves : forall w e w',
  issues_only fresh e -> step w e = Some w' -> P w -> P w'.
Proof.
  intros w e w' He Hs H.
  destruct e as [number clientIP requestId bytes | requestId r | requestId r
                | requestId r | sessionId u | sessionId c | k | dt
                | key sessionId]; simpl in Hs.
  - injection Hs as <-. now apply route_pair_preserves.
  - eapply resume_task_preserves; [|exact Hs|exact H].
    intros t w0. apply pairing_after_ensureDir_preserves.
  - eapply resume_task_preserves; [|exact Hs|exact H].
    intros t w0. apply pairing_after_authState_preserves.
  - eapply resume_task_preserves; [|exact Hs|exact H].
    intros t w0. apply pairing_after_code_preserves.
  - destruct (find_sock sessionId (handlers w)) as [sock|]; [|discriminate].
    injection Hs as <-. now apply on_connection_update_preserves.
  - destruct (find_sock sessionId (tails w)) as [sock|]; [|discriminate].
    injection Hs as <-. apply on_open_tail_preserves. framed; exact H.
  - destruct (nth_error (timers w) k) as [[due sessionId]|]; [|discriminate].
    destruct (due <=? now w)%Z; [|discriminate].
    injection Hs as <-. apply P_cleanup. framed; exact H.
  - destruct (0 <=? dt)%Z; [|discriminate].
    injection Hs as <-. framed; exact H.
  - injection Hs as <-. now apply route_cleanup_preserves.
Qed.

Lemma run_preserves : forall es w w',
  Forall (issues_only fresh) es -> run w es = Some w' -> P w -> P w'.
Proof.
  induction es as [|e r IH]; intros w w' Hall Hr H; simpl in Hr.
  - now injection Hr as <-.
  - inversion Hall as [|? ? He Hrest]; subst.
    destruct (step w e) as [w1|] eqn:Hs; [|discriminate].
    eapply IH; eauto. eapply step_preserves; eauto.
Qed.

End StepInvariant.

(** *** Cleanup is idempotent *)

Lemma retired_frame : forall sessionId n w w',
  sessionManager w' = sessionManager w ->
  expiredFiles w' = expiredFiles w ->
  retired sessionId n w -> retired sessionId n w'.
Proof.
  unfold retired, sessions. intros sessionId n w w' -> ->. tauto.
Qed.

Lemma update_absent : forall k u w,
  map_get k (sessions w) = None -> updateSession k u w = w.
Proof.
  intros k u w H. unfold updateSession. now rewrite H.
Qed.

Lemma retired_update : forall sessionId n k u w,
  retired sessionId n w -> retired sessionId n (updateSession k u w).
Proof.
  intros sessionId n k u w [Hs Hw]. unfold updateSession.
  destruct (map_get k (sessions w)) as [session|] eqn:E; [|now split].
  split; [|exact Hw].
  change (sessions (set_sessions ?m w)) with m.
  destruct (String.eqb_spec sessionId k) as [->|Hne]; [congruence|].
  now rewrite map_get_set_other.
Qed.

Lemma writes_for_app : forall sessionId a b,
  writes_for sessionId (a ++ b) = (writes_for sessionId a + writes_for sessionId b)%nat.
Proof.
  intros. unfold writes_for. now rewrite filter_app, length_app.
Qed.

Lemma retired_cleanup : forall sessionId n k w,
  retired sessionId n w -> retired sessionId n (cleanupSession k w).
Proof.
  intros sessionId n k w [Hs Hw].
  destruct (map_get k (sessions w)) as [session|] eqn:E.
  - destruct (cleanup_live k w session E) as (_ & _ & _ & Hf).
    assert (Hne : sessionId <> k) by congruence.
    split.
    + rewrite cleanup_sessions. now rewrite map_get_delete_other.
    + rewrite Hf, writes_for_app, Hw. unfold writes_for; simpl.
      apply String.eqb_neq in Hne. rewrite Hne. simpl. lia.
  - rewrite cleanup_absent by exact E. now split.
Qed.

Lemma retired_create : forall sessionId n k clientIP validatedPhone w,
  k <> sessionId ->
  retired sessionId n w ->
  retired sessionId n (createSession k clientIP validatedPhone w).
Proof.
  intros sessionId n k clientIP validatedPhone w Hne [Hs Hw].
  split; [|exact Hw].
  unfold createSession.
  change (sessions (set_timers ?t (set_sessions ?m w))) with m.
  rewrite map_get_set_other by congruence. exact Hs.
Qed.

Lemma retired_run : forall sessionId n es w w',
  never_reissued sessionId es ->
  run w es = Some w' ->
  retired sessionId n w -> retired sessionId n w'.
Proof.
  intros sessionId n es w w' Hes.
  apply (run_preserves (retired sessionId n) (fun k => k <> sessionId)); auto.
  - apply retired_frame.
  - intros; now apply retired_update.
  - intros; now apply retired_cleanup.
  - intros; now apply retired_create.
Qed.

(** C1. The first [cleanupSession] of a live session calls [close] on the
    transport of its socket, once, if the session has a socket with a
    transport, and on nothing otherwise; it leaves no temporary directory
    for the session and keeps those of the others; it removes the session
    from the live set and keeps the others; and it writes one record for
    it.  A second call right after it changes nothing; and after any
    events in between that do not issue the identifier anew, a further
    call still changes nothing and no further record has been written for
    it. *)
Theorem cleanupSession_idempotent : forall (sessionId : string) (w : World),
  let w1 := cleanupSession sessionId w in
  (forall session, map_get sessionId (sessions w) = Some session ->
     (forall sock h, socket session = Some sock -> ws sock = Some h ->
        closed w1 = closed w ++ [h]) /\
     (socket session = None -> closed w1 = closed w) /\
     (forall sock, socket session = Some sock -> ws sock = None ->
        closed w1 = closed w) /\
     ~ In sessionId (tempDirs w1) /\
     (forall d, d <> sessionId -> (In d (tempDirs w1) <-> In d (tempDirs w))) /\
     map_get sessionId (sessions w1) = None /\
     (forall k, k <> sessionId -> map_get k (sessions w1) = map_get k (sessions w)) /\
     expiredFiles w1 =
       expiredFiles w ++
         [(sessionId,
           {| a_session := session;
              endedAt := now w;
              duration := (now w - startedAt session)%Z |})] /\
     writes_for sessionId (expiredFiles w1)
       = S (writes_for sessionId (expiredFiles w))) /\
  cleanupSession sessionId w1 = w1 /\
  (forall es w2,
     run w1 es = Some w2 ->
     never_reissued sessionId es ->
     cleanupSession sessionId w2 = w2 /\
     map_get sessionId (sessions w2) = None /\
     writes_for sessionId (expiredFiles w2)
       = writes_for sessionId (expiredFiles w1)).
Proof.
  intros sessionId w w1. split; [|split].
  - intros session H.
    destruct (cleanup_live sessionId w session H) as (Hc & Ht & Hs & Hf).
    destruct (closing_and_dirs session sessionId (closed w) (closed w1)
                (tempDirs w) (tempDirs w1) Hc Ht (cleanup_dirs sessionId w))
      as (C1 & C2 & C3 & D1 & D2).
    split; [exact C1|]. split; [exact C2|]. split; [exact C3|].
    split; [exact D1|]. split; [exact D2|]. split; [exact Hs|].
    split.
    { intros k Hne. unfold w1. rewrite cleanup_sessions.
      now apply map_get_delete_other. }
    split; [exact Hf|].
    unfold w1. rewrite Hf, writes_for_app. unfold writes_for at 2; simpl.
    rewrite String.eqb_refl. simpl. lia.
  - apply cleanup_twice.
  - intros es w2 Hr Hes.
    assert (R : retired sessionId (writes_for sessionId (expiredFiles w1)) w2).
    { eapply retired_run; eauto. split; [|reflexivity].
      unfold w1. rewrite cleanup_sessions. apply map_get_delete_same. }
    destruct R as [Hs Hw].
    split; [now apply cleanup_absent|]. now split.
Qed.

Lemma cleanupSession_idempotent_witness :
  In Scenarios.sidA (tempDirs Scenarios.wA) /\
  closed Scenarios.wA = [] /\
  closed (cleanupSession Scenarios.sidA Scenarios.wA) = [7%nat] /\
  ~ In Scenarios.sidA (tempDirs (cleanupSession Scenarios.sidA Scenarios.wA)) /\
  map_get Scenarios.sidA (sessions (cleanupSession Scenarios.sidA Scenarios.wA)) = None /\
  writes_for Scenarios.sidA (expiredFiles (cleanupSession Scenarios.sidA Scenarios.wA))
    = 1%nat /\
  exists w2,
    run (cleanupSession Scenarios.sidA Scenarios.wA) Scenarios.later_cleanups = Some w2 /\
    cleanupSession Scenarios.sidA w2 = w2 /\
    map_get Scenarios.sidA (sessions w2) = None /\
    writes_for Scenarios.sidA (expiredFiles w2) = 1%nat.
Proof.
  destruct (cleanupSession_idempotent Scenarios.sidA Scenarios.wA) as (Hfirst & _ & H).
  destruct (Hfirst (mkSession Scenarios.sidA "10.0.0.1" "923123456789" 1000
                      paired (Some Scenarios.sock7) (Some "123-456"%string) None))
    as (C1 & _ & _ & D1 & _ & Hs & _ & _ & Hw);
    [vm_compute; reflexivity|].
  split; [vm_compute; auto|].
  split; [vm_compute; reflexivity|].
  split; [exact (C1 Scenarios.sock7 7%nat eq_refl eq_refl)|].
  split; [exact D1|]. split; [exact Hs|].
  split; [rewrite Hw; vm_compute; reflexivity|].
  destruct (run (cleanupSession Scenarios.sidA Scenarios.wA) Scenarios.later_cleanups)
    as [w2|] eqn:Hr; [|vm_compute in Hr; discriminate].
  exists w2. split; [reflexivity|].
  destruct (H Scenarios.later_cleanups w2 Hr) as (H1 & H2 & H3).
  - repeat constructor. vm_compute. discriminate.
  - split; [exact H1|]. split; [exact H2|]. rewrite H3. vm_compute. reflexivity.
Defined.

(** C10. For an identifier that is not in the live set, whether or not a
    session ever had it, [cleanupSession] returns normally and leaves the
    whole world as it was: live set, archive, temporary directories and
    closed connections; the cleanup endpoint given such an identifier
    only sends its response. *)
Theorem cleanupSession_unknown_id : forall (sessionId : string) (w : World),
  map_get sessionId (sessions w) = None ->
  cleanupSession sessionId w = w /\
  forall key, exists n b, route_cleanup key (Some sessionId) w = respond n b w.
Proof.
  intros sessionId w H. split; [now apply cleanup_absent|].
  intros key. unfold route_cleanup.
  destruct (negb _); [now eexists; eexists|].
  destruct (String.eqb sessionId EmptyString); [now eexists; eexists|].
  rewrite cleanup_absent by exact H. now eexists; eexists.
Qed.

Lemma cleanupSession_unknown_id_witness :
  cleanupSession "no-such-id" Scenarios.wA = Scenarios.wA.
Proof.
  apply (cleanupSession_unknown_id "no-such-id" Scenarios.wA).
  vm_compute. reflexivity.
Defined.

(** *** The capacity of an address *)

(** [Map.set] adds the new value to the sessions of its address and takes
    away the value it replaces, if any. *)
Lemma userSessions_set : forall clientIP k v m,
  (List.length (userSessions clientIP (map_set k v m)) + held_by k clientIP m
   = List.length (userSessions clientIP m) + b2n (String.eqb (ip v) clientIP))%nat.
Proof.
  intros clientIP k v m. unfold held_by, userSessions, map_values.
  induction m as [|[k' v'] r IH]; simpl.
  - destruct (String.eqb (ip v) clientIP); simpl; lia.
  - destruct (String.eqb k k') eqn:E; simpl.
    + destruct (String.eqb (ip v) clientIP), (String.eqb (ip v') clientIP);
        simpl; lia.
    + destruct (String.eqb (ip v') clientIP); simpl; lia.
Qed.

Lemma userSessions_delete : forall clientIP k m,
  (List.length (userSessions clientIP (map_delete k m))
   <= List.length (userSessions clientIP m))%nat.
Proof.
  intros clientIP k m. unfold userSessions, map_values, map_delete.
  induction m as [|[k' v'] r IH]; simpl; [lia|].
  destruct (String.eqb k k'); simpl;
    destruct (String.eqb (ip v') clientIP); simpl; lia.
Qed.

(** The filter of [canCreateSession] finds as many sessions as the
    registry has entries for the address. *)
Lemma userSessions_counted : forall clientIP m,
  List.length (userSessions clientIP m) = count_address clientIP m.
Proof.
  intros clientIP m. unfold userSessions, map_values.
  induction m as [|[k v] r IH]; simpl; [reflexivity|].
  destruct (String.eqb (ip v) clientIP); simpl; now rewrite IH.
Qed.

Lemma count_address_set : forall clientIP k v m,
  (count_address clientIP (map_set k v m) + held_by k clientIP m
   = count_address clientIP m + b2n (String.eqb (ip v) clientIP))%nat.
Proof.
  intros. rewrite <- !userSessions_counted. apply userSessions_set.
Qed.

Lemma count_address_delete : forall clientIP k m,
  (count_address clientIP (map_delete k m) <= count_address clientIP m)%nat.
Proof.
  intros. rewrite <- !userSessions_counted. apply userSessions_delete.
Qed.




Lemma canCreateSession_iff : forall clientIP w,
  canCreateSession clientIP (sessionManager w) = true <->
  (live_count clientIP w < maxSessionsPerIP (sessionManager w))%Z.
Proof.
  intros. unfold canCreateSession, live_count.
  rewrite <- userSessions_counted. unfold sessions. apply Z.ltb_lt.
Qed.









End RegistryProofs.

(* ================================================================== *)
(** ** The pairing orchestration *)
(* ================================================================== *)

Module OrchestratorProofs.
Import GenId Pair Notions RegistryProofs.
#[local] Open Scope list_scope.

Lemma take_task_id : forall requestId ts t rest,
  take_task requestId ts = Some (t, rest) -> t_requestId t = requestId.
Proof.
  intros requestId ts. induction ts as [|t0 r IH]; simpl; intros t rest H.
  - discriminate.
  - destruct (String.eqb (t_requestId t0) requestId) eqn:E.
    + injection H as <- <-. now apply String.eqb_eq.
    + destruct (take_task requestId r) as [[t' r']|]; [|discriminate].
      injection H as <- <-. eapply IH; eauto.
Qed.

(** C3, as the code has it.  A handler waits for the pairing code only
    after the credentials showed an unregistered identity.  When the code
    request resolves, the pairing function returns success with the code
    and leaves the session alone; the route then stores status [paired]
    and the code in the session if it is still live, and answers 200 with
    the request id, the code and the session id. *)
Theorem pairing_code_issued :
  forall (w : World) (requestId code : string) (t : Task) (rest : list Task),
  take_task requestId (tasks w) = Some (t, rest) ->
  t_stage t = AwaitPairingCode ->
  let issued := mkUpdates (Some paired) (Some code) None None in
  (forall sid sock w0,
     snd (pairing_after_authState sid
            (Resolved (mkAuthState false (Resolved sock))) w0)
     = Suspended AwaitPairingCode) /\
  pairing_after_code (Resolved code) w
    = (w, Returned (Some (Success code "Pairing code generated successfully"))) /\
  exists w',
    step w (PairingCodeDone requestId (Resolved code)) = Some w' /\
    responses w' =
      responses w ++
        [mkResponse 200
           (PairIssued requestId code "Pairing code generated successfully"
              (t_sessionId t)
              (Z_to_string (sessionTimeout (sessionManager w) / 60000) ++ " minutes")
              instructions_text)] /\
    (forall s, map_get (t_sessionId t) (sessions w) = Some s ->
       map_get (t_sessionId t) (sessions w') = Some (assign s issued) /\
       status (assign s issued) = paired /\
       pairingCode (assign s issued) = Some code) /\
    (map_get (t_sessionId t) (sessions w) = None -> sessions w' = sessions w).
Proof.
  intros w requestId code t rest Ht Hst issued.
  split; [reflexivity|]. split; [reflexivity|].
  pose proof (take_task_id _ _ _ _ Ht) as Hid.
  unfold step, resume_task. rewrite Ht, Hst. simpl Stage_eqb. cbv iota.
  eexists. split; [reflexivity|].
  unfold continue_pair, pairing_after_code, route_pair_resume; simpl snd; simpl fst.
  cbv iota. rewrite Hid. unfold updateSession.
  change (sessions (set_tasks rest w)) with (sessions w).
  destruct (map_get (t_sessionId t) (sessions w)) as [s0|] eqn:E.
  - split; [reflexivity|]. split; [|discriminate].
    intros s Hs. injection Hs as <-.
    split; [|now split].
    change (sessions (respond ?n ?b (set_sessions ?m ?x))) with m.
    apply map_get_set_same.
  - split; [reflexivity|]. split; [discriminate|]. reflexivity.
Qed.

Lemma pairing_code_issued_witness :
  exists w',
    step (Scenarios.after (firstn 3 Scenarios.scenario_A))
         (PairingCodeDone "req-1" (Resolved "123-456")) = Some w' /\
    map_get Scenarios.sidA (sessions w') <> None /\
    live_status Scenarios.sidA w' = Some "paired".
Proof.
  destruct (pairing_code_issued
              (Scenarios.after (firstn 3 Scenarios.scenario_A)) "req-1" "123-456"
              (mkTask "req-1" Scenarios.sidA "923123456789" AwaitPairingCode) [])
    as (_ & _ & w' & Hs & _ & Hlive & _).
  - vm_compute. reflexivity.
  - reflexivity.
  - exists w'. split; [exact Hs|].
    destruct (Hlive (mkSession Scenarios.sidA "10.0.0.1" "923123456789" 1000
                       initializing (Some Scenarios.sock7) None None))
      as (Hg & _).
    + vm_compute. reflexivity.
    + simpl t_sessionId in Hg. split.
      * rewrite Hg. discriminate.
      * unfold live_status. rewrite Hg. reflexivity.
Defined.

(** C3 as stated fails: in scenario A the response is 200 with the code,
    and the session's status is then [paired], not [code_issued]. *)
Lemma scenario_A_status_not_code_issued :
  run Scenarios.w0 Scenarios.scenario_A = Some Scenarios.wA /\
  option_map http_status (nth_error (responses Scenarios.wA) 0) = Some 200%Z /\
  live_status Scenarios.sidA Scenarios.wA = Some "paired" /\
  live_status Scenarios.sidA Scenarios.wA <> Some "code_issued".
Proof.
  split; [vm_compute; reflexivity|].
  split; [vm_compute; reflexivity|].
  split; [vm_compute; reflexivity|].
  vm_compute. discriminate.
Qed.

(** C4, evaluated on the code.  When the credentials show a registered
    identity, the pairing function of [pair.js] requests no code and falls
    off its end: its caller gets [undefined], reads [.success] of it, and
    answers 500 INTERNAL_ERROR from its [catch], leaving the session as it
    was.  The simplified router's pairing function returns a failure
    outcome at the same point. *)
Theorem registered_identity_outcome :
  (forall sid sock w,
     snd (pairing_after_authState sid
            (Resolved (mkAuthState true (Resolved sock))) w)
     = Returned None) /\
  (forall sid sock w,
     snd (PairSimple.pairing_after_authState sid
            (Resolved (mkAuthState true (Resolved sock))) w)
     = Returned (Some (Failure "Already registered or unknown error"))) /\
  (forall t w,
     route_pair_resume t None w
     = respond 500
         (PairError (t_requestId t) "INTERNAL_ERROR"
            "An unexpected error occurred. Please try again.") w) /\
  run Scenarios.w0 Scenarios.already_registered
    = Some (Scenarios.after Scenarios.already_registered) /\
  responses (Scenarios.after Scenarios.already_registered)
    = [mkResponse 500
         (PairError "req-1" "INTERNAL_ERROR"
            "An unexpected error occurred. Please try again.")] /\
  live_status Scenarios.sidA (Scenarios.after Scenarios.already_registered)
    = Some "initializing" /\
  tasks (Scenarios.after Scenarios.already_registered) = [].
Proof.
  split; [reflexivity|]. split; [reflexivity|]. split; [reflexivity|].
  split; [vm_compute; reflexivity|].
  split; [vm_compute; reflexivity|].
  split; vm_compute; reflexivity.
Qed.

(** *** Status updates *)

(** C5 as stated fails: the session is [logged_out] after the close
    event, and the rejected code request then makes it [failed]. *)
Lemma terminal_status_overwritten :
  run Scenarios.w0 Scenarios.until_logged_out
    = Some (Scenarios.after Scenarios.until_logged_out) /\
  live_status Scenarios.sidA (Scenarios.after Scenarios.until_logged_out)
    = Some "logged_out" /\
  option_map (live_status Scenarios.sidA)
    (step (Scenarios.after Scenarios.until_logged_out) Scenarios.code_request_fails)
    = Some (Some "failed").
Proof.
  split; [vm_compute; reflexivity|].
  split; vm_compute; reflexivity.
Qed.

Lemma archived_app : forall sessionId files k a,
  archived sessionId (files ++ [(k, a)])
  = if String.eqb sessionId k then Some a else archived sessionId files.
Proof.
  intros sessionId files k a.
  induction files as [|[k0 a0] r IH]; simpl.
  - reflexivity.
  - rewrite IH. destruct (String.eqb sessionId k); [reflexivity|].
    reflexivity.
Qed.

Lemma archived_as_frame : forall sessionId a w w',
  sessionManager w' = sessionManager w ->
  expiredFiles w' = expiredFiles w ->
  archived_as sessionId a w -> archived_as sessionId a w'.
Proof.
  unfold archived_as, sessions. intros sessionId a w w' -> ->. tauto.
Qed.

Lemma archived_as_update : forall sessionId a k u w,
  archived_as sessionId a w -> archived_as sessionId a (updateSession k u w).
Proof.
  intros sessionId a k u w [Hs Ha].
  destruct (retired_update sessionId _ k u w (conj Hs eq_refl)) as [Hs' _].
  split; [exact Hs'|].
  unfold updateSession. destruct (map_get k (sessions w)); exact Ha.
Qed.

Lemma archived_as_cleanup : forall sessionId a k w,
  archived_as sessionId a w -> archived_as sessionId a (cleanupSession k w).
Proof.
  intros sessionId a k w [Hs Ha].
  destruct (retired_cleanup sessionId _ k w (conj Hs eq_refl)) as [Hs' _].
  split; [exact Hs'|].
  destruct (map_get k (sessions w)) as [session|] eqn:E.
  - destruct (cleanup_live k w session E) as (_ & _ & _ & Hf).
    rewrite Hf, archived_app.
    destruct (String.eqb_spec sessionId k) as [->|_]; [congruence|exact Ha].
  - now rewrite cleanup_absent.
Qed.

Lemma archived_as_create : forall sessionId a k clientIP validatedPhone w,
  k <> sessionId ->
  archived_as sessionId a w ->
  archived_as sessionId a (createSession k clientIP validatedPhone w).
Proof.
  intros sessionId a k clientIP validatedPhone w Hne [Hs Ha].
  destruct (retired_create sessionId _ k clientIP validatedPhone w Hne
              (conj Hs eq_refl)) as [Hs' _].
  split; [exact Hs'|exact Ha].
Qed.

Lemma archived_as_run : forall sessionId a es w w',
  never_reissued sessionId es ->
  run w es = Some w' ->
  archived_as sessionId a w -> archived_as sessionId a w'.
Proof.
  intros sessionId a es w w' Hes.
  apply (run_preserves (archived_as sessionId a) (fun k => k <> sessionId)); auto.
  - apply archived_as_frame.
  - intros; now apply archived_as_update.
  - intros; now apply archived_as_cleanup.
  - intros; now apply archived_as_create.
Qed.

(** C5, as the code has it.  [updateSession] has no guard on the current
    status: on a live session it stores the status of the update whatever
    the session's status is.  It changes nothing for an identifier that is
    not live, so once [cleanupSession] has run, no update and no later
    event changes the record archived for the session, as long as the
    identifier is not issued anew. *)
Theorem status_frozen_only_by_cleanup :
  forall (sessionId : string) (updates : Updates) (w : World),
  (forall session, map_get sessionId (sessions w) = Some session ->
     map_get sessionId (sessions (updateSession sessionId updates w))
       = Some (assign session updates) /\
     forall st, u_status updates = Some st ->
                status (assign session updates) = st) /\
  (map_get sessionId (sessions w) = None ->
     updateSession sessionId updates w = w) /\
  (forall es w2,
     run (cleanupSession sessionId w) es = Some w2 ->
     never_reissued sessionId es ->
     updateSession sessionId updates w2 = w2 /\
     archived sessionId (expiredFiles w2)
       = archived sessionId (expiredFiles (cleanupSession sessionId w))).
Proof.
  intros sessionId updates w. split; [|split].
  - intros session H. split.
    + unfold updateSession. rewrite H.
      change (sessions (set_sessions ?m w)) with m. apply map_get_set_same.
    + intros st Hst. simpl. now rewrite Hst.
  - apply update_absent.
  - intros es w2 Hr Hes.
    assert (A : archived_as sessionId
                  (archived sessionId (expiredFiles (cleanupSession sessionId w))) w2).
    { eapply archived_as_run; eauto. split; [|reflexivity].
      rewrite cleanup_sessions. apply map_get_delete_same. }
    destruct A as [Hs Ha]. split; [now apply update_absent|exact Ha].
Qed.

Lemma status_frozen_only_by_cleanup_witness :
  exists w2,
    run (cleanupSession Scenarios.sidA Scenarios.wA) Scenarios.later_cleanups = Some w2 /\
    updateSession Scenarios.sidA (mkUpdates (Some connected) None None None) w2 = w2 /\
    archived_status Scenarios.sidA w2 = Some "paired".
Proof.
  destruct (run (cleanupSession Scenarios.sidA Scenarios.wA) Scenarios.later_cleanups)
    as [w2|] eqn:Hr; [|vm_compute in Hr; discriminate].
  exists w2. split; [reflexivity|].
  destruct (status_frozen_only_by_cleanup Scenarios.sidA
              (mkUpdates (Some connected) None None None) Scenarios.wA)
    as (_ & _ & H).
  destruct (H Scenarios.later_cleanups w2 Hr) as (H1 & H2).
  - repeat constructor. vm_compute. discriminate.
  - split; [exact H1|]. unfold archived_status. rewrite H2.
    vm_compute. reflexivity.
Defined.

(** *** Expiry *)

(** C6 as stated fails: a session that hears nothing for the whole
    timeout is removed from the live set, and the record archived for it
    has the status it was created with, [initializing], not [expired]. *)
Lemma silent_session_not_expired :
  run Scenarios.w0 (Scenarios.silent_session 300000)
    = Some (Scenarios.after (Scenarios.silent_session 300000)) /\
  sessions (Scenarios.after (Scenarios.silent_session 300000)) = [] /\
  archived_status Scenarios.sidA (Scenarios.after (Scenarios.silent_session 300000))
    = Some "initializing" /\
  archived_status Scenarios.sidA (Scenarios.after (Scenarios.silent_session 300000))
    <> Some "expired".
Proof.
  split; [vm_compute; reflexivity|].
  split; [vm_compute; reflexivity|].
  split; [vm_compute; reflexivity|].
  vm_compute. discriminate.
Qed.

Lemma no_expired_status : forall st : Status, status_name st <> "expired".
Proof.
  intros st. destruct st; discriminate.
Qed.

Lemma setTimeout_delay_cases : forall ms : Z,
  ((1 <= ms <= 2147483647)%Z -> setTimeout_delay ms = ms) /\
  ((ms < 1 \/ 2147483647 < ms)%Z -> setTimeout_delay ms = 1%Z).
Proof.
  intros ms. unfold setTimeout_delay.
  destruct (Z.ltb_spec ms 1), (Z.ltb_spec 2147483647 ms); simpl; split; intros; lia.
Qed.

(** C6, as the code has it.  [createSession] registers the session as
    [initializing] and arms a timer whose delay is the configured timeout
    if that is between 1 and 2147483647 ms, and 1 ms otherwise, as
    [setTimeout] has it.  If nothing else happens, the timer cannot fire
    before that delay has elapsed; when it fires, the session is removed
    from the live set and a record is written for it under the expired
    directory with the status [initializing] it had and the elapsed time
    as duration.  No status of the code is named [expired]. *)
Theorem session_expiry :
  forall (sessionId clientIP validatedPhone : string) (w : World),
  let w1 := createSession sessionId clientIP validatedPhone w in
  let timeout := sessionTimeout (sessionManager w) in
  let created := new_session sessionId clientIP validatedPhone (now w) in
  map_get sessionId (sessions w1) = Some created /\
  status created = initializing /\
  (forall st : Status, status_name st <> "expired") /\
  exists delay : Z,
    nth_error (timers w1) (List.length (timers w)) = Some (now w + delay, sessionId)%Z /\
    ((1 <= timeout <= 2147483647)%Z -> delay = timeout) /\
    ((timeout < 1 \/ 2147483647 < timeout)%Z -> delay = 1%Z) /\
    forall dt : Z, (0 <= dt)%Z ->
      exists w2,
        step w1 (Tick dt) = Some w2 /\
        ((dt < delay)%Z ->
           step w2 (TimerFired (List.length (timers w))) = None) /\
        ((delay <= dt)%Z ->
           exists w3,
             step w2 (TimerFired (List.length (timers w))) = Some w3 /\
             map_get sessionId (sessions w3) = None /\
             ~ In sessionId (map fst (sessions w3)) /\
             archived sessionId (expiredFiles w3)
               = Some {| a_session := created;
                         endedAt := (now w + dt)%Z;
                         duration := dt |} /\
             archived_status sessionId w3 = Some "initializing").
Proof.
  intros sessionId clientIP validatedPhone w w1 timeout created.
  assert (Hlive : map_get sessionId (sessions w1) = Some created).
  { unfold w1, createSession.
    change (sessions (set_timers ?t (set_sessions ?m w))) with m.
    apply map_get_set_same. }
  set (delay := setTimeout_delay timeout).
  assert (Htimer : nth_error (timers w1) (List.length (timers w))
                   = Some (now w + delay, sessionId)%Z).
  { unfold w1, createSession. cbn [timers set_timers set_sessions].
    rewrite nth_error_app2 by lia. now rewrite Nat.sub_diag. }
  split; [exact Hlive|]. split; [reflexivity|].
  split; [exact no_expired_status|].
  exists delay. split; [exact Htimer|].
  split; [apply setTimeout_delay_cases|]. split; [apply setTimeout_delay_cases|].
  intros dt Hdt.
  exists (set_now (now w1 + dt)%Z w1). split.
  { unfold step. apply Z.leb_le in Hdt. now rewrite Hdt. }
  unfold step.
  change (timers (set_now ?t w1)) with (timers w1). rewrite Htimer.
  change (now (set_now ?t w1)) with t.
  change (now w1) with (now w).
  split.
  - intros Hlt.
    destruct (now w + delay <=? now w + dt)%Z eqn:E; [|reflexivity].
    apply Z.leb_le in E. lia.
  - intros Hge.
    destruct (now w + delay <=? now w + dt)%Z eqn:E;
      [|apply Z.leb_gt in E; lia].
    eexists. split; [reflexivity|].
    match goal with |- context [cleanupSession sessionId ?x] => set (wf := x) end.
    assert (Hl : map_get sessionId (sessions wf) = Some created) by exact Hlive.
    destruct (cleanup_live sessionId wf created Hl) as (_ & _ & Hs & Hf).
    split; [exact Hs|].
    split.
    { rewrite cleanup_sessions. unfold map_delete. intros Hin.
      apply in_map_iff in Hin. destruct Hin as ([k v] & Ek & Hin).
      apply filter_In in Hin. simpl in Ek, Hin. subst k.
      rewrite String.eqb_refl in Hin. now destruct Hin. }
    assert (Ha : archived sessionId (expiredFiles (cleanupSession sessionId wf))
                 = Some {| a_session := created;
                           endedAt := (now w + dt)%Z;
                           duration := dt |}).
    { rewrite Hf, archived_app, String.eqb_refl.
      change (now wf) with (now w + dt)%Z.
      change (startedAt created) with (now w).
      do 2 f_equal. lia. }
    split; [exact Ha|].
    unfold archived_status. rewrite Ha. reflexivity.
Qed.

Lemma session_expiry_witness :
  exists w2,
    step (createSession Scenarios.sidA "10.0.0.1" "923123456789" Scenarios.w0)
         (Tick 300000) = Some w2 /\
    exists w3,
      step w2 (TimerFired 0) = Some w3 /\
      map_get Scenarios.sidA (sessions w3) = None /\
      archived_status Scenarios.sidA w3 = Some "initializing".
Proof.
  destruct (session_expiry Scenarios.sidA "10.0.0.1" "923123456789" Scenarios.w0)
    as (_ & _ & _ & delay & _ & Hd & _ & H).
  assert (E : delay = 300000%Z) by (apply Hd; simpl; lia).
  destruct (H 300000%Z) as (w2 & Ht & _ & Hfire); [lia|].
  exists w2. split; [exact Ht|].
  destruct Hfire as (w3 & Hs & Hgone & _ & _ & Hst); [lia|].
  exists w3. split; [exact Hs|]. split; [exact Hgone|exact Hst].
Defined.

End OrchestratorProofs.

(* ================================================================== *)
(** ** Statistics *)
(* ================================================================== *)

Module StatsProofs.
Import GenId Pair Notions.
#[local] Open Scope list_scope.

Lemma Status_eqb_eq : forall a b, Status_eqb a b = true <-> a = b.
Proof.
  intros a b. split.
  - destruct a, b; intros H; try reflexivity; vm_compute in H; discriminate.
  - intros ->. destruct b; reflexivity.
Qed.

Lemma Status_eqb_refl : forall a, Status_eqb a a = true.
Proof. intros a. now apply Status_eqb_eq. Qed.

Lemma acc_get_set_same : forall k n acc, acc_get k (acc_set k n acc) = Some n.
Proof.
  intros k n acc. induction acc as [|[k' n'] r IH]; simpl.
  - now rewrite Status_eqb_refl.
  - destruct (Status_eqb k k') eqn:E; simpl.
    + now rewrite Status_eqb_refl.
    + now rewrite E.
Qed.

Lemma acc_get_set_other : forall k k' n acc,
  Status_eqb k k' = false -> acc_get k (acc_set k' n acc) = acc_get k acc.
Proof.
  intros k k' n acc Hne. induction acc as [|[k0 n0] r IH]; simpl.
  - now rewrite Hne.
  - destruct (Status_eqb k' k0) eqn:E; simpl.
    + rewrite Hne. apply Status_eqb_eq in E. subst k0. now rewrite Hne.
    + now rewrite IH.
Qed.

(** The reduction counts every session once under its status. *)
Lemma tally_counts : forall (l : list Session) (acc : list (Status * nat)) (st : Status),
  acc_get st (fold_left tally l acc)
  = match count_status st l with
    | O => acc_get st acc
    | S n => Some (counted st acc + S n)
    end.
Proof.
  induction l as [|s r IH]; intros acc st; [reflexivity|].
  simpl fold_left. rewrite IH. unfold count_status. simpl filter.
  destruct (Status_eqb (status s) st) eqn:E.
  - apply Status_eqb_eq in E. subst st. simpl List.length.
    assert (Hg : acc_get (status s) (tally acc s)
                 = Some (counted (status s) acc + 1)).
    { unfold tally. now rewrite acc_get_set_same. }
    unfold counted at 1. rewrite Hg.
    destruct (List.length (filter _ r)); f_equal; lia.
  - assert (Hg : acc_get st (tally acc s) = acc_get st acc).
    { unfold tally. apply acc_get_set_other.
      destruct (Status_eqb st (status s)) eqn:E'; [|reflexivity].
      apply Status_eqb_eq in E'. subst st. now rewrite Status_eqb_refl in E. }
    unfold counted. now rewrite Hg.
Qed.

Lemma slice_last_length : forall {A} n (l : list A),
  List.length (slice_last n l) <= n.
Proof.
  intros A n l. unfold slice_last. rewrite length_skipn. lia.
Qed.

Lemma slice_last_suffix : forall {A} n (l : list A),
  exists older, l = older ++ slice_last n l.
Proof.
  intros A n l. exists (firstn (List.length l - n) l).
  unfold slice_last. now rewrite firstn_skipn.
Qed.

Lemma slice_last_map : forall {A B} (f : A -> B) n (l : list A),
  slice_last n (map f l) = map f (slice_last n l).
Proof.
  intros A B f n l. unfold slice_last. now rewrite length_map, skipn_map.
Qed.

Lemma substring_length : forall (s : string) (n : nat),
  String.length (String.substring 0 n s) = Nat.min n (String.length s).
Proof.
  induction s as [|c r IH]; intros n.
  - destruct n; reflexivity.
  - destruct n as [|n]; [reflexivity|]. simpl. now rewrite IH.
Qed.

Lemma tally_redact : forall sha256_hex (l : list Session) acc,
  fold_left tally (map (redact sha256_hex) l) acc = fold_left tally l acc.
Proof.
  intros sha256_hex l. induction l as [|s r IH]; intros acc; [reflexivity|].
  simpl. now rewrite IH.
Qed.

(** The summary is a function of the clock and of the redacted sessions. *)
Lemma getStats_factors : forall sha256_hex w,
  getStats sha256_hex w
  = stats_of_redacted (now w) (map (redact sha256_hex) (map_values (sessions w))).
Proof.
  intros sha256_hex w. unfold getStats, stats_of_redacted. f_equal.
  - unfold map_values. now rewrite !length_map.
  - now rewrite tally_redact.
  - rewrite slice_last_map, map_map. reflexivity.
Qed.

Lemma validated_length : forall p v,
  validatePhoneNumber p = Some v -> String.length v <= 15.
Proof.
  intros p v. unfold validatePhoneNumber.
  destruct (String.eqb _ EmptyString); [discriminate|].
  destruct (String.length (strip_non_digits p) <? 10)%nat eqn:Hlo; [discriminate|].
  destruct (15 <? String.length (strip_non_digits p))%nat eqn:Hhi; [discriminate|].
  simpl. apply Nat.ltb_ge in Hhi.
  match goal with |- context [if ?b then _ else _] => destruct b end;
    [|discriminate].
  intros H. injection H as <-. exact Hhi.
Qed.

Lemma substring_prefix : forall (s : string) (n : nat),
  exists rest, s = (String.substring 0 n s ++ rest)%string.
Proof.
  induction s as [|c r IH]; intros n.
  - exists EmptyString. destruct n; reflexivity.
  - destruct n as [|n].
    + exists (String c r). reflexivity.
    + destruct (IH n) as [rest Hrest]. exists rest. simpl. now rewrite <- Hrest.
Qed.

Lemma slice_last_min : forall {A} n (l : list A),
  List.length (slice_last n l) = Nat.min n (List.length l).
Proof.
  intros A n l. unfold slice_last. rewrite length_skipn. lia.
Qed.

Lemma entries_show : forall sha256_hex t (l : list Session),
  Forall2 (shows sha256_hex t) (map (recent_entry sha256_hex t) l) l.
Proof.
  intros sha256_hex t l. induction l as [|s r IH]; constructor; auto.
  repeat split.
Qed.

(** C9.  [getStats] returns the number of live sessions, for every status
    the number of live sessions that have it, and one entry for each of
    the last five sessions of the registry, or for all of them if there
    are fewer, in the order of the registry.  The phone field of an entry
    is the first 16 characters of the SHA-256 hex digest of the session's
    phone and so differs from every validated phone number; and the
    summary is the same for any two registries whose sessions agree once
    their phones are replaced by those prefixes, so that it shows nothing
    else of a phone number. *)
Theorem getStats_redacted :
  forall (sha256_hex : string -> string) (w : World),
  (forall x, String.length (sha256_hex x) = 64) ->
  let stats := getStats sha256_hex w in
  let live := map snd (sessions w) in
  total stats = List.length (sessions w) /\
  (forall st,
     acc_get st (byStatus stats)
     = if (count_status st live =? 0)%nat then None
       else Some (count_status st live)) /\
  List.length (recent stats) <= 5 /\
  (exists older shown,
     live = older ++ shown /\
     List.length shown = Nat.min 5 (List.length live) /\
     Forall2 (shows sha256_hex (now w)) (recent stats) shown) /\
  (forall e, In e (recent stats) ->
     String.length (r_phone e) = 16 /\
     (exists s rest,
        In s live /\ r_id e = id s /\
        sha256_hex (phone s) = (r_phone e ++ rest)%string) /\
     forall p v, validatePhoneNumber p = Some v -> r_phone e <> v) /\
  (forall w',
     now w' = now w ->
     map (redact sha256_hex) (map snd (sessions w'))
       = map (redact sha256_hex) live ->
     getStats sha256_hex w' = stats).
Proof.
  intros sha256_hex w Hsha stats live.
  assert (Elive : live = map_values (sessions w)) by reflexivity.
  split; [reflexivity|].
  split.
  { intros st. unfold stats, getStats. simpl byStatus. rewrite tally_counts.
    rewrite <- Elive. destruct (count_status st live); reflexivity. }
  split.
  { unfold stats, getStats. simpl recent. rewrite length_map.
    apply slice_last_length. }
  split.
  { destruct (slice_last_suffix 5 live) as [older Holder].
    exists older, (slice_last 5 live).
    split; [exact Holder|]. split; [apply slice_last_min|].
    unfold stats, getStats. simpl recent. rewrite <- Elive.
    apply entries_show. }
  split.
  { intros e He. unfold stats, getStats in He. simpl recent in He.
    apply in_map_iff in He. destruct He as (s & <- & Hin).
    assert (L : String.length (r_phone (recent_entry sha256_hex (now w) s)) = 16).
    { simpl. unfold hashPhoneNumber. rewrite substring_length, Hsha. reflexivity. }
    split; [exact L|].
    split.
    { destruct (substring_prefix (sha256_hex (phone s)) 16) as [rest Hrest].
      exists s, rest. split; [|split; [reflexivity|exact Hrest]].
      rewrite Elive. destruct (slice_last_suffix 5 (map_values (sessions w)))
        as [older Holder].
      rewrite Holder. apply in_or_app. now right. }
    intros p v Hv E. apply validated_length in Hv. rewrite E in L. lia. }
  intros w' Hnow Hred. unfold stats.
  rewrite !getStats_factors, Hnow. unfold map_values. now rewrite Hred.
Qed.

Lemma getStats_redacted_witness :
  option_map phone (map_get Scenarios.sidA (sessions Scenarios.wA))
    = Some "923123456789"%string /\
  map r_phone (recent (getStats Scenarios.digest_stub Scenarios.wA))
    = ["0000000000000000"%string] /\
  map r_id (recent (getStats Scenarios.digest_stub Scenarios.wA)) = [Scenarios.sidA] /\
  byStatus (getStats Scenarios.digest_stub Scenarios.wA) = [(paired, 1)] /\
  total (getStats Scenarios.digest_stub Scenarios.wA) = 1 /\
  List.length (recent (getStats Scenarios.digest_stub Scenarios.wA)) <= 5 /\
  (forall e, In e (recent (getStats Scenarios.digest_stub Scenarios.wA)) ->
     String.length (r_phone e) = 16).
Proof.
  destruct (getStats_redacted Scenarios.digest_stub Scenarios.wA)
    as (Ht & _ & Hr & _ & He & _).
  - intros x. reflexivity.
  - split; [vm_compute; reflexivity|].
    split; [vm_compute; reflexivity|].
    split; [vm_compute; reflexivity|].
    split; [vm_compute; reflexivity|].
    split; [rewrite Ht; vm_compute; reflexivity|].
    split; [exact Hr|].
    intros e Hin. apply (He e Hin).
Defined.

End StatsProofs.

(* ================================================================== *)
(** ** Further properties of gen-id.js *)
(* ================================================================== *)

Module GenIdProofs.
Import GenId PairingCode Invariants Notions.

Lemma pick_digit_char : forall b : nat,
  pick_digit b = String (digit_of b) EmptyString /\ is_digit (digit_of b) = true.
Proof.
  intros b. unfold pick_digit, digit_of.
  change (String.length digits) with 10%nat.
  assert (H : (b mod 10 < 10)%nat) by (apply Nat.mod_upper_bound; lia).
  remember (b mod 10)%nat as k eqn:Ek. clear Ek.
  do 10 (destruct k as [|k]; [split; reflexivity|]).
  lia.
Qed.

Lemma append_nonempty : forall a x : string,
  x <> EmptyString -> (a ++ x)%string <> EmptyString.
Proof.
  intros a x Hx. destruct a; simpl; [exact Hx|discriminate].
Qed.

Lemma code_body_nonempty : forall bytes code i,
  code_body bytes code i <> EmptyString.
Proof.
  intros bytes code i. unfold code_body.
  destruct (nth_error bytes i) as [b|]; apply append_nonempty; [|discriminate].
  rewrite (proj1 (pick_digit_char b)). discriminate.
Qed.

Lemma code_loop_nonempty : forall bytes l code,
  code <> EmptyString -> fold_left (code_body bytes) l code <> EmptyString.
Proof.
  intros bytes l. induction l as [|i r IH]; intros code H; simpl; [exact H|].
  apply IH, code_body_nonempty.
Qed.

Lemma groups_of_three_nonempty : forall s,
  s <> EmptyString -> groups_of_three s <> [].
Proof.
  intros s H. destruct s as [|a [|b [|c r]]]; simpl; try discriminate.
  now elim H.
Qed.

(** X1.  [generatePairingCode] returns three digits, a hyphen and three
    digits, the digits being the six random bytes modulo 10 in order; it
    never fails on [join], whatever the buffer; and of the 256 byte values
    26 are sent to each of the digits 0 to 5 and 25 to each of 6 to 9. *)
Theorem generatePairingCode_format :
  (forall b0 b1 b2 b3 b4 b5 : nat,
     generatePairingCode [b0; b1; b2; b3; b4; b5]
     = Some (String (digit_of b0) (String (digit_of b1) (String (digit_of b2)
            (String "-"
            (String (digit_of b3) (String (digit_of b4) (String (digit_of b5)
             EmptyString)))))))) /\
  (forall b, is_digit (digit_of b) = true /\
             nat_of_ascii (digit_of b) = (48 + b mod 10)%nat) /\
  (forall bytes, generatePairingCode bytes <> None) /\
  map digit_preimages digit_alphabet
  = [26; 26; 26; 26; 26; 26; 25; 25; 25; 25]%nat.
Proof.
  split; [|split; [|split]].
  - intros b0 b1 b2 b3 b4 b5. unfold generatePairingCode.
    cbn [seq fold_left]. unfold code_body. cbn [nth_error].
    rewrite !(proj1 (pick_digit_char _)). reflexivity.
  - intros b. split; [apply pick_digit_char|].
    unfold digit_of. apply nat_ascii_embedding.
    assert (H : (b mod 10 < 10)%nat) by (apply Nat.mod_upper_bound; lia). lia.
  - intros bytes. unfold generatePairingCode.
    assert (H : fold_left (code_body bytes) (seq 0 6) EmptyString <> EmptyString).
    { cbn [seq fold_left]. apply (code_loop_nonempty bytes []), code_body_nonempty. }
    apply groups_of_three_nonempty in H.
    destruct (groups_of_three _); [now elim H|discriminate].
  - vm_compute. reflexivity.
Qed.

Lemma generatePairingCode_format_witness :
  generatePairingCode [1; 12; 23; 34; 45; 56] <> None.
Proof.
  destruct generatePairingCode_format as (_ & _ & H & _).
  apply (H [1; 12; 23; 34; 45; 56]%nat).
Defined.

(** *** The validator as a normal form *)

Lemma strip_digits_only : forall s,
  (forall c, In c (list_ascii_of_string s) -> is_digit c = true) ->
  strip_non_digits s = s.
Proof.
  induction s as [|c r IH]; intros H; simpl; [reflexivity|].
  rewrite (H c) by (simpl; auto).
  rewrite IH; [reflexivity|]. intros c' Hc'. apply H. simpl; auto.
Qed.

Lemma strip_idempotent : forall s,
  strip_non_digits (strip_non_digits s) = strip_non_digits s.
Proof.
  intros s. apply strip_digits_only. apply ValidatorProofs.strip_only_digits.
Qed.

Lemma validated_is_stripped : forall p v,
  validatePhoneNumber p = Some v -> v = strip_non_digits p.
Proof.
  intros p v. unfold validatePhoneNumber.
  destruct (String.eqb _ EmptyString); [discriminate|].
  destruct (String.length (strip_non_digits p) <? 10)%nat; [discriminate|].
  destruct (15 <? String.length (strip_non_digits p))%nat; [discriminate|].
  simpl orb. cbv iota.
  match goal with |- context [if ?b then _ else _] => destruct b end;
    [|discriminate].
  intros H. now injection H as <-.
Qed.

Lemma validate_prestripped : forall p,
  validatePhoneNumber (strip_non_digits p) = validatePhoneNumber p.
Proof.
  intros p. unfold validatePhoneNumber. now rewrite strip_idempotent.
Qed.

Lemma validate_fixed : forall p v,
  validatePhoneNumber p = Some v -> validated v.
Proof.
  intros p v H. unfold validated.
  rewrite (validated_is_stripped p v H) at 1.
  now rewrite validate_prestripped.
Qed.

Lemma validate_unfold : forall p d rest,
  strip_non_digits p = String d rest ->
  validatePhoneNumber p
  = if ((String.length (String d rest) <? 10)%nat
        || (15 <? String.length (String d rest))%nat)%bool
    then None
    else if country_code_digit d then Some (String d rest) else None.
Proof.
  intros p d rest H. unfold validatePhoneNumber. rewrite H.
  change (String d rest =? EmptyString)%string with false. cbv iota.
  now rewrite ValidatorProofs.startsWith_one_of_nine.
Qed.

Lemma validated_shape : forall p : string,
  validated p <->
  (forall c, In c (list_ascii_of_string p) -> is_digit c = true) /\
  (10 <= String.length p <= 15)%nat /\
  begins_with_country_code p.
Proof.
  intros p. split.
  - intros H.
    pose proof (validated_is_stripped p p H) as E.
    assert (D : forall c, In c (list_ascii_of_string p) -> is_digit c = true).
    { intros c Hc. rewrite E in Hc.
      eapply ValidatorProofs.strip_only_digits; eauto. }
    split; [exact D|].
    destruct p as [|d rest]; [discriminate|].
    unfold validated in H.
    rewrite (validate_unfold _ d rest (eq_sym E)) in H.
    destruct (String.length (String d rest) <? 10)%nat eqn:Hlo; [discriminate|].
    destruct (15 <? String.length (String d rest))%nat eqn:Hhi; [discriminate|].
    simpl orb in H. cbv iota in H.
    apply Nat.ltb_ge in Hlo. apply Nat.ltb_ge in Hhi.
    split; [lia|].
    destruct (country_code_digit d) eqn:Hd; [|discriminate].
    now exists d, rest.
  - intros (D & [Hlo Hhi] & (d & rest & -> & Hd)).
    unfold validated.
    rewrite (validate_unfold _ d rest (strip_digits_only _ D)).
    apply Nat.ltb_ge in Hlo. rewrite Hlo.
    assert (Hhi' : (15 <? String.length (String d rest))%nat = false)
      by (apply Nat.ltb_ge; exact Hhi).
    rewrite Hhi'. simpl orb. cbv iota. now rewrite Hd.
Qed.

(** X2.  A value that [validatePhoneNumber] returns is a fixed point of it,
    and stripping the input beforehand, as the route does, does not change
    the result; so the validated values are exactly the strings of 10 to
    15 digits that begin with a digit 1-9. *)
Theorem validatePhoneNumber_normal_form : forall p : string,
  validatePhoneNumber (strip_non_digits p) = validatePhoneNumber p /\
  (forall v, validatePhoneNumber p = Some v -> validatePhoneNumber v = Some v) /\
  (validatePhoneNumber p = Some p <->
     (forall c, In c (list_ascii_of_string p) -> is_digit c = true) /\
     (10 <= String.length p <= 15)%nat /\
     begins_with_country_code p).
Proof.
  intros p. split; [apply validate_prestripped|].
  split; [intros v H; exact (validate_fixed p v H)|].
  apply validated_shape.
Qed.

Lemma validatePhoneNumber_normal_form_witness :
  validatePhoneNumber "923123456789" = Some "923123456789".
Proof.
  destruct (validatePhoneNumber_normal_form "+92 (312) 345-6789") as (_ & H & _).
  apply H. vm_compute. reflexivity.
Defined.

(** *** Collisions of session ids *)

Lemma pick_of_residue : forall b, pick b = pick (b mod 62).
Proof.
  intros b. unfold pick. change (String.length chars) with 62%nat.
  now rewrite Nat.Div0.mod_mod.
Qed.

Lemma pick_injective_below : forall a b,
  (a < 62)%nat -> (b < 62)%nat -> pick a = pick b -> a = b.
Proof.
  assert (T : forallb (fun a =>
                 forallb (fun b => negb (String.eqb (pick a) (pick b)) || (a =? b)%nat)
                         (seq 0 62))
              (seq 0 62) = true) by (vm_compute; reflexivity).
  intros a b Ha Hb E.
  rewrite forallb_forall in T.
  specialize (T a). rewrite forallb_forall in T.
  specialize (T (proj2 (in_seq 62 0 a) (conj (Nat.le_0_l a) Ha))
                b (proj2 (in_seq 62 0 b) (conj (Nat.le_0_l b) Hb))).
  rewrite E, String.eqb_refl in T. simpl in T. now apply Nat.eqb_eq.
Qed.

Lemma pick_injective : forall a b, pick a = pick b -> (a mod 62 = b mod 62)%nat.
Proof.
  intros a b E. rewrite (pick_of_residue a), (pick_of_residue b) in E.
  apply pick_injective_below; auto; apply Nat.mod_upper_bound; lia.
Qed.

Lemma picks_same_choices : forall b1 b2,
  List.length b1 = List.length b2 ->
  (picks b1 = picks b2 <-> same_choices b1 b2).
Proof.
  unfold same_choices.
  induction b1 as [|x r IH]; intros [|y r'] Hlen; try discriminate Hlen.
  - split; reflexivity.
  - cbn [List.length] in Hlen. injection Hlen as Hlen.
    cbn [picks map].
    destruct (IssuerProofs.pick_char x) as (cx & _ & Ex & _).
    destruct (IssuerProofs.pick_char y) as (cy & _ & Ey & _).
    split.
    + intros E. rewrite Ex, Ey in E. cbn [append] in E. injection E as Ec Er.
      f_equal.
      * apply pick_injective. now rewrite Ex, Ey, Ec.
      * now apply IH.
    + intros E.
      assert (Em : (x mod 62 = y mod 62)%nat)
        by exact (f_equal (hd 0%nat) E).
      assert (Er : map (fun b => (b mod 62)%nat) r = map (fun b => (b mod 62)%nat) r')
        by exact (f_equal (@tl nat) E).
      rewrite (pick_of_residue x), (pick_of_residue y), Em.
      f_equal. now apply IH.
Qed.

(** X3.  Two buffers of the requested length give the same session id exactly
    when their bytes agree modulo 62, position by position. *)
Theorem generateSessionId_collision : forall (length : nat) (b1 b2 : list nat),
  List.length b1 = length ->
  List.length b2 = length ->
  (generateSessionId length b1 = generateSessionId length b2 <-> same_choices b1 b2).
Proof.
  intros length b1 b2 H1 H2.
  rewrite <- H1 at 1. rewrite <- H2 at 1.
  rewrite !IssuerProofs.generateSessionId_picks.
  apply picks_same_choices. congruence.
Qed.

Lemma generateSessionId_collision_witness :
  generateSessionId 12 [0; 1; 2; 3; 4; 5; 6; 7; 8; 9; 10; 11]
  = generateSessionId 12 [62; 63; 64; 65; 66; 67; 68; 69; 70; 71; 72; 73].
Proof.
  apply (generateSessionId_collision 12
           [0; 1; 2; 3; 4; 5; 6; 7; 8; 9; 10; 11]
           [62; 63; 64; 65; 66; 67; 68; 69; 70; 71; 72; 73]).
  - reflexivity.
  - reflexivity.
  - reflexivity.
Defined.

End GenIdProofs.

(* ================================================================== *)
(** ** Invariants of the reachable worlds *)
(* ================================================================== *)

Module InvariantProofs.
Import GenId Pair Notions Invariants RegistryProofs.
#[local] Open Scope list_scope.

(** *** Facts on the list that stands for the [Map] *)

Lemma map_get_In : forall k s m, map_get k m = Some s -> In (k, s) m.
Proof.
  intros k s m. induction m as [|[k' v] r IH]; simpl; [discriminate|].
  destruct (String.eqb_spec k k') as [->|_].
  - intros H. injection H as ->. now left.
  - intros H. right. now apply IH.
Qed.

Lemma In_map_get : forall k s m,
  NoDup (map fst m) -> In (k, s) m -> map_get k m = Some s.
Proof.
  intros k s m. induction m as [|[k' v] r IH]; simpl; intros Hnd Hin; [tauto|].
  inversion Hnd as [|? ? Hk Hr]; subst.
  destruct Hin as [E|Hin].
  - injection E as -> ->. now rewrite String.eqb_refl.
  - destruct (String.eqb_spec k k') as [->|_].
    + exfalso. apply Hk. change k' with (fst (k', s)). now apply in_map.
    + now apply IH.
Qed.

Lemma In_map_set : forall a x k v m,
  In (a, x) (map_set k v m) -> (a = k /\ x = v) \/ In (a, x) m.
Proof.
  intros a x k v m. induction m as [|[k' v'] r IH]; simpl.
  - intros [E|[]]. injection E as <- <-. now left.
  - destruct (String.eqb k k').
    + intros [E|H]; [injection E as <- <-; now left|right; now right].
    + intros [E|H]; [right; now left|].
      destruct (IH H) as [L|R]; [now left|right; now right].
Qed.

Lemma keys_map_set : forall a k v m,
  In a (map fst (map_set k v m)) -> a = k \/ In a (map fst m).
Proof.
  intros a k v m H. apply in_map_iff in H. destruct H as ([a' x] & <- & H).
  destruct (In_map_set _ _ _ _ _ H) as [[-> _]|R]; [now left|].
  right. change a' with (fst (a', x)). now apply in_map.
Qed.

Lemma NoDup_map_set : forall k v m,
  NoDup (map fst m) -> NoDup (map fst (map_set k v m)).
Proof.
  intros k v m. induction m as [|[k' v'] r IH]; simpl; intros H.
  - constructor; [tauto|constructor].
  - inversion H as [|? ? Hk Hr]; subst.
    destruct (String.eqb_spec k k') as [->|Hne]; simpl.
    + now constructor.
    + constructor; [|now apply IH].
      intros Hin. destruct (keys_map_set _ _ _ _ Hin) as [E|Hin']; congruence.
Qed.

Lemma In_map_delete : forall a x k m,
  In (a, x) (map_delete k m) -> In (a, x) m /\ a <> k.
Proof.
  intros a x k m H. unfold map_delete in H. apply filter_In in H.
  destruct H as [H E]. split; [exact H|].
  simpl in E. intros ->. now rewrite String.eqb_refl in E.
Qed.

Lemma NoDup_map_delete : forall k m,
  NoDup (map fst m) -> NoDup (map fst (map_delete k m)).
Proof.
  intros k m. unfold map_delete.
  induction m as [|[k' v'] r IH]; simpl; intros H; [constructor|].
  inversion H as [|? ? Hk Hr]; subst.
  destruct (String.eqb k k'); simpl; [now apply IH|].
  constructor; [|now apply IH].
  intros Hin. apply Hk. apply in_map_iff in Hin.
  destruct Hin as ([a x] & <- & Hin). apply filter_In in Hin.
  change a with (fst (a, x)). apply in_map. tauto.
Qed.

Lemma map_delete_set_fresh : forall k v m,
  map_get k m = None -> map_delete k (map_set k v m) = m.
Proof.
  intros k v m. unfold map_delete.
  induction m as [|[k' v'] r IH]; simpl.
  - now rewrite String.eqb_refl.
  - destruct (String.eqb k k') eqn:E; [discriminate|].
    intros H. simpl. rewrite E. simpl. now rewrite IH.
Qed.

Lemma keys_map_set_live : forall k v m s,
  map_get k m = Some s -> map fst (map_set k v m) = map fst m.
Proof.
  intros k v m s. induction m as [|[k' v'] r IH]; simpl; [discriminate|].
  destruct (String.eqb_spec k k') as [->|_]; [reflexivity|].
  intros H. simpl. now rewrite IH.
Qed.

(** *** What the three operations leave alone *)

Lemma update_untouched : forall k u w,
  expiredFiles (updateSession k u w) = expiredFiles w /\
  timers (updateSession k u w) = timers w /\
  tasks (updateSession k u w) = tasks w /\
  responses (updateSession k u w) = responses w /\
  tempDirs (updateSession k u w) = tempDirs w /\
  closed (updateSession k u w) = closed w /\
  now (updateSession k u w) = now w /\
  sessionTimeout (sessionManager (updateSession k u w))
    = sessionTimeout (sessionManager w) /\
  maxSessionsPerIP (sessionManager (updateSession k u w))
    = maxSessionsPerIP (sessionManager w).
Proof.
  intros k u w. unfold updateSession.
  destruct (map_get k (sessions w)); repeat split.
Qed.

Lemma cleanup_untouched : forall k w,
  timers (cleanupSession k w) = timers w /\
  tasks (cleanupSession k w) = tasks w /\
  responses (cleanupSession k w) = responses w /\
  now (cleanupSession k w) = now w.
Proof.
  intros k w. unfold cleanupSession.
  destruct (map_get k (sessions w)); [|repeat split].
  destruct (existsSync k (tempDirs (set_closed _ w))); repeat split.
Qed.

Lemma update_sessions : forall k u w,
  sessions (updateSession k u w)
  = match map_get k (sessions w) with
    | Some s => map_set k (assign s u) (sessions w)
    | None => sessions w
    end.
Proof.
  intros k u w. unfold updateSession.
  destruct (map_get k (sessions w)); reflexivity.
Qed.

Lemma cleanup_files : forall k w,
  expiredFiles (cleanupSession k w)
  = match map_get k (sessions w) with
    | Some s =>
        expiredFiles w ++
          [(k, {| a_session := s;
                  endedAt := now w;
                  duration := (now w - startedAt s)%Z |})]
    | None => expiredFiles w
    end.
Proof.
  intros k w. destruct (map_get k (sessions w)) as [s|] eqn:E.
  - now destruct (cleanup_live k w s E) as (_ & _ & _ & H).
  - now rewrite cleanup_absent.
Qed.

(** *** Invariants that may depend on the timers and on the validity of
    the phone that a request registers *)

Section FullInvariant.

Variable P : World -> Prop.

Hypothesis P_frame : forall w w',
  sessionManager w' = sessionManager w ->
  expiredFiles w' = expiredFiles w ->
  timers w' = timers w ->
  P w -> P w'.

Hypothesis P_update : forall k u w, P w -> P (updateSession k u w).

Hypothesis P_cleanup : forall k w, P w -> P (cleanupSession k w).

Hypothesis P_create : forall k clientIP validatedPhone w,
  canCreateSession clientIP (sessionManager w) = true ->
  validated validatedPhone ->
  P w -> P (createSession k clientIP validatedPhone w).

Hypothesis P_timer_add : forall t w, P w -> P (set_timers (timers w ++ [t]) w).

Hypothesis P_timer_fire : forall k due sessionId w,
  nth_error (timers w) k = Some (due, sessionId) ->
  P w -> P (cleanupSession sessionId (set_timers (drop_nth k (timers w)) w)).

Ltac kept :=
  match goal with
  | |- P (?f _ ?w) =>
      apply (P_frame w); [reflexivity | reflexivity | reflexivity | ]
  | |- P (?f _ _ ?w) =>
      apply (P_frame w); [reflexivity | reflexivity | reflexivity | ]
  end.

Lemma full_catch : forall sessionId message w,
  P w -> P (fst (pairing_catch sessionId message w)).
Proof.
  intros sessionId message w H. unfold pairing_catch; simpl.
  destruct (existsSync sessionId (tempDirs w)); [kept|]; exact H.
Qed.

Lemma full_resume : forall t r w, P w -> P (route_pair_resume t r w).
Proof.
  intros t r w H. unfold route_pair_resume.
  destruct r as [[code message|err]|]; kept; auto.
Qed.

Lemma full_continue : forall t wr, P (fst wr) -> P (continue_pair t wr).
Proof.
  intros t [w r] H. unfold continue_pair; simpl in *.
  destruct r as [st|r]; [kept; exact H|]. now apply full_resume.
Qed.

Lemma full_segment : forall requestId st k w w',
  (forall t w0, P w0 -> P (fst (k t w0))) ->
  resume_task requestId st k w = Some w' ->
  P w -> P w'.
Proof.
  intros requestId st k w w' Hk Hr H. unfold resume_task in Hr.
  destruct (take_task requestId (tasks w)) as [[t rest]|]; [|discriminate].
  destruct (Stage_eqb (t_stage t) st); [|discriminate].
  injection Hr as <-. apply full_continue, Hk. kept; exact H.
Qed.

Lemma full_step : forall w e w', step w e = Some w' -> P w -> P w'.
Proof.
  intros w e w' Hs H.
  destruct e as [number clientIP requestId bytes | requestId r | requestId r
                | requestId r | sessionId u | sessionId c | k | dt
                | key sessionId]; simpl in Hs.
  - injection Hs as <-. unfold route_pair.
    destruct (query_text number) as [raw|]; [|exact H].
    unfold route_pair_text.
    destruct (String.eqb _ EmptyString); [kept; exact H|].
    destruct (validatePhoneNumber _) as [validatedPhone|] eqn:Hv;
      [|kept; exact H].
    destruct (canCreateSession clientIP (sessionManager w)) eqn:Hcap; simpl;
      [|kept; exact H].
    kept. apply P_create; auto. eapply GenIdProofs.validate_fixed; eauto.
  - eapply full_segment; [|exact Hs|exact H].
    intros t w0 H0. unfold pairing_after_ensureDir.
    destruct r as [u|message]; [|now apply full_catch].
    simpl. destruct (existsSync _ (tempDirs w0)); [|kept]; exact H0.
  - eapply full_segment; [|exact Hs|exact H].
    intros t w0 H0. unfold pairing_after_authState.
    destruct r as [state|message]; [|now apply full_catch].
    destruct (makeWASocket state) as [sock|message]; [|now apply full_catch].
    destruct (negb (registered state)); simpl; kept; auto.
  - eapply full_segment; [|exact Hs|exact H].
    intros t w0 H0. unfold pairing_after_code. destruct r; exact H0.
  - destruct (find_sock sessionId (handlers w)) as [sock|]; [|discriminate].
    injection Hs as <-. unfold on_connection_update.
    destruct u as [|[e|]|]; auto.
    + kept; auto.
    + destruct (isLoggedOut e); auto.
  - destruct (find_sock sessionId (tails w)) as [sock|]; [|discriminate].
    injection Hs as <-. unfold on_open_tail.
    apply P_timer_add.
    destruct (ws sock); [destruct c|]; try kept; try kept; exact H.
  - destruct (nth_error (timers w) k) as [[due sessionId]|] eqn:Hk; [|discriminate].
    destruct (due <=? now w)%Z; [|discriminate].
    injection Hs as <-. eapply P_timer_fire; eauto.
  - destruct (0 <=? dt)%Z; [|discriminate].
    injection Hs as <-. kept; exact H.
  - injection Hs as <-. unfold route_cleanup.
    destruct (negb _); [kept; exact H|].
    destruct sessionId as [sid|]; [|kept; exact H].
    destruct (String.eqb sid EmptyString); kept; auto.
Qed.

Lemma full_run : forall es w w', run w es = Some w' -> P w -> P w'.
Proof.
  induction es as [|e r IH]; intros w w' Hr H; simpl in Hr.
  - now injection Hr as <-.
  - destruct (step w e) as [w1|] eqn:Hs; [|discriminate].
    eapply IH; eauto. eapply full_step; eauto.
Qed.

End FullInvariant.

(** *** One entry per identifier *)

Lemma keyed_frame : forall w w',
  sessionManager w' = sessionManager w -> keyed_by_id w -> keyed_by_id w'.
Proof.
  unfold keyed_by_id, sessions. intros w w' ->. tauto.
Qed.

Lemma keyed_update : forall k u w, keyed_by_id w -> keyed_by_id (updateSession k u w).
Proof.
  intros k u w [Hnd Hid]. unfold keyed_by_id. rewrite update_sessions.
  destruct (map_get k (sessions w)) as [s|] eqn:E; [|now split].
  split; [now apply NoDup_map_set|].
  intros a x Hin. destruct (In_map_set _ _ _ _ _ Hin) as [[-> ->]|Hold].
  - simpl. apply Hid. now apply map_get_In.
  - now apply Hid.
Qed.

Lemma keyed_cleanup : forall k w, keyed_by_id w -> keyed_by_id (cleanupSession k w).
Proof.
  intros k w [Hnd Hid]. unfold keyed_by_id. rewrite cleanup_sessions.
  split; [now apply NoDup_map_delete|].
  intros a x Hin. apply In_map_delete in Hin. now apply Hid.
Qed.

Lemma keyed_create : forall k clientIP validatedPhone w,
  keyed_by_id w -> keyed_by_id (createSession k clientIP validatedPhone w).
Proof.
  intros k clientIP validatedPhone w [Hnd Hid]. unfold keyed_by_id, createSession.
  change (sessions (set_timers ?t (set_sessions ?m w))) with m.
  split; [now apply NoDup_map_set|].
  intros a x Hin. destruct (In_map_set _ _ _ _ _ Hin) as [[-> ->]|Hold].
  - reflexivity.
  - now apply Hid.
Qed.

Lemma keyed_run : forall es w w', run w es = Some w' -> keyed_by_id w -> keyed_by_id w'.
Proof.
  intros es w w'. apply (full_run keyed_by_id).
  - intros w0 w1 Hm _ _. now apply keyed_frame.
  - apply keyed_update.
  - apply keyed_cleanup.
  - intros. now apply keyed_create.
  - intros t w0 H. eapply keyed_frame; [|exact H]. reflexivity.
  - intros k due sessionId w0 _ H. apply keyed_cleanup.
    eapply keyed_frame; [|exact H]. reflexivity.
Qed.

(** X4.  In every world that the event loop reaches, no session id has two
    entries in the registry and every entry is stored under the [id] of
    its session, so looking an id up finds exactly the entries of the
    registry. *)
Theorem registry_keyed_by_id :
  forall (env_timeout env_max : option Z) (cleanup_key : option string) (t0 : Z)
         (w : World),
  reachable env_timeout env_max cleanup_key t0 w ->
  keyed_by_id w /\
  (forall k s, map_get k (sessions w) = Some s <-> In (k, s) (sessions w)).
Proof.
  intros env_timeout env_max cleanup_key t0 w [es Hes].
  assert (K : keyed_by_id w).
  { eapply keyed_run; [exact Hes|]. split; [constructor|]. intros k s []. }
  split; [exact K|].
  intros k s. split; [apply map_get_In|]. apply In_map_get, K.
Qed.

Lemma registry_keyed_by_id_witness :
  NoDup (map fst (sessions Scenarios.wA)).
Proof.
  destruct (registry_keyed_by_id None None (Some "k") 1000 Scenarios.wA)
    as ([H _] & _).
  - exists Scenarios.scenario_A. vm_compute. reflexivity.
  - exact H.
Defined.

(** *** Phones are validated *)

Lemma phones_frame : forall w w',
  sessionManager w' = sessionManager w ->
  expiredFiles w' = expiredFiles w ->
  phones_validated w -> phones_validated w'.
Proof.
  unfold phones_validated, sessions. intros w w' -> ->. tauto.
Qed.

Lemma phones_update : forall k u w,
  phones_validated w -> phones_validated (updateSession k u w).
Proof.
  intros k u w [Hl Ha]. unfold phones_validated.
  rewrite update_sessions, (proj1 (update_untouched k u w)).
  split; [|exact Ha].
  destruct (map_get k (sessions w)) as [s|] eqn:E; [|exact Hl].
  intros a x Hin. destruct (In_map_set _ _ _ _ _ Hin) as [[-> ->]|Hold].
  - simpl. apply (Hl k s). now apply map_get_In.
  - eapply Hl; eauto.
Qed.

Lemma phones_cleanup : forall k w,
  phones_validated w -> phones_validated (cleanupSession k w).
Proof.
  intros k w [Hl Ha]. unfold phones_validated.
  rewrite cleanup_sessions, cleanup_files. split.
  - intros a x Hin. apply In_map_delete in Hin. eapply Hl; apply Hin.
  - destruct (map_get k (sessions w)) as [s|] eqn:E; [|exact Ha].
    intros a x Hin. apply in_app_iff in Hin. destruct Hin as [Hin|[Hin|[]]].
    + eapply Ha; eauto.
    + injection Hin as <- <-. simpl. apply (Hl k s). now apply map_get_In.
Qed.

Lemma phones_create : forall k clientIP validatedPhone w,
  validated validatedPhone ->
  phones_validated w -> phones_validated (createSession k clientIP validatedPhone w).
Proof.
  intros k clientIP validatedPhone w Hv [Hl Ha]. unfold phones_validated, createSession.
  change (sessions (set_timers ?t (set_sessions ?m w))) with m.
  split; [|exact Ha].
  intros a x Hin. destruct (In_map_set _ _ _ _ _ Hin) as [[-> ->]|Hold].
  - exact Hv.
  - eapply Hl; eauto.
Qed.

Lemma phones_run : forall es w w',
  run w es = Some w' -> phones_validated w -> phones_validated w'.
Proof.
  intros es w w'. apply (full_run phones_validated).
  - intros w0 w1 Hm Hf _. now apply phones_frame.
  - apply phones_update.
  - apply phones_cleanup.
  - intros. now apply phones_create.
  - intros t w0 H. eapply phones_frame; [| |exact H]; reflexivity.
  - intros k due sessionId w0 _ H. apply phones_cleanup.
    eapply phones_frame; [| |exact H]; reflexivity.
Qed.

(** X5.  In every world that the event loop reaches, the phone of every live
    session and of every archived record is a number that
    [validatePhoneNumber] returns unchanged: 10 to 15 digits, the first
    one not 0. *)
Theorem stored_phones_validated :
  forall (env_timeout env_max : option Z) (cleanup_key : option string) (t0 : Z)
         (w : World),
  reachable env_timeout env_max cleanup_key t0 w ->
  (forall k s, In (k, s) (sessions w) ->
     validatePhoneNumber (phone s) = Some (phone s) /\
     (10 <= String.length (phone s) <= 15)%nat /\
     begins_with_country_code (phone s)) /\
  (forall k a, In (k, a) (expiredFiles w) ->
     validatePhoneNumber (phone (a_session a)) = Some (phone (a_session a))).
Proof.
  intros env_timeout env_max cleanup_key t0 w [es Hes].
  assert (V : phones_validated w).
  { eapply phones_run; [exact Hes|]. split; intros k s []. }
  destruct V as [Hl Ha]. split; [|exact Ha].
  intros k s Hin. pose proof (Hl k s Hin) as Hv.
  split; [exact Hv|].
  apply GenIdProofs.validated_shape in Hv. tauto.
Qed.

Lemma stored_phones_validated_witness :
  validatePhoneNumber "923123456789" = Some "923123456789".
Proof.
  destruct (stored_phones_validated None None (Some "k") 1000 Scenarios.wA)
    as (H & _).
  - exists Scenarios.scenario_A. vm_compute. reflexivity.
  - apply (H Scenarios.sidA
             (mkSession Scenarios.sidA "10.0.0.1" "923123456789" 1000
                paired (Some Scenarios.sock7) (Some "123-456") None)).
    vm_compute. left. reflexivity.
Defined.

(** *** Every live session has its timer *)

Lemma In_drop_nth : forall {A} (x y : A) k l,
  In x l -> nth_error l k = Some y -> x <> y -> In x (drop_nth k l).
Proof.
  intros A x y k l. revert k.
  induction l as [|a r IH]; intros k Hin Hk Hne; [destruct Hin|].
  destruct k as [|k]; simpl in *.
  - injection Hk as ->. destruct Hin as [->|Hin]; [congruence|exact Hin].
  - destruct Hin as [->|Hin]; [now left|right]. eapply IH; eauto.
Qed.

Lemma timer_frame : forall w w',
  sessionManager w' = sessionManager w ->
  timers w' = timers w ->
  timer_pending w -> timer_pending w'.
Proof.
  unfold timer_pending, sessions. intros w w' -> ->. tauto.
Qed.

Lemma timer_update : forall k u w, timer_pending w -> timer_pending (updateSession k u w).
Proof.
  intros k u w H sessionId s'.
  destruct (update_untouched k u w) as (_ & -> & _ & _ & _ & _ & _ & -> & _).
  rewrite update_sessions.
  destruct (map_get k (sessions w)) as [s|] eqn:E; [|apply H].
  destruct (String.eqb_spec sessionId k) as [->|Hne].
  - rewrite map_get_set_same. intros Hs. injection Hs as <-.
    simpl startedAt. now apply H.
  - rewrite map_get_set_other by exact Hne. apply H.
Qed.

Lemma timer_cleanup : forall k w, timer_pending w -> timer_pending (cleanupSession k w).
Proof.
  intros k w H sessionId s'.
  rewrite (proj1 (cleanup_untouched k w)), (proj1 (cleanup_manager_config k w)).
  rewrite cleanup_sessions.
  destruct (String.eqb_spec sessionId k) as [->|Hne].
  - now rewrite map_get_delete_same.
  - rewrite map_get_delete_other by exact Hne. apply H.
Qed.

Lemma timer_create : forall k clientIP validatedPhone w,
  timer_pending w -> timer_pending (createSession k clientIP validatedPhone w).
Proof.
  intros k clientIP validatedPhone w H sessionId s'. unfold createSession.
  change (sessions (set_timers ?t (set_sessions ?m w))) with m.
  cbn [timers set_timers sessionManager set_sessions sessionTimeout now].
  destruct (String.eqb_spec sessionId k) as [->|Hne].
  - rewrite map_get_set_same. intros Hs. injection Hs as <-.
    exists (now w + setTimeout_delay (sessionTimeout (sessionManager w)))%Z. split.
    + apply in_or_app. right. now left.
    + simpl. lia.
  - rewrite map_get_set_other by exact Hne. intros Hs.
    destruct (H sessionId s' Hs) as (due & Hin & Hle).
    exists due. split; [apply in_or_app; now left|exact Hle].
Qed.

Lemma timer_add : forall t w,
  timer_pending w -> timer_pending (set_timers (timers w ++ [t]) w).
Proof.
  intros t w H sessionId s Hs.
  destruct (H sessionId s Hs) as (due & Hin & Hle).
  exists due. split; [simpl; apply in_or_app; now left|exact Hle].
Qed.

Lemma timer_fire : forall k due sessionId w,
  nth_error (timers w) k = Some (due, sessionId) ->
  timer_pending w ->
  timer_pending (cleanupSession sessionId (set_timers (drop_nth k (timers w)) w)).
Proof.
  intros k due sessionId w Hk H sid s'.
  set (w1 := set_timers (drop_nth k (timers w)) w).
  rewrite (proj1 (cleanup_untouched sessionId w1)),
          (proj1 (cleanup_manager_config sessionId w1)).
  rewrite cleanup_sessions.
  change (sessions w1) with (sessions w).
  change (timers w1) with (drop_nth k (timers w)).
  change (sessionManager w1) with (sessionManager w).
  destruct (String.eqb_spec sid sessionId) as [->|Hne].
  - now rewrite map_get_delete_same.
  - rewrite map_get_delete_other by exact Hne. intros Hs.
    destruct (H sid s' Hs) as (due' & Hin & Hle).
    exists due'. split; [|exact Hle].
    eapply In_drop_nth; eauto. congruence.
Qed.

Lemma timer_run : forall es w w',
  run w es = Some w' -> timer_pending w -> timer_pending w'.
Proof.
  intros es w w'. apply (full_run timer_pending).
  - intros w0 w1 Hm _ Ht. now apply timer_frame.
  - apply timer_update.
  - apply timer_cleanup.
  - intros. now apply timer_create.
  - apply timer_add.
  - apply timer_fire.
Qed.

(** X6.  In every world that the event loop reaches, every live session has a
    pending timer that will call [cleanupSession] for it, due no later
    than the delay of [setTimeout] after the session started: the session
    timeout if that is between 1 and 2147483647 ms, and 1 ms otherwise;
    and that timer can fire, removing the session, once the clock has
    reached its due time. *)
Theorem live_sessions_have_timer :
  forall (env_timeout env_max : option Z) (cleanup_key : option string) (t0 : Z)
         (w : World),
  reachable env_timeout env_max cleanup_key t0 w ->
  forall sessionId s,
    map_get sessionId (sessions w) = Some s ->
    exists due k,
      nth_error (timers w) k = Some (due, sessionId) /\
      ((1 <= sessionTimeout (sessionManager w) <= 2147483647)%Z ->
       (due <= startedAt s + sessionTimeout (sessionManager w))%Z) /\
      ((sessionTimeout (sessionManager w) < 1 \/
        2147483647 < sessionTimeout (sessionManager w))%Z ->
       (due <= startedAt s + 1)%Z) /\
      ((due <= now w)%Z ->
       exists w', step w (TimerFired k) = Some w' /\
                  map_get sessionId (sessions w') = None /\
                  ~ In sessionId (map fst (sessions w'))).
Proof.
  intros env_timeout env_max cleanup_key t0 w [es Hes] sessionId s Hs.
  assert (T : timer_pending w).
  { eapply timer_run; [exact Hes|]. intros k s0 H0. discriminate H0. }
  destruct (T sessionId s Hs) as (due & Hin & Hle).
  apply In_nth_error in Hin. destruct Hin as [k Hk].
  destruct (OrchestratorProofs.setTimeout_delay_cases
              (sessionTimeout (sessionManager w))) as [Hin_range Hout].
  exists due, k. split; [exact Hk|].
  split; [intros Hr; rewrite (Hin_range Hr) in Hle; exact Hle|].
  split; [intros Hr; rewrite (Hout Hr) in Hle; exact Hle|].
  intros Hdue. unfold step. rewrite Hk.
  apply Z.leb_le in Hdue. rewrite Hdue.
  eexists. split; [reflexivity|].
  rewrite cleanup_sessions. split; [apply map_get_delete_same|].
  intros Hin. apply in_map_iff in Hin. destruct Hin as ([k0 v] & Ek & Hin).
  apply In_map_delete in Hin. simpl in Ek. subst k0. now destruct Hin.
Qed.

Lemma live_sessions_have_timer_witness :
  exists due k,
    nth_error (timers Scenarios.wA) k = Some (due, Scenarios.sidA) /\
    (due <= 1000 + 300000)%Z.
Proof.
  destruct (live_sessions_have_timer None None (Some "k") 1000 Scenarios.wA)
    with (sessionId := Scenarios.sidA)
         (s := mkSession Scenarios.sidA "10.0.0.1" "923123456789" 1000
                 paired (Some Scenarios.sock7) (Some "123-456") None)
    as (due & k & Hk & Hle & _).
  - exists Scenarios.scenario_A. vm_compute. reflexivity.
  - vm_compute. reflexivity.
  - exists due, k. split; [exact Hk|]. apply Hle. simpl. lia.
Defined.

(** *** Every request is answered once *)

Lemma take_task_filter : forall (p : Task -> bool) requestId ts t rest,
  take_task requestId ts = Some (t, rest) ->
  List.length (filter p ts)
  = (List.length (filter p rest) + (if p t then 1 else 0))%nat.
Proof.
  intros p requestId ts. induction ts as [|t0 r IH]; simpl; intros t rest H.
  - discriminate.
  - destruct (String.eqb (t_requestId t0) requestId).
    + injection H as <- <-. destruct (p t0); simpl; lia.
    + destruct (take_task requestId r) as [[t' r']|] eqn:E; [|discriminate].
      injection H as <- <-. pose proof (IH t' r' eq_refl) as IH'.
      simpl. destruct (p t0); simpl; lia.
Qed.

Lemma counts_io : forall requestId w w',
  responses w' = responses w -> tasks w' = tasks w ->
  counts requestId w' = counts requestId w.
Proof.
  intros requestId w w' Hr Ht. unfold counts, answers, waiting, admin_answers.
  now rewrite Hr, Ht.
Qed.

Lemma counts_respond : forall requestId n rid e m w,
  counts requestId (respond n (PairError rid e m) w)
  = plus2 (counts requestId w) (if String.eqb rid requestId then 1 else 0) 0.
Proof.
  intros requestId n rid e m w.
  unfold counts, plus2, answers, waiting, admin_answers.
  cbn [responses tasks respond fst snd].
  rewrite !filter_app, !length_app.
  cbn [filter body body_requestId].
  destruct (String.eqb rid requestId); cbn [List.length]; f_equal; lia.
Qed.

Lemma counts_issue : forall requestId n rid c m k x i w,
  counts requestId (respond n (PairIssued rid c m k x i) w)
  = plus2 (counts requestId w) (if String.eqb rid requestId then 1 else 0) 0.
Proof.
  intros requestId n rid c m k x i w.
  unfold counts, plus2, answers, waiting, admin_answers.
  cbn [responses tasks respond fst snd].
  rewrite !filter_app, !length_app.
  cbn [filter body body_requestId].
  destruct (String.eqb rid requestId); cbn [List.length]; f_equal; lia.
Qed.

Lemma counts_park : forall requestId t w,
  counts requestId (set_tasks (tasks w ++ [t]) w)
  = plus2 (counts requestId w)
      (if String.eqb (t_requestId t) requestId then 1 else 0) 0.
Proof.
  intros requestId t w.
  unfold counts, plus2, answers, waiting, admin_answers.
  cbn [responses tasks set_tasks fst snd].
  rewrite !filter_app, !length_app.
  cbn [filter].
  destruct (String.eqb (t_requestId t) requestId); cbn [List.length]; f_equal; lia.
Qed.

Lemma counts_admin : forall requestId n b w,
  body_requestId b = None ->
  counts requestId (respond n b w) = plus2 (counts requestId w) 0 1.
Proof.
  intros requestId n b w Hb.
  unfold counts, plus2, answers, waiting, admin_answers.
  cbn [responses tasks respond fst snd].
  rewrite !filter_app, !length_app.
  cbn [filter body]. rewrite Hb. cbn [List.length]. f_equal; lia.
Qed.

Lemma counts_resume : forall requestId t r w,
  counts requestId (route_pair_resume t r w)
  = plus2 (counts requestId w)
      (if String.eqb (t_requestId t) requestId then 1 else 0) 0.
Proof.
  intros requestId t r w. unfold route_pair_resume.
  destruct r as [[code message|err]|].
  - rewrite counts_issue. f_equal. apply counts_io; apply update_untouched.
  - rewrite counts_respond. f_equal. apply counts_io; apply update_untouched.
  - apply counts_respond.
Qed.

Lemma counts_continue : forall requestId t w r,
  counts requestId (continue_pair t (w, r))
  = plus2 (counts requestId w)
      (if String.eqb (t_requestId t) requestId then 1 else 0) 0.
Proof.
  intros requestId t w r. unfold continue_pair. cbn [fst snd].
  destruct r as [st|r]; [|apply counts_resume].
  apply (counts_park requestId (mkTask (t_requestId t) (t_sessionId t) (t_phone t) st)).
Qed.

Lemma catch_io : forall sessionId message w,
  responses (fst (pairing_catch sessionId message w)) = responses w /\
  tasks (fst (pairing_catch sessionId message w)) = tasks w.
Proof.
  intros sessionId message w. unfold pairing_catch. cbn [fst].
  destruct (existsSync sessionId (tempDirs w)); split; reflexivity.
Qed.

Lemma counts_segment : forall requestId rid st k w w',
  (forall t w0, responses (fst (k t w0)) = responses w0 /\
                tasks (fst (k t w0)) = tasks w0) ->
  resume_task rid st k w = Some w' ->
  counts requestId w' = counts requestId w.
Proof.
  intros requestId rid st k w w' Hk Hr. unfold resume_task in Hr.
  destruct (take_task rid (tasks w)) as [[t rest]|] eqn:Ht; [|discriminate].
  destruct (Stage_eqb (t_stage t) st); [|discriminate].
  injection Hr as <-.
  destruct (k t (set_tasks rest w)) as [w1 r] eqn:Ek.
  rewrite counts_continue.
  destruct (Hk t (set_tasks rest w)) as [Hres Htask].
  rewrite Ek in Hres, Htask. cbn [fst] in Hres, Htask.
  rewrite (counts_io requestId (set_tasks rest w) w1 Hres Htask).
  unfold counts, plus2, answers, waiting, admin_answers.
  cbn [responses tasks set_tasks fst snd].
  rewrite (take_task_filter (fun t => String.eqb (t_requestId t) requestId)
             rid (tasks w) t rest Ht).
  f_equal; lia.
Qed.

Lemma step_counts : forall requestId w e w',
  step w e = Some w' ->
  counts requestId w'
  = plus2 (counts requestId w) (pair_request requestId e) (admin_request e).
Proof.
  intros requestId w e w' Hs.
  assert (Hz : forall c, plus2 c 0 0 = c)
    by (intros [a b]; unfold plus2; cbn [fst snd]; f_equal; lia).
  destruct e as [number clientIP rid bytes | rid r | rid r
                | rid r | sessionId u | sessionId c | k | dt
                | key sessionId]; unfold step in Hs;
    cbn [pair_request admin_request]; rewrite ?Hz.
  - injection Hs as <-. unfold route_pair.
    destruct number as [|n|]; cbn [query_text]; rewrite ?Hz; try reflexivity;
      unfold route_pair_text;
      (destruct (String.eqb _ EmptyString); [apply counts_respond|]);
      (destruct (validatePhoneNumber _) as [validatedPhone|];
         [|apply counts_respond]);
      (destruct (negb _); [apply counts_respond|]);
      match goal with
      | |- counts _ (set_tasks (tasks ?w1 ++ [?t]) ?w1) = _ =>
          rewrite (counts_park requestId t w1); cbn [t_requestId]; f_equal;
          apply counts_io; reflexivity
      end.
  - eapply counts_segment; [|exact Hs].
    intros t w0. cbv beta. unfold pairing_after_ensureDir.
    destruct r as [u|message]; [|apply catch_io].
    cbn [fst]. destruct (existsSync _ (tempDirs w0)); split; reflexivity.
  - eapply counts_segment; [|exact Hs].
    intros t w0. cbv beta. unfold pairing_after_authState.
    destruct r as [state|message]; [|apply catch_io].
    destruct (makeWASocket state) as [sock|message]; [|apply catch_io].
    destruct (negb (registered state)); cbn [fst];
      cbn [responses tasks set_handlers];
      destruct (update_untouched (t_sessionId t)
                  (mkUpdates None None None (Some sock)) w0)
        as (_ & _ & -> & -> & _); split; reflexivity.
  - eapply counts_segment; [|exact Hs].
    intros t w0. cbv beta. unfold pairing_after_code.
    destruct r; split; reflexivity.
  - destruct (find_sock sessionId (handlers w)) as [sock|]; [|discriminate].
    injection Hs as <-. apply counts_io; unfold on_connection_update;
      destruct u as [|[e|]|]; try reflexivity;
      try (destruct (isLoggedOut e)); cbn [responses tasks set_tails];
      apply update_untouched.
  - destruct (find_sock sessionId (tails w)) as [sock|]; [|discriminate].
    injection Hs as <-. apply counts_io; unfold on_open_tail;
      (destruct (ws sock); [destruct c|]); reflexivity.
  - destruct (nth_error (timers w) k) as [[due sessionId]|]; [|discriminate].
    destruct (due <=? now w)%Z; [|discriminate].
    injection Hs as <-.
    destruct (cleanup_untouched sessionId (set_timers (drop_nth k (timers w)) w))
      as (_ & Ht & Hr & _).
    apply counts_io; [exact Hr|exact Ht].
  - destruct (0 <=? dt)%Z; [|discriminate].
    injection Hs as <-. apply counts_io; reflexivity.
  - injection Hs as <-. unfold route_cleanup.
    destruct (negb _); [apply counts_admin; reflexivity|].
    destruct sessionId as [sid|]; [|apply counts_admin; reflexivity].
    destruct (String.eqb sid EmptyString); rewrite counts_admin by reflexivity;
      [reflexivity|].
    f_equal. apply counts_io; apply cleanup_untouched.
Qed.

Lemma run_counts : forall es requestId w w',
  run w es = Some w' ->
  counts requestId w'
  = plus2 (counts requestId w) (pair_requests requestId es) (admin_requests es).
Proof.
  induction es as [|e r IH]; intros requestId w w' Hr; simpl in Hr.
  - injection Hr as <-. unfold plus2, pair_requests, admin_requests.
    destruct (counts requestId w) as [a b]. cbn. f_equal; lia.
  - destruct (step w e) as [w1|] eqn:Hs; [|discriminate].
    rewrite (IH requestId w1 w' Hr), (step_counts requestId w e w1 Hs).
    unfold plus2, pair_requests, admin_requests. cbn [fst snd map list_sum fold_right].
    fold (list_sum (map (pair_request requestId) r)).
    fold (list_sum (map admin_request r)).
    f_equal; lia.
Qed.

(** X7.  Along every run of the event loop and for every request id, the
    responses that carry the id plus the suspended [GET /] handlers of the
    id grow by exactly the number of requests to [GET /] with that id
    whose [number] parameter is a string or is absent: each such request
    is answered once or still waits, none is answered twice and none is
    dropped, and no step answers one request in place of another.  The
    responses of [POST /cleanup] grow by exactly the number of its
    requests.  A request to [GET /] whose [number] parameter is an array
    or an object is not answered at all: its handler throws before the
    [try], and the world stays as it was. *)
Theorem every_request_answered_once :
  forall (es : list Event) (w w' : World) (requestId : string),
  run w es = Some w' ->
  (answers requestId w' + waiting requestId w'
   = answers requestId w + waiting requestId w + pair_requests requestId es)%nat /\
  admin_answers w' = (admin_answers w + admin_requests es)%nat /\
  (forall clientIP bytes,
     step w' (Request QOther clientIP requestId bytes) = Some w').
Proof.
  intros es w w' requestId Hr.
  pose proof (run_counts es requestId w w' Hr) as H.
  unfold counts, plus2 in H. cbn [fst snd] in H.
  injection H as H1 H2.
  split; [exact H1|]. split; [exact H2|].
  intros clientIP bytes. reflexivity.
Qed.

Lemma every_request_answered_once_witness :
  answers "req-1" Scenarios.wA = 1%nat /\
  waiting "req-1" Scenarios.wA = 0%nat /\
  pair_requests "req-1" Scenarios.scenario_A = 1%nat /\
  ((answers "req-1" Scenarios.wA + waiting "req-1" Scenarios.wA
    = answers "req-1" Scenarios.w0 + waiting "req-1" Scenarios.w0
      + pair_requests "req-1" Scenarios.scenario_A)%nat /\
   admin_answers Scenarios.wA
   = (admin_answers Scenarios.w0 + admin_requests Scenarios.scenario_A)%nat /\
   (forall clientIP bytes,
      step Scenarios.wA (Request QOther clientIP "req-1" bytes) = Some Scenarios.wA)).
Proof.
  split; [vm_compute; reflexivity|].
  split; [vm_compute; reflexivity|].
  split; [vm_compute; reflexivity|].
  apply (every_request_answered_once
           Scenarios.scenario_A Scenarios.w0 Scenarios.wA "req-1").
  vm_compute. reflexivity.
Defined.

End InvariantProofs.

(* ================================================================== *)
(** ** Failure paths of the pairing *)
(* ================================================================== *)

Module FailureProofs.
Import GenId Pair Notions Invariants RegistryProofs InvariantProofs.
#[local] Open Scope list_scope.

Lemma or_text_nonempty : forall m d, d <> EmptyString -> or_text m d <> EmptyString.
Proof.
  intros m d Hd. unfold or_text.
  destruct (String.eqb_spec m EmptyString); assumption.
Qed.

Lemma update_live_count : forall clientIP k u w,
  live_count clientIP (updateSession k u w) = live_count clientIP w.
Proof.
  intros clientIP k u w. unfold live_count. rewrite update_sessions.
  destruct (map_get k (sessions w)) as [s|] eqn:E; [|reflexivity].
  pose proof (count_address_set clientIP k (assign s u) (sessions w)) as H.
  unfold held_by in H. rewrite E in H. simpl in H. lia.
Qed.

(** What the route does with a failure result of the pairing function. *)
Lemma failure_recorded : forall t err w,
  let w' := route_pair_resume t (Some (Failure err)) w in
  let marked := mkUpdates (Some failed) None (Some err) None in
  responses w' = responses w ++ [mkResponse 500 (PairError (t_requestId t) "PAIRING_FAILED" err)] /\
  (forall s, map_get (t_sessionId t) (sessions w) = Some s ->
     map_get (t_sessionId t) (sessions w') = Some (assign s marked)) /\
  (map_get (t_sessionId t) (sessions w) = None -> sessions w' = sessions w) /\
  (forall clientIP, live_count clientIP w' = live_count clientIP w) /\
  tempDirs w' = tempDirs w /\
  timers w' = timers w /\
  handlers w' = handlers w /\
  expiredFiles w' = expiredFiles w /\
  tasks w' = tasks w.
Proof.
  intros t err w w' marked. unfold w', route_pair_resume.
  cbn [responses respond tempDirs timers handlers expiredFiles tasks].
  destruct (update_untouched (t_sessionId t) marked w)
    as (Hf & Ht & Hk & Hr & Hd & _).
  fold marked. rewrite Hr, Hd, Ht, Hf, Hk.
  split; [reflexivity|].
  change (sessions (respond ?n ?b ?x)) with (sessions x).
  rewrite update_sessions.
  split.
  { intros s Hs. rewrite Hs. apply map_get_set_same. }
  split.
  { intros Hs. now rewrite Hs. }
  split.
  { intros clientIP.
    change (live_count clientIP (respond ?n ?b ?x)) with (live_count clientIP x).
    apply update_live_count. }
  repeat split. unfold updateSession.
  destruct (map_get (t_sessionId t) (sessions w)); reflexivity.
Qed.

(** X8.  When the pairing-code request rejects, the route answers 500
    PAIRING_FAILED with the error's message, or with a fixed text if the
    message is empty, and marks the session [failed] with that text if it
    is still live.  The session stays in the registry and keeps counting
    against its address, and its temporary directory, its timer and its
    connection handler stay as they were. *)
Theorem pairing_code_rejected :
  forall (w : World) (requestId message : string) (t : Task) (rest : list Task),
  take_task requestId (tasks w) = Some (t, rest) ->
  t_stage t = AwaitPairingCode ->
  let err := or_text message "Failed to generate pairing code" in
  let marked := mkUpdates (Some failed) None (Some err) None in
  err <> EmptyString /\
  exists w',
    step w (PairingCodeDone requestId (Rejected message)) = Some w' /\
    responses w' =
      responses w ++ [mkResponse 500 (PairError requestId "PAIRING_FAILED" err)] /\
    (forall s, map_get (t_sessionId t) (sessions w) = Some s ->
       map_get (t_sessionId t) (sessions w') = Some (assign s marked) /\
       status (assign s marked) = failed /\
       error (assign s marked) = Some err) /\
    (map_get (t_sessionId t) (sessions w) = None -> sessions w' = sessions w) /\
    (forall clientIP, live_count clientIP w' = live_count clientIP w) /\
    tempDirs w' = tempDirs w /\
    timers w' = timers w /\
    handlers w' = handlers w /\
    tasks w' = rest.
Proof.
  intros w requestId message t rest Ht Hst err marked.
  split; [apply or_text_nonempty; discriminate|].
  pose proof (OrchestratorProofs.take_task_id _ _ _ _ Ht) as Hid.
  unfold step, resume_task. rewrite Ht, Hst. simpl Stage_eqb. cbv iota.
  eexists. split; [reflexivity|].
  unfold continue_pair, pairing_after_code. cbn [fst snd].
  destruct (failure_recorded t err (set_tasks rest w))
    as (Hr & Hlive & Hdead & Hcount & Hd & Htm & Hh & _ & Hk).
  fold err. rewrite Hr, Hd, Htm, Hh, Hk, Hid.
  split; [reflexivity|].
  split.
  { intros s Hs. split; [now apply Hlive|]. now split. }
  split; [exact Hdead|].
  split; [exact Hcount|].
  repeat split.
Qed.

Lemma pairing_code_rejected_witness :
  exists w',
    step (Scenarios.after (firstn 3 Scenarios.scenario_A))
         (PairingCodeDone "req-1" (Rejected EmptyString)) = Some w' /\
    nth_error (responses w') 0
    = Some (mkResponse 500
              (PairError "req-1" "PAIRING_FAILED" "Failed to generate pairing code")).
Proof.
  destruct (pairing_code_rejected
              (Scenarios.after (firstn 3 Scenarios.scenario_A)) "req-1" EmptyString
              (mkTask "req-1" Scenarios.sidA "923123456789" AwaitPairingCode) [])
    as (_ & w' & Hs & Hr & _).
  - vm_compute. reflexivity.
  - reflexivity.
  - exists w'. split; [exact Hs|]. rewrite Hr. vm_compute. reflexivity.
Defined.

Lemma catch_then_resume : forall t message w0,
  let err := or_text message "WhatsApp connection failed" in
  let w' := continue_pair t (pairing_catch (t_sessionId t) message w0) in
  existsSync (t_sessionId t) (tempDirs w') = false /\
  responses w' =
    responses w0 ++
      [mkResponse 500 (PairError (t_requestId t) "PAIRING_FAILED" err)] /\
  (forall s, map_get (t_sessionId t) (sessions w0) = Some s ->
     map_get (t_sessionId t) (sessions w')
       = Some (assign s (mkUpdates (Some failed) None (Some err) None))) /\
  handlers w' = handlers w0 /\
  timers w' = timers w0 /\
  tasks w' = tasks w0.
Proof.
  intros t message w0 err w'. unfold w', continue_pair, pairing_catch.
  cbn [fst snd]. fold err.
  set (w1 := if existsSync (t_sessionId t) (tempDirs w0)
             then set_tempDirs (removeSync (t_sessionId t) (tempDirs w0)) w0
             else w0).
  assert (D : existsSync (t_sessionId t) (tempDirs w1) = false).
  { unfold w1. destruct (existsSync (t_sessionId t) (tempDirs w0)) eqn:E;
      [apply removeSync_gone|exact E]. }
  assert (S1 : sessions w1 = sessions w0 /\ responses w1 = responses w0 /\
               handlers w1 = handlers w0 /\ timers w1 = timers w0 /\
               tasks w1 = tasks w0).
  { unfold w1. destruct (existsSync (t_sessionId t) (tempDirs w0)); repeat split. }
  destruct S1 as (Es & Er & Eh & Et & Ek).
  destruct (failure_recorded t err w1)
    as (Hr & Hlive & _ & _ & Hd & Htm & Hh & _ & Hk).
  rewrite Hd, Hr, Hh, Htm, Hk, Er, Eh, Et, Ek.
  split; [exact D|]. split; [reflexivity|].
  split; [|repeat split].
  intros s Hs. apply Hlive. now rewrite Es.
Qed.

(** X9.  When [fs.ensureDir], [useMultiFileAuthState] or [makeWASocket]
    fails, the exception does not escape: the temporary directory of the
    session is gone afterwards, the route answers 500 PAIRING_FAILED with
    the error's message or a fixed text, a live session is marked
    [failed], and no connection handler is registered. *)
Theorem setup_failure_handled :
  forall (w : World) (requestId message : string) (t : Task) (rest : list Task)
         (e : Event),
  take_task requestId (tasks w) = Some (t, rest) ->
  setup_failure (t_stage t) requestId message e ->
  let err := or_text message "WhatsApp connection failed" in
  exists w',
    step w e = Some w' /\
    existsSync (t_sessionId t) (tempDirs w') = false /\
    responses w' =
      responses w ++ [mkResponse 500 (PairError requestId "PAIRING_FAILED" err)] /\
    (forall s, map_get (t_sessionId t) (sessions w) = Some s ->
       map_get (t_sessionId t) (sessions w')
         = Some (assign s (mkUpdates (Some failed) None (Some err) None))) /\
    handlers w' = handlers w /\
    timers w' = timers w /\
    tasks w' = rest.
Proof.
  intros w requestId message t rest e Ht Hfail err.
  pose proof (OrchestratorProofs.take_task_id _ _ _ _ Ht) as Hid.
  exists (continue_pair t (pairing_catch (t_sessionId t) message (set_tasks rest w))).
  split.
  - destruct Hfail as [[Hst ->]|[[Hst ->]|[Hst [reg ->]]]];
      unfold step, resume_task; rewrite Ht, Hst; reflexivity.
  - destruct (catch_then_resume t message (set_tasks rest w))
      as (Hd & Hr & Hlive & Hh & Htm & Hk).
    rewrite Hid in Hr. repeat split; assumption.
Qed.

Lemma setup_failure_handled_witness :
  exists w',
    step (Scenarios.after (firstn 1 Scenarios.scenario_A))
         (EnsureDirDone "req-1" (Rejected "EACCES")) = Some w' /\
    existsSync Scenarios.sidA (tempDirs w') = false /\
    tasks w' = [].
Proof.
  destruct (setup_failure_handled
              (Scenarios.after (firstn 1 Scenarios.scenario_A)) "req-1" "EACCES"
              (mkTask "req-1" Scenarios.sidA "923123456789" AwaitEnsureDir) []
              (EnsureDirDone "req-1" (Rejected "EACCES")))
    as (w' & Hs & Hd & _ & _ & _ & _ & Hk).
  - vm_compute. reflexivity.
  - left. split; reflexivity.
  - exists w'. repeat split; assumption.
Defined.

End FailureProofs.

(* ================================================================== *)
(** ** The routes and the operations of the registry *)
(* ================================================================== *)

Module RouteProofs.
Import GenId Pair Notions Invariants RegistryProofs InvariantProofs.
#[local] Open Scope list_scope.

Lemma validate_empty_strip : forall n,
  strip_non_digits n = EmptyString -> validatePhoneNumber n = None.
Proof.
  intros n H. unfold validatePhoneNumber. now rewrite H.
Qed.

Lemma canCreateSession_ltb : forall clientIP w,
  canCreateSession clientIP (sessionManager w)
  = (live_count clientIP w <? maxSessionsPerIP (sessionManager w))%Z.
Proof.
  intros clientIP w.
  pose proof (canCreateSession_iff clientIP w) as H.
  destruct (canCreateSession clientIP (sessionManager w));
    destruct (Z.ltb_spec (live_count clientIP w) (maxSessionsPerIP (sessionManager w)));
    try reflexivity.
  - exfalso. assert (true = true) as T by reflexivity. apply H in T. lia.
  - exfalso. apply H in H0. discriminate.
Qed.

(** X10.  A request to [GET /] whose [number] parameter is an array or an
    object changes nothing and is not answered.  Otherwise, with an absent
    parameter counting as the empty text, the route either rejects the
    request, and then the world differs only by the 400 or 429 response,
    or registers a session: a request is rejected with 400 exactly when
    [validatePhoneNumber] rejects the raw parameter, with 429 when the
    number is valid but the address has reached the maximum of live
    sessions, and otherwise the session is registered as [initializing]
    under the new id with the validated phone, its timer is armed with the
    configured timeout as delay if that is between 1 and 2147483647 ms and
    with 1 ms otherwise, the handler is suspended and no response is
    sent yet. *)
Theorem request_outcome :
  forall (number : QueryValue) (clientIP requestId : string) (bytes : list nat)
         (w : World),
  let w' := route_pair number clientIP requestId bytes w in
  let sessionId := generateSessionId 12 bytes in
  let timeout := sessionTimeout (sessionManager w) in
  match number with
  | QOther => w' = w
  | _ =>
      match validatePhoneNumber
              (match number with QString n => n | _ => EmptyString end) with
      | None =>
          exists text, w' = respond 400 (PairError requestId "VALIDATION_ERROR" text) w
      | Some validatedPhone =>
          if (live_count clientIP w <? maxSessionsPerIP (sessionManager w))%Z then
            map_get sessionId (sessions w')
              = Some (new_session sessionId clientIP validatedPhone (now w)) /\
            responses w' = responses w /\
            tasks w'
              = tasks w ++ [mkTask requestId sessionId validatedPhone AwaitEnsureDir] /\
            (exists delay,
               timers w' = timers w ++ [((now w + delay)%Z, sessionId)] /\
               ((1 <= timeout <= 2147483647)%Z -> delay = timeout) /\
               ((timeout < 1 \/ 2147483647 < timeout)%Z -> delay = 1%Z)) /\
            tempDirs w' = tempDirs w /\
            expiredFiles w' = expiredFiles w
          else
            exists text,
              w' = respond 429 (PairError requestId "RATE_LIMIT_EXCEEDED" text) w
      end
  end.
Proof.
  intros number clientIP requestId bytes w w' sessionId timeout.
  assert (G : forall raw,
    match validatePhoneNumber raw with
    | None =>
        exists text,
          route_pair_text raw clientIP requestId bytes w
          = respond 400 (PairError requestId "VALIDATION_ERROR" text) w
    | Some validatedPhone =>
        if (live_count clientIP w <? maxSessionsPerIP (sessionManager w))%Z then
          map_get sessionId (sessions (route_pair_text raw clientIP requestId bytes w))
            = Some (new_session sessionId clientIP validatedPhone (now w)) /\
          responses (route_pair_text raw clientIP requestId bytes w) = responses w /\
          tasks (route_pair_text raw clientIP requestId bytes w)
            = tasks w ++ [mkTask requestId sessionId validatedPhone AwaitEnsureDir] /\
          (exists delay,
             timers (route_pair_text raw clientIP requestId bytes w)
               = timers w ++ [((now w + delay)%Z, sessionId)] /\
             ((1 <= timeout <= 2147483647)%Z -> delay = timeout) /\
             ((timeout < 1 \/ 2147483647 < timeout)%Z -> delay = 1%Z)) /\
          tempDirs (route_pair_text raw clientIP requestId bytes w) = tempDirs w /\
          expiredFiles (route_pair_text raw clientIP requestId bytes w) = expiredFiles w
        else
          exists text,
            route_pair_text raw clientIP requestId bytes w
            = respond 429 (PairError requestId "RATE_LIMIT_EXCEEDED" text) w
    end).
  { intros raw. unfold route_pair_text.
    rewrite GenIdProofs.validate_prestripped.
    destruct (String.eqb_spec (strip_non_digits raw) EmptyString) as [E|_].
    - rewrite (validate_empty_strip raw E). now eexists.
    - destruct (validatePhoneNumber raw) as [validatedPhone|]; [|now eexists].
      rewrite <- canCreateSession_ltb.
      destruct (canCreateSession clientIP (sessionManager w)); simpl negb; cbv iota;
        [|now eexists].
      fold sessionId. unfold createSession.
      change (sessions (set_tasks ?t (set_timers ?tm (set_sessions ?m w)))) with m.
      split; [apply map_get_set_same|].
      split; [reflexivity|]. split; [reflexivity|].
      split; [|split; reflexivity].
      exists (setTimeout_delay timeout).
      split; [reflexivity|].
      apply OrchestratorProofs.setTimeout_delay_cases. }
  unfold w', route_pair.
  destruct number as [|n|]; cbn [query_text]; [apply G|apply G|reflexivity].
Qed.

Lemma request_outcome_witness :
  (exists text,
     route_pair (QString "123") "10.0.0.1" "req-1" Scenarios.bytesA Scenarios.w0
     = respond 400 (PairError "req-1" "VALIDATION_ERROR" text) Scenarios.w0) /\
  route_pair QOther "10.0.0.1" "req-1" Scenarios.bytesA Scenarios.w0 = Scenarios.w0.
Proof.
  split.
  - exact (request_outcome (QString "123") "10.0.0.1" "req-1" Scenarios.bytesA
             Scenarios.w0).
  - exact (request_outcome QOther "10.0.0.1" "req-1" Scenarios.bytesA Scenarios.w0).
Defined.

Lemma update_keys : forall k u w,
  map fst (sessions (updateSession k u w)) = map fst (sessions w).
Proof.
  intros k u w. rewrite update_sessions.
  destruct (map_get k (sessions w)) as [s|] eqn:E; [|reflexivity].
  eapply keys_map_set_live; eauto.
Qed.

(** X11.  [updateSession] keeps the ids of the registry and their order, and
    for every session its [id], [ip], [phone] and [startedAt]; sessions
    other than the named one are not changed at all, and neither are the
    archive, the timers and the temporary directories. *)
Theorem updateSession_keeps_identity :
  forall (k : string) (u : Updates) (w : World),
  let w' := updateSession k u w in
  map fst (sessions w') = map fst (sessions w) /\
  (forall k' s', map_get k' (sessions w') = Some s' ->
     exists s, map_get k' (sessions w) = Some s /\
               id s' = id s /\ ip s' = ip s /\ phone s' = phone s /\
               startedAt s' = startedAt s /\
               (k' <> k -> s' = s)) /\
  expiredFiles w' = expiredFiles w /\
  timers w' = timers w /\
  tempDirs w' = tempDirs w.
Proof.
  intros k u w w'. unfold w'.
  destruct (update_untouched k u w) as (Hf & Ht & _ & _ & Hd & _).
  rewrite Hf, Ht, Hd, update_sessions.
  split; [|split]; [| |repeat split].
  - rewrite <- update_sessions. apply update_keys.
  - intros k' s' Hs'.
    destruct (map_get k (sessions w)) as [s|] eqn:E.
    + destruct (String.eqb_spec k' k) as [->|Hne].
      * rewrite map_get_set_same in Hs'. injection Hs' as <-.
        exists s. repeat split; auto. congruence.
      * rewrite map_get_set_other in Hs' by exact Hne.
        exists s'. repeat split; auto.
    + exists s'. repeat split; auto.
Qed.

Lemma updateSession_keeps_identity_witness :
  map fst (sessions (updateSession Scenarios.sidA
                       (mkUpdates (Some connected) None None None) Scenarios.wA))
  = map fst (sessions Scenarios.wA).
Proof.
  apply (updateSession_keeps_identity Scenarios.sidA
           (mkUpdates (Some connected) None None None) Scenarios.wA).
Defined.

(** X12.  Registering a session under an id that is not live and cleaning it
    up again gives back the live set as it was and writes one record for
    the id, with status [initializing] and duration 0 if the clock has not
    moved; [cleanupSession] never cancels a timer, so the timer that
    [createSession] armed stays pending, with the configured timeout as
    delay if that is between 1 and 2147483647 ms and 1 ms otherwise. *)
Theorem create_then_cleanup :
  forall (k clientIP validatedPhone : string) (w : World),
  map_get k (sessions w) = None ->
  let w' := cleanupSession k (createSession k clientIP validatedPhone w) in
  sessions w' = sessions w /\
  expiredFiles w' =
    expiredFiles w ++
      [(k, {| a_session := new_session k clientIP validatedPhone (now w);
              endedAt := now w;
              duration := 0 |})] /\
  (exists delay,
     timers w' = timers w ++ [((now w + delay)%Z, k)] /\
     ((1 <= sessionTimeout (sessionManager w) <= 2147483647)%Z ->
        delay = sessionTimeout (sessionManager w)) /\
     ((sessionTimeout (sessionManager w) < 1 \/
       2147483647 < sessionTimeout (sessionManager w))%Z -> delay = 1%Z)) /\
  (forall k0 w0, timers (cleanupSession k0 w0) = timers w0).
Proof.
  intros k clientIP validatedPhone w Hfresh w'. unfold w'.
  set (w1 := createSession k clientIP validatedPhone w).
  assert (L : map_get k (sessions w1)
              = Some (new_session k clientIP validatedPhone (now w))).
  { unfold w1, createSession.
    change (sessions (set_timers ?t (set_sessions ?m w))) with m.
    apply map_get_set_same. }
  split; [|split; [|split]].
  - rewrite cleanup_sessions. unfold w1, createSession.
    change (sessions (set_timers ?t (set_sessions ?m w))) with m.
    now apply map_delete_set_fresh.
  - rewrite cleanup_files, L.
    change (expiredFiles w1) with (expiredFiles w).
    change (now w1) with (now w). simpl startedAt.
    now rewrite Z.sub_diag.
  - exists (setTimeout_delay (sessionTimeout (sessionManager w))).
    split; [now rewrite (proj1 (cleanup_untouched k w1))|].
    apply OrchestratorProofs.setTimeout_delay_cases.
  - intros k0 w0. apply cleanup_untouched.
Qed.

Lemma create_then_cleanup_witness :
  sessions (cleanupSession "fresh" (createSession "fresh" "10.0.0.3" "923000000000"
                                      Scenarios.wA))
  = sessions Scenarios.wA.
Proof.
  apply (create_then_cleanup "fresh" "10.0.0.3" "923000000000" Scenarios.wA).
  vm_compute. reflexivity.
Defined.

Lemma option_string_eqb_eq : forall a b : option string,
  option_string_eqb a b = true <-> a = b.
Proof.
  intros [x|] [y|]; simpl; split; try discriminate; try reflexivity.
  - intros H. apply String.eqb_eq in H. now subst.
  - intros H. injection H as ->. apply String.eqb_refl.
Qed.

(** X13.  The two administrator routes compare the [key] parameter with the
    environment variable by strict equality: a different key gets 403 and
    changes nothing, an equal key is served, and a request without a key
    is served as well when the variable is not set. *)
Theorem admin_key_check :
  forall (sha256_hex : string -> string) (env_STATS_KEY key sessionId : option string)
         (w : World),
  (key <> env_CLEANUP_KEY w ->
     route_cleanup key sessionId w = respond 403 Unauthorized w) /\
  (key = env_CLEANUP_KEY w ->
     exists text,
       route_cleanup key sessionId w
       = respond 200 (AdminReply true text) (cleaned_by_request sessionId w)) /\
  (key <> env_STATS_KEY ->
     StatsRoute.route_stats sha256_hex env_STATS_KEY key w
     = (403%Z, StatsRoute.StatsUnauthorized)) /\
  (key = env_STATS_KEY ->
     StatsRoute.route_stats sha256_hex env_STATS_KEY key w
     = (200%Z,
        StatsRoute.StatsReport (getStats sha256_hex w)
          (maxSessionsPerIP (sessionManager w))
          (sessionTimeout (sessionManager w)))).
Proof.
  intros sha256_hex env_STATS_KEY key sessionId w.
  unfold route_cleanup, StatsRoute.route_stats, cleaned_by_request.
  split; [|split; [|split]].
  - intros Hne.
    destruct (option_string_eqb key (env_CLEANUP_KEY w)) eqn:E; [|reflexivity].
    apply option_string_eqb_eq in E. contradiction.
  - intros He. apply option_string_eqb_eq in He. rewrite He. simpl negb. cbv iota.
    destruct sessionId as [sid|]; [|now eexists].
    destruct (String.eqb sid EmptyString); now eexists.
  - intros Hne.
    destruct (option_string_eqb key env_STATS_KEY) eqn:E; [|reflexivity].
    apply option_string_eqb_eq in E. contradiction.
  - intros He. apply option_string_eqb_eq in He. now rewrite He.
Qed.

Lemma admin_key_check_witness :
  exists text,
    route_cleanup None (Some Scenarios.sidA) (init None None None 0)
    = respond 200 (AdminReply true text)
        (cleaned_by_request (Some Scenarios.sidA) (init None None None 0)).
Proof.
  apply (admin_key_check (fun x => x) None None (Some Scenarios.sidA)
           (init None None None 0)).
  reflexivity.
Defined.

(** *** Connection events *)


Lemma update_handlers : forall k u w,
  handlers (updateSession k u w) = handlers w /\
  tails (updateSession k u w) = tails w.
Proof.
  intros k u w. unfold updateSession.
  destruct (map_get k (sessions w)); split; reflexivity.
Qed.

Lemma update_others : forall k u w k',
  k' <> k ->
  map_get k' (sessions (updateSession k u w)) = map_get k' (sessions w).
Proof.
  intros k u w k' Hne. rewrite update_sessions.
  destruct (map_get k (sessions w)); [|reflexivity].
  now apply map_get_set_other.
Qed.

(** What [updateSession] with a status and maybe an error does. *)
Lemma status_update : forall k st err w,
  let upd := mkUpdates (Some st) None err None in
  let w' := updateSession k upd w in
  map fst (sessions w') = map fst (sessions w) /\
  (forall k', k' <> k -> map_get k' (sessions w') = map_get k' (sessions w)) /\
  expiredFiles w' = expiredFiles w /\
  timers w' = timers w /\
  tempDirs w' = tempDirs w /\
  closed w' = closed w /\
  responses w' = responses w /\
  tasks w' = tasks w /\
  handlers w' = handlers w /\
  now w' = now w /\
  (forall s, map_get k (sessions w) = Some s ->
     map_get k (sessions w') = Some (assign s upd)) /\
  (map_get k (sessions w) = None -> sessions w' = sessions w) /\
  tails w' = tails w.
Proof.
  intros k st err w upd w'. unfold w'.
  destruct (update_untouched k upd w) as (Hf & Ht & Hk & Hr & Hd & Hc & Hn & _).
  destruct (update_handlers k upd w) as (Hh & Hl).
  split; [apply update_keys|].
  split; [intros k' Hne; now apply update_others|].
  split; [exact Hf|]. split; [exact Ht|]. split; [exact Hd|]. split; [exact Hc|].
  split; [exact Hr|]. split; [exact Hk|]. split; [exact Hh|]. split; [exact Hn|].
  rewrite update_sessions.
  split; [|split; [|exact Hl]].
  - intros s Hs. rewrite Hs. apply map_get_set_same.
  - intros Hs. now rewrite Hs.
Qed.

(** X14.  A [connection.update] event changes at most the status and the error
    of its own session.  That session keeps its id, address, phone, start
    time, socket and pairing code; every other session is exactly as it
    was; the ids of the registry and their order, the archive, the timers,
    the temporary directories, the closed transports, the responses, the
    suspended handlers, the registered connection handlers and the clock
    stay as they are.  A live session becomes [connected] on open, keeping
    its error, [logged_out] on a close whose error carries the logged-out
    code, and [disconnected] on a close with any other error; a close
    without an error and every other phase change nothing at all, and so
    does the event of a session that is no longer live, except that an
    open still schedules the rest of its handler. *)
Theorem connection_update_effect :
  forall (w : World) (sessionId : string) (sock : Socket) (u : ConnUpdate),
  find_sock sessionId (handlers w) = Some sock ->
  exists w',
    step w (ConnectionUpdate sessionId u) = Some w' /\
    map fst (sessions w') = map fst (sessions w) /\
    (forall k, k <> sessionId -> map_get k (sessions w') = map_get k (sessions w)) /\
    expiredFiles w' = expiredFiles w /\
    timers w' = timers w /\
    tempDirs w' = tempDirs w /\
    closed w' = closed w /\
    responses w' = responses w /\
    tasks w' = tasks w /\
    handlers w' = handlers w /\
    now w' = now w /\
    (forall s, map_get sessionId (sessions w) = Some s ->
       exists s',
         map_get sessionId (sessions w') = Some s' /\
         id s' = id s /\ ip s' = ip s /\ phone s' = phone s /\
         startedAt s' = startedAt s /\
         socket s' = socket s /\ pairingCode s' = pairingCode s /\
         match u with
         | ConnOpen => status s' = connected /\ error s' = error s
         | ConnClose (Some e) =>
             if isLoggedOut e
             then status s' = logged_out /\
                  error s' = Some "Logged out from WhatsApp"
             else status s' = disconnected /\ error s' = Some (dmessage e)
         | _ => s' = s
         end) /\
    (map_get sessionId (sessions w) = None -> sessions w' = sessions w) /\
    match u with
    | ConnOpen => tails w' = tails w ++ [(sessionId, sock)]
    | ConnClose (Some _) => tails w' = tails w
    | _ => w' = w
    end.
Proof.
  intros w sessionId sock u Hh. unfold step. rewrite Hh.
  eexists. split; [reflexivity|].
  unfold on_connection_update.
  destruct u as [|[e|]|].
  - destruct (status_update sessionId connected None w)
      as (Hk & Ho & Hf & Ht & Hd & Hc & Hr & Hq & Hhd & Hn & Hlive & Hdead & Hl).
    change (sessions (set_tails ?t ?x)) with (sessions x).
    cbn [expiredFiles timers tempDirs closed responses tasks handlers now tails
         set_tails].
    split; [exact Hk|]. split; [exact Ho|]. split; [exact Hf|]. split; [exact Ht|].
    split; [exact Hd|]. split; [exact Hc|]. split; [exact Hr|]. split; [exact Hq|].
    split; [exact Hhd|]. split; [exact Hn|].
    split; [|split; [exact Hdead|now rewrite Hl]].
    intros s Hs. eexists. split; [apply Hlive; exact Hs|]. repeat split.
  - destruct (isLoggedOut e).
    + destruct (status_update sessionId logged_out
                  (Some "Logged out from WhatsApp"%string) w)
        as (Hk & Ho & Hf & Ht & Hd & Hc & Hr & Hq & Hhd & Hn & Hlive & Hdead & Hl).
      split; [exact Hk|]. split; [exact Ho|]. split; [exact Hf|]. split; [exact Ht|].
      split; [exact Hd|]. split; [exact Hc|]. split; [exact Hr|]. split; [exact Hq|].
      split; [exact Hhd|]. split; [exact Hn|].
      split; [|split; [exact Hdead|exact Hl]].
      intros s Hs. eexists. split; [apply Hlive; exact Hs|]. repeat split.
    + destruct (status_update sessionId disconnected (Some (dmessage e)) w)
        as (Hk & Ho & Hf & Ht & Hd & Hc & Hr & Hq & Hhd & Hn & Hlive & Hdead & Hl).
      split; [exact Hk|]. split; [exact Ho|]. split; [exact Hf|]. split; [exact Ht|].
      split; [exact Hd|]. split; [exact Hc|]. split; [exact Hr|]. split; [exact Hq|].
      split; [exact Hhd|]. split; [exact Hn|].
      split; [|split; [exact Hdead|exact Hl]].
      intros s Hs. eexists. split; [apply Hlive; exact Hs|]. repeat split.
  - repeat split. intros s Hs. exists s. repeat split. exact Hs.
  - repeat split. intros s Hs. exists s. repeat split. exact Hs.
Qed.

Lemma connection_update_effect_witness :
  exists w' s',
    step Scenarios.wA (ConnectionUpdate Scenarios.sidA ConnOpen) = Some w' /\
    map_get Scenarios.sidA (sessions w') = Some s' /\
    status s' = connected /\
    pairingCode s' = Some "123-456"%string /\
    phone s' = "923123456789"%string.
Proof.
  destruct (connection_update_effect Scenarios.wA Scenarios.sidA Scenarios.sock7
              ConnOpen)
    as (w' & Hs & _ & _ & _ & _ & _ & _ & _ & _ & _ & _ & Hlive & _).
  - vm_compute. reflexivity.
  - destruct (map_get Scenarios.sidA (sessions Scenarios.wA)) as [s|] eqn:E;
      [|vm_compute in E; discriminate].
    destruct (Hlive s eq_refl) as (s' & Hg & _ & _ & Hp & _ & _ & Hc & Hst & _).
    exists w', s'. split; [exact Hs|]. split; [exact Hg|]. split; [exact Hst|].
    vm_compute in E. injection E as <-.
    split; [exact Hc|exact Hp].
Defined.




End RouteProofs.

(* ================================================================== *)
(** ** The tally of statuses *)
(* ================================================================== *)

Module TallyProofs.
Import GenId Pair Notions Invariants StatsProofs.
#[local] Open Scope list_scope.

Lemma total_acc_set : forall k n acc,
  (tally_total (acc_set k n acc) + counted k acc = tally_total acc + n)%nat.
Proof.
  intros k n acc. unfold tally_total, counted.
  induction acc as [|[k' n'] r IH]; simpl.
  - lia.
  - destruct (Status_eqb k k'); simpl; lia.
Qed.

Lemma total_tally : forall acc s, tally_total (tally acc s) = S (tally_total acc).
Proof.
  intros acc s. unfold tally.
  pose proof (total_acc_set (status s)
                (match acc_get (status s) acc with Some n => n | None => 0 end + 1)
                acc) as H.
  unfold counted in H. lia.
Qed.

Lemma total_fold : forall l acc,
  tally_total (fold_left tally l acc) = (tally_total acc + List.length l)%nat.
Proof.
  induction l as [|s r IH]; intros acc; simpl; [lia|].
  rewrite IH, total_tally. lia.
Qed.

Lemma keys_acc_set : forall a k n acc,
  In a (map fst (acc_set k n acc)) -> a = k \/ In a (map fst acc).
Proof.
  intros a k n acc. induction acc as [|[k' n'] r IH]; simpl.
  - intros [<-|[]]. now left.
  - destruct (Status_eqb k k') eqn:E; simpl.
    + apply Status_eqb_eq in E. subst k'. tauto.
    + intros [<-|H]; [right; now left|]. destruct (IH H); tauto.
Qed.

Lemma NoDup_acc_set : forall k n acc,
  NoDup (map fst acc) -> NoDup (map fst (acc_set k n acc)).
Proof.
  intros k n acc. induction acc as [|[k' n'] r IH]; simpl; intros H.
  - constructor; [tauto|constructor].
  - inversion H as [|? ? Hk Hr]; subst.
    destruct (Status_eqb k k') eqn:E; simpl.
    + apply Status_eqb_eq in E. subst k'. now constructor.
    + constructor; [|now apply IH].
      intros Hin. destruct (keys_acc_set _ _ _ _ Hin) as [->|Hin'].
      * now rewrite Status_eqb_refl in E.
      * contradiction.
Qed.

Lemma NoDup_fold : forall l acc,
  NoDup (map fst acc) -> NoDup (map fst (fold_left tally l acc)).
Proof.
  induction l as [|s r IH]; intros acc H; simpl; [exact H|].
  apply IH. unfold tally. now apply NoDup_acc_set.
Qed.

Lemma In_acc_get : forall k n acc,
  NoDup (map fst acc) -> In (k, n) acc -> acc_get k acc = Some n.
Proof.
  intros k n acc. induction acc as [|[k' n'] r IH]; simpl; intros Hnd Hin; [tauto|].
  inversion Hnd as [|? ? Hk Hr]; subst.
  destruct Hin as [E|Hin].
  - injection E as -> ->. now rewrite Status_eqb_refl.
  - destruct (Status_eqb k k') eqn:E.
    + apply Status_eqb_eq in E. subst k'. exfalso. apply Hk.
      change k with (fst (k, n)). now apply in_map.
    + now apply IH.
Qed.

(** X16.  In the summary of [getStats], the counts by status add up to the
    total, no status is listed twice, and a status is listed only with the
    number of live sessions that have it, which is then at least one. *)
Theorem getStats_totals : forall (sha256_hex : string -> string) (w : World),
  let stats := getStats sha256_hex w in
  tally_total (byStatus stats) = total stats /\
  NoDup (map fst (byStatus stats)) /\
  (forall st n, In (st, n) (byStatus stats) ->
     n = count_status st (map_values (sessions w)) /\ (1 <= n)%nat).
Proof.
  intros sha256_hex w stats. unfold stats, getStats. cbn [byStatus total].
  split; [|split].
  - rewrite total_fold. unfold map_values, tally_total. simpl.
    now rewrite length_map.
  - apply NoDup_fold. constructor.
  - intros st n Hin.
    apply In_acc_get in Hin; [|apply NoDup_fold; constructor].
    rewrite tally_counts in Hin.
    destruct (count_status st (map_values (sessions w))) as [|c]; [discriminate|].
    injection Hin as <-. unfold counted. simpl. split; lia.
Qed.

Lemma getStats_totals_witness :
  tally_total (byStatus (getStats Scenarios.digest_stub
                           (Scenarios.after Scenarios.four_requests))) = 3%nat.
Proof.
  destruct (getStats_totals Scenarios.digest_stub
              (Scenarios.after Scenarios.four_requests)) as (H & _).
  rewrite H. vm_compute. reflexivity.
Defined.

End TallyProofs.

(* ================================================================== *)
(** ** The simplified router *)
(* ================================================================== *)

Module SimpleRouterProofs.
Import GenId Pair Notions Invariants RegistryProofs InvariantProofs.
#[local] Open Scope list_scope.

Lemma simple_cleanup_absent : forall sessionId w,
  map_get sessionId (sessions w) = None -> SimpleRouter.cleanupSession sessionId w = w.
Proof.
  intros sessionId w H. unfold SimpleRouter.cleanupSession. now rewrite H.
Qed.

Lemma simple_cleanup_sessions : forall sessionId w,
  sessions (SimpleRouter.cleanupSession sessionId w) = map_delete sessionId (sessions w).
Proof.
  intros sessionId w. unfold SimpleRouter.cleanupSession.
  destruct (map_get sessionId (sessions w)) eqn:E.
  - destruct (existsSync sessionId (tempDirs (set_closed _ w))); reflexivity.
  - now rewrite map_delete_absent.
Qed.

Lemma simple_cleanup_untouched : forall sessionId w,
  expiredFiles (SimpleRouter.cleanupSession sessionId w) = expiredFiles w /\
  timers (SimpleRouter.cleanupSession sessionId w) = timers w /\
  responses (SimpleRouter.cleanupSession sessionId w) = responses w /\
  tasks (SimpleRouter.cleanupSession sessionId w) = tasks w.
Proof.
  intros sessionId w. unfold SimpleRouter.cleanupSession.
  destruct (map_get sessionId (sessions w)); [|repeat split].
  destruct (existsSync sessionId (tempDirs (set_closed _ w))); repeat split.
Qed.

Lemma simple_cleanup_live : forall sessionId w session,
  map_get sessionId (sessions w) = Some session ->
  closed (SimpleRouter.cleanupSession sessionId w) = closed w ++ socket_to_close session /\
  existsSync sessionId (tempDirs (SimpleRouter.cleanupSession sessionId w)) = false.
Proof.
  intros sessionId w session H. unfold SimpleRouter.cleanupSession. rewrite H.
  destruct (existsSync sessionId (tempDirs (set_closed _ w))) eqn:E; simpl in *.
  - split; [reflexivity|apply removeSync_gone].
  - split; [reflexivity|exact E].
Qed.

(** X17.  The [cleanupSession] of the simplified router removes the session
    from the live set, closes its transport and removes its temporary
    directory like the one of [pair.js], but writes no archival record;
    it changes nothing for an id that is not live, so a second call
    changes nothing, and it cancels no timer. *)
Theorem simple_cleanup_no_archive : forall (sessionId : string) (w : World),
  let w1 := SimpleRouter.cleanupSession sessionId w in
  map_get sessionId (sessions w1) = None /\
  sessions w1 = sessions (Pair.cleanupSession sessionId w) /\
  closed w1 = closed (Pair.cleanupSession sessionId w) /\
  tempDirs w1 = tempDirs (Pair.cleanupSession sessionId w) /\
  expiredFiles w1 = expiredFiles w /\
  timers w1 = timers w /\
  SimpleRouter.cleanupSession sessionId w1 = w1 /\
  (map_get sessionId (sessions w) = None -> w1 = w).
Proof.
  intros sessionId w w1. unfold w1.
  destruct (simple_cleanup_untouched sessionId w) as (Hf & Ht & _).
  split; [rewrite simple_cleanup_sessions; apply map_get_delete_same|].
  split; [now rewrite simple_cleanup_sessions, cleanup_sessions|].
  split; [|split].
  - unfold SimpleRouter.cleanupSession, Pair.cleanupSession.
    destruct (map_get sessionId (sessions w)); [|reflexivity].
    destruct (existsSync sessionId (tempDirs (set_closed _ w))); reflexivity.
  - unfold SimpleRouter.cleanupSession, Pair.cleanupSession.
    destruct (map_get sessionId (sessions w)); [|reflexivity].
    destruct (existsSync sessionId (tempDirs (set_closed _ w))); reflexivity.
  - split; [exact Hf|]. split; [exact Ht|]. split.
    + apply simple_cleanup_absent. rewrite simple_cleanup_sessions.
      apply map_get_delete_same.
    + apply simple_cleanup_absent.
Qed.

Lemma simple_cleanup_no_archive_witness :
  SimpleRouter.cleanupSession "no-such-id" Scenarios.wA = Scenarios.wA.
Proof.
  apply (simple_cleanup_no_archive "no-such-id" Scenarios.wA).
  vm_compute. reflexivity.
Defined.

Lemma simple_cleanup_dirs : forall sessionId w,
  tempDirs (SimpleRouter.cleanupSession sessionId w) = tempDirs w \/
  tempDirs (SimpleRouter.cleanupSession sessionId w) = removeSync sessionId (tempDirs w).
Proof.
  intros sessionId w. unfold SimpleRouter.cleanupSession.
  destruct (map_get sessionId (sessions w)); [|now left].
  destruct (existsSync sessionId (tempDirs (set_closed _ w))); [right|left]; reflexivity.
Qed.

(** X18.  When the pairing fails, the simplified route cleans the session up at
    once: afterwards the id is not live, every other session is as it
    was, and no address has more live sessions than before.  If the
    session was live, [close] has been called on the transport of its
    socket, once, if it has a socket with a transport, and on nothing
    otherwise, and its temporary directory is gone while those of the
    others are kept; if it was not live, nothing is closed and nothing
    removed.  No record is archived.  The answer is 500 PAIRING_FAILED
    with the error text or a fixed one.  When the pairing succeeds the
    route only answers 200: the registry is not touched, so neither the
    status nor the code is stored. *)
Theorem simple_failure_cleans_up : forall (t : Task) (err code : string) (w : World),
  let w' := SimpleRouter.route_pair_resume t (SimpleRouter.Failed err) w in
  map_get (t_sessionId t) (sessions w') = None /\
  (forall k, k <> t_sessionId t -> map_get k (sessions w') = map_get k (sessions w)) /\
  (forall clientIP, (live_count clientIP w' <= live_count clientIP w)%Z) /\
  (forall s, map_get (t_sessionId t) (sessions w) = Some s ->
     (forall sock h, socket s = Some sock -> ws sock = Some h ->
        closed w' = closed w ++ [h]) /\
     (socket s = None -> closed w' = closed w) /\
     (forall sock, socket s = Some sock -> ws sock = None -> closed w' = closed w) /\
     ~ In (t_sessionId t) (tempDirs w') /\
     (forall d, d <> t_sessionId t -> (In d (tempDirs w') <-> In d (tempDirs w)))) /\
  (map_get (t_sessionId t) (sessions w) = None ->
     closed w' = closed w /\ tempDirs w' = tempDirs w /\ sessions w' = sessions w) /\
  expiredFiles w' = expiredFiles w /\
  responses w' =
    responses w ++
      [mkResponse 500
         (PairError (t_requestId t) "PAIRING_FAILED"
            (or_text err "Failed to generate pairing code"))] /\
  SimpleRouter.route_pair_resume t (SimpleRouter.Issued code) w
  = respond 200
      (PairIssued (t_requestId t) code "Pairing code generated successfully"
         (t_sessionId t) "5 minutes" SimpleRouter.instructions_text) w.
Proof.
  intros t err code w w'. unfold w', SimpleRouter.route_pair_resume.
  change (sessions (respond ?n ?b ?x)) with (sessions x).
  cbn [closed tempDirs expiredFiles responses respond].
  destruct (simple_cleanup_untouched (t_sessionId t) w) as (Hf & _ & Hr & _).
  rewrite Hf, Hr.
  split; [rewrite simple_cleanup_sessions; apply map_get_delete_same|].
  split.
  { intros k Hne. rewrite simple_cleanup_sessions. now apply map_get_delete_other. }
  split.
  { intros clientIP.
    change (live_count clientIP (respond ?n ?b ?x)) with (live_count clientIP x).
    unfold live_count. rewrite simple_cleanup_sessions.
    pose proof (count_address_delete clientIP (t_sessionId t) (sessions w)). lia. }
  split.
  { intros s Hs.
    destruct (simple_cleanup_live (t_sessionId t) w s Hs) as (Hc & Hd).
    exact (closing_and_dirs s (t_sessionId t) (closed w) _ (tempDirs w) _ Hc Hd
             (simple_cleanup_dirs (t_sessionId t) w)). }
  split.
  { intros Hs. now rewrite (simple_cleanup_absent (t_sessionId t) w Hs). }
  repeat split.
Qed.

Lemma simple_failure_cleans_up_witness :
  In Scenarios.sidA (tempDirs Scenarios.wA) /\
  closed Scenarios.wA = [] /\
  closed (SimpleRouter.route_pair_resume
            (mkTask "req-1" Scenarios.sidA "923123456789" AwaitPairingCode)
            (SimpleRouter.Failed EmptyString) Scenarios.wA) = [7%nat] /\
  ~ In Scenarios.sidA
      (tempDirs (SimpleRouter.route_pair_resume
                   (mkTask "req-1" Scenarios.sidA "923123456789" AwaitPairingCode)
                   (SimpleRouter.Failed EmptyString) Scenarios.wA)).
Proof.
  destruct (simple_failure_cleans_up
              (mkTask "req-1" Scenarios.sidA "923123456789" AwaitPairingCode)
              EmptyString EmptyString Scenarios.wA) as (_ & _ & _ & H & _).
  destruct (H (mkSession Scenarios.sidA "10.0.0.1" "923123456789" 1000
                 paired (Some Scenarios.sock7) (Some "123-456"%string) None))
    as (C1 & _ & _ & D1 & _);
    [vm_compute; reflexivity|].
  split; [vm_compute; auto|].
  split; [vm_compute; reflexivity|].
  split; [exact (C1 Scenarios.sock7 7%nat eq_refl eq_refl)|exact D1].
Defined.

(** *** Its validation *)

(** X19.  A request to the simplified route whose [number] parameter is an
    array or an object changes nothing and is not answered: as in
    [pair.js], the first statement of the handler throws before the
    [try].  Otherwise, with an absent parameter counting as the empty
    text, the route accepts a number exactly when it has at least ten
    digits: every number that [validatePhoneNumber] accepts is accepted,
    and a number it accepts but [validatePhoneNumber] rejects has more
    than 15 digits or does not begin with a digit 1-9.  An accepted
    request always registers a session under the new id, with the digits
    as phone and status [initializing], whatever the number of live
    sessions of the address, arms its timer with a delay of the configured
    timeout if that is between 1 and 2147483647 ms and of 1 ms otherwise,
    and suspends the handler without a response; a rejected one changes
    nothing but the responses. *)
Theorem simple_request_outcome :
  forall (number : QueryValue) (clientIP requestId : string) (draw : nat -> nat)
         (w : World),
  let w' := SimpleRouter.route_pair number clientIP requestId draw w in
  let sessionId := SimpleRouter.makeid 8 draw in
  let timeout := sessionTimeout (sessionManager w) in
  match number with
  | QOther => w' = w
  | _ =>
      let raw := match number with QString n => n | _ => EmptyString end in
      let digits := strip_non_digits raw in
      (SimpleRouter.rejects digits = false <-> (10 <= String.length digits)%nat) /\
      (validatePhoneNumber raw <> None -> SimpleRouter.rejects digits = false) /\
      (SimpleRouter.rejects digits = false -> validatePhoneNumber raw = None ->
         (15 < String.length digits)%nat \/ ~ begins_with_country_code digits) /\
      ((String.length digits < 10)%nat ->
         exists text, w' = respond 400 (PairError requestId "VALIDATION_ERROR" text) w) /\
      ((10 <= String.length digits)%nat ->
         map_get sessionId (sessions w')
           = Some (new_session sessionId clientIP digits (now w)) /\
         responses w' = responses w /\
         tasks w' = tasks w ++ [mkTask requestId sessionId digits AwaitEnsureDir] /\
         (exists delay,
            timers w' = timers w ++ [((now w + delay)%Z, sessionId)] /\
            ((1 <= timeout <= 2147483647)%Z -> delay = timeout) /\
            ((timeout < 1 \/ 2147483647 < timeout)%Z -> delay = 1%Z)) /\
         (map_get sessionId (sessions w) = None ->
          live_count clientIP w' = (live_count clientIP w + 1)%Z))
  end.
Proof.
  intros number clientIP requestId draw w w' sessionId timeout.
  assert (G : forall raw,
    let digits := strip_non_digits raw in
    let w' := SimpleRouter.route_pair_text raw clientIP requestId draw w in
    (SimpleRouter.rejects digits = false <-> (10 <= String.length digits)%nat) /\
    (validatePhoneNumber raw <> None -> SimpleRouter.rejects digits = false) /\
    (SimpleRouter.rejects digits = false -> validatePhoneNumber raw = None ->
       (15 < String.length digits)%nat \/ ~ begins_with_country_code digits) /\
    ((String.length digits < 10)%nat ->
       exists text, w' = respond 400 (PairError requestId "VALIDATION_ERROR" text) w) /\
    ((10 <= String.length digits)%nat ->
       map_get sessionId (sessions w')
         = Some (new_session sessionId clientIP digits (now w)) /\
       responses w' = responses w /\
       tasks w' = tasks w ++ [mkTask requestId sessionId digits AwaitEnsureDir] /\
       (exists delay,
          timers w' = timers w ++ [((now w + delay)%Z, sessionId)] /\
          ((1 <= timeout <= 2147483647)%Z -> delay = timeout) /\
          ((timeout < 1 \/ 2147483647 < timeout)%Z -> delay = 1%Z)) /\
       (map_get sessionId (sessions w) = None ->
        live_count clientIP w' = (live_count clientIP w + 1)%Z))).
  { intros raw digits w0.
    assert (R : SimpleRouter.rejects digits = false <-> (10 <= String.length digits)%nat).
    { unfold SimpleRouter.rejects. destruct digits as [|d rest]; simpl String.eqb.
      - simpl. split; [discriminate|lia].
      - change (String d rest =? EmptyString)%string with false. simpl orb.
        apply Nat.ltb_ge. }
    split; [exact R|].
    split.
    { intros Hv. apply R.
      destruct (validatePhoneNumber raw) as [v|] eqn:E; [|congruence].
      pose proof (GenIdProofs.validated_is_stripped raw v E) as Ev.
      apply StatsProofs.validated_length in E as Hlen.
      apply GenIdProofs.validate_fixed in E.
      apply GenIdProofs.validated_shape in E. fold digits in Ev. subst v. lia. }
    split.
    { intros Hr Hn. apply R in Hr.
      destruct (Nat.ltb_spec 15 (String.length digits)) as [Hhi|Hhi]; [now left|].
      right. intros Hb.
      assert (V : validated digits).
      { apply GenIdProofs.validated_shape. split; [|split; [lia|exact Hb]].
        apply ValidatorProofs.strip_only_digits. }
      unfold validated in V. unfold digits in V.
      rewrite GenIdProofs.validate_prestripped in V. congruence. }
    unfold w0, SimpleRouter.route_pair_text. fold digits.
    split.
    { intros Hlt.
      assert (Hr : SimpleRouter.rejects digits = true).
      { apply Bool.not_false_is_true. intros E. apply R in E. lia. }
      rewrite Hr. now eexists. }
    intros Hge. apply R in Hge. rewrite Hge. fold sessionId.
    unfold SimpleRouter.createSession, createSession.
    change (sessions (set_tasks ?t (set_timers ?tm (set_sessions ?m w)))) with m.
    split; [apply map_get_set_same|]. split; [reflexivity|]. split; [reflexivity|].
    split.
    { exists (setTimeout_delay timeout). split; [reflexivity|].
      apply OrchestratorProofs.setTimeout_delay_cases. }
    intros Hfresh. unfold live_count.
    change (sessions (set_tasks ?t (set_timers ?tm (set_sessions ?m w)))) with m.
    pose proof (count_address_set clientIP sessionId
                  (new_session sessionId clientIP digits (now w)) (sessions w)) as H.
    unfold held_by in H. rewrite Hfresh in H. simpl ip in H.
    rewrite String.eqb_refl in H. simpl in H. lia. }
  unfold w', SimpleRouter.route_pair.
  destruct number as [|n|]; cbn [query_text]; [apply G|apply G|reflexivity].
Qed.

Lemma simple_request_outcome_witness :
  (SimpleRouter.rejects (strip_non_digits "0000000000000000") = false /\
   validatePhoneNumber "0000000000000000" = None) /\
  SimpleRouter.route_pair QOther "10.0.0.1" "r" (fun _ => 0%nat) Scenarios.w0
  = Scenarios.w0.
Proof.
  split.
  - destruct (simple_request_outcome (QString "0000000000000000") "10.0.0.1" "r"
                (fun _ => 0%nat) Scenarios.w0) as (H & _).
    split; [|reflexivity].
    apply H. vm_compute. lia.
  - exact (simple_request_outcome QOther "10.0.0.1" "r" (fun _ => 0%nat) Scenarios.w0).
Defined.

(** *** Its identifiers *)

Lemma charAt_pick : forall k,
  (k < 62)%nat -> SimpleRouter.charAt k chars = pick k.
Proof.
  intros k Hk. unfold SimpleRouter.charAt, pick.
  change (String.length chars) with 62%nat. rewrite Nat.mod_small by exact Hk.
  destruct (IssuerProofs.get_in_range chars k) as [c Hc]; [exact Hk|].
  now rewrite Hc.
Qed.

Lemma makeid_loop : forall (draw : nat -> nat) (l : list nat) (acc : string),
  (forall i, In i l -> (draw i < 62)%nat) ->
  fold_left (fun result i => (result ++ SimpleRouter.charAt (draw i) chars)%string) l acc
  = (acc ++ picks (map draw l))%string.
Proof.
  intros draw l. induction l as [|i r IH]; intros acc H; cbn [fold_left map picks].
  - now rewrite IssuerProofs.append_empty_r.
  - rewrite IH by (intros j Hj; apply H; now right).
    rewrite charAt_pick by (apply H; now left).
    apply IssuerProofs.append_assoc.
Qed.

(** X20.  With every draw below the size of the alphabet, as
    [Math.floor(Math.random() * 62)] is, [makeid(length)] is the string
    that [generateSessionId(length)] builds from the draws as bytes: it
    has [length] characters, the i-th being the character of the alphabet
    at the i-th draw. *)
Theorem makeid_as_generateSessionId : forall (length : nat) (draw : nat -> nat),
  (forall i, (i < length)%nat -> (draw i < 62)%nat) ->
  SimpleRouter.makeid length draw = generateSessionId length (map draw (seq 0 length)) /\
  String.length (SimpleRouter.makeid length draw) = length /\
  (forall i, (i < length)%nat ->
     String.get i (SimpleRouter.makeid length draw) = String.get (draw i) chars).
Proof.
  intros length draw H.
  assert (E : SimpleRouter.makeid length draw = picks (map draw (seq 0 length))).
  { unfold SimpleRouter.makeid. rewrite makeid_loop; [reflexivity|].
    intros i Hi. apply in_seq in Hi. apply H. lia. }
  assert (L : List.length (map draw (seq 0 length)) = length)
    by now rewrite length_map, length_seq.
  split; [|split].
  - rewrite E.
    rewrite <- (IssuerProofs.generateSessionId_picks (map draw (seq 0 length))).
    now rewrite L.
  - now rewrite E, IssuerProofs.picks_length.
  - intros i Hi. rewrite E.
    rewrite (IssuerProofs.picks_get _ i (draw i)).
    + now rewrite Nat.mod_small by (apply H; exact Hi).
    + rewrite nth_error_map, nth_error_nth' with (d := 0%nat)
        by (rewrite length_seq; exact Hi).
      now rewrite seq_nth by exact Hi.
Qed.

Lemma makeid_as_generateSessionId_witness :
  String.length (SimpleRouter.makeid 8 (fun i => (7 * i)%nat)) = 8%nat.
Proof.
  apply (makeid_as_generateSessionId 8 (fun i => (7 * i)%nat)).
  intros i Hi. lia.
Defined.

End SimpleRouterProofs.

(* ================================================================== *)
(** ** The configuration *)
(* ================================================================== *)

Module ConfigProofs.
Import GenId Pair Notions Invariants RegistryProofs InvariantProofs.
#[local] Open Scope list_scope.

Lemma or_default_nonzero : forall v d, (d <> 0)%Z -> (or_default v d <> 0)%Z.
Proof.
  intros [n|] d Hd; simpl; [|exact Hd].
  destruct (Z.eqb_spec n 0); assumption.
Qed.

Lemma configured_run : forall a b es w w',
  run w es = Some w' -> configured a b w -> configured a b w'.
Proof.
  intros a b es w w'. apply (full_run (configured a b)).
  - unfold configured. intros w0 w1 -> _ _. tauto.
  - intros k u w0 [Ha Hb]. unfold configured.
    destruct (update_untouched k u w0) as (_ & _ & _ & _ & _ & _ & _ & -> & ->).
    now split.
  - intros k w0 [Ha Hb]. unfold configured.
    destruct (cleanup_manager_config k w0) as [-> ->]. now split.
  - intros k clientIP validatedPhone w0 _ _ H. exact H.
  - intros t w0 H. exact H.
  - intros k due sessionId w0 _ [Ha Hb]. unfold configured.
    destruct (cleanup_manager_config sessionId
                (set_timers (drop_nth k (timers w0)) w0)) as [-> ->].
    now split.
Qed.

(** X21.  The session timeout and the maximum per address are fixed when the
    module is loaded and no event changes them; a variable that is unset,
    unparsable or 0 gives the default, 300000 ms and 3, so neither number
    is ever 0. *)
Theorem configuration_fixed :
  forall (env_timeout env_max : option Z) (cleanup_key : option string) (t0 : Z)
         (w : World),
  reachable env_timeout env_max cleanup_key t0 w ->
  sessionTimeout (sessionManager w) = or_default env_timeout 300000 /\
  maxSessionsPerIP (sessionManager w) = or_default env_max 3 /\
  (sessionTimeout (sessionManager w) <> 0)%Z /\
  (maxSessionsPerIP (sessionManager w) <> 0)%Z /\
  (env_timeout = None \/ env_timeout = Some 0%Z ->
   sessionTimeout (sessionManager w) = 300000%Z) /\
  (env_max = None \/ env_max = Some 0%Z ->
   maxSessionsPerIP (sessionManager w) = 3%Z).
Proof.
  intros env_timeout env_max cleanup_key t0 w [es Hes].
  assert (C : configured (or_default env_timeout 300000) (or_default env_max 3) w).
  { eapply configured_run; [exact Hes|]. split; reflexivity. }
  destruct C as [Ha Hb]. rewrite Ha, Hb.
  split; [reflexivity|]. split; [reflexivity|].
  split; [apply or_default_nonzero; lia|].
  split; [apply or_default_nonzero; lia|].
  split; intros [->| ->]; reflexivity.
Qed.

Lemma configuration_fixed_witness :
  maxSessionsPerIP (sessionManager (Scenarios.after Scenarios.four_requests)) = 3%Z.
Proof.
  destruct (configuration_fixed None None (Some "k") 1000
              (Scenarios.after Scenarios.four_requests)) as (_ & Hb & _).
  - exists Scenarios.four_requests. vm_compute. reflexivity.
  - exact Hb.
Defined.

End ConfigProofs.

(* ================================================================== *)
(** ** Further sanity checks *)
(* ================================================================== *)

Example pairing_code_example :
  PairingCode.generatePairingCode [1; 12; 23; 34; 45; 56] = Some "123-456".
Proof. vm_compute. reflexivity. Qed.

Example groups_example :
  PairingCode.groups_of_three "12345678" = ["123"; "456"; "78"].
Proof. reflexivity. Qed.

Example makeid_example :
  SimpleRouter.makeid 8 (fun i => (i + 26)%nat) = "abcdefgh".
Proof. vm_compute. reflexivity. Qed.

Example simple_accepts_leading_zero :
  SimpleRouter.rejects (GenId.strip_non_digits "0923123456789") = false.
Proof. reflexivity. Qed.
